(** * GoAuditParser: the record-to-table engine, embedded and verified

    A shallow embedding of the parts of [auditparser.go] and [timeliner.go]
    that the specification talks about: the timestamp normalizer, the two
    row accumulators, the dialect probe, the column assembler, the
    Excel-friendly truncation, and the resumability cache.

    Conventions.
    - A Go [string] is a sequence of bytes: [string] (a list of [ascii]).
    - A Go [int] is a [Z]; [len] results are never negative.
    - A Go [map[string]int] is a [gmap string Z]; [len(m)] is [size m].
    - An operation that can panic (indexing, slicing) returns [option].

    The first half of the file holds the embedding, the second half the
    lemmas and theorems about it. *)

From Stdlib Require Import ZArith Ascii String List Lia Bool Permutation.
From stdpp Require Import gmap strings list fin_maps sorting.

Local Open Scope Z_scope.

(** ** Go string primitives *)

Module GoString.

(** [len(s)] *)
Definition len (s : string) : Z := Z.of_nat (String.length s).

(** [s[i]]: a byte read; out of range it panics. *)
Definition byte_at (s : string) (i : Z) : option ascii :=
  if (0 <=? i) && (i <? len s) then String.get (Z.to_nat i) s else None.

(** [s[lo:hi]]: a slice expression; it panics unless
    [0 <= lo <= hi <= len(s)]. *)
Definition slice (s : string) (lo hi : Z) : option string :=
  if (0 <=? lo) && (lo <=? hi) && (hi <=? len s)
  then Some (String.substring (Z.to_nat lo) (Z.to_nat (hi - lo)) s)
  else None.

(** [a && b] where the evaluation of either side can panic: the right
    operand is looked at only when the left one is [true]. *)
Definition and_then (a b : option bool) : option bool :=
  match a with
  | Some true => b
  | Some false => Some false
  | None => None
  end.

(** [s[i] == c] *)
Definition byte_is (s : string) (i : Z) (c : ascii) : option bool :=
  match byte_at s i with
  | Some x => Some (Ascii.eqb x c)
  | None => None
  end.

End GoString.

Import GoString.

Infix "&&&" := and_then (at level 40, left associativity).

(** ** [parse_time] (auditparser.go, 2157-2168) *)

Definition parse_time (timevalue : string) : option string :=
  let length := len timevalue in
  (* 2019-12-19T11:11:45.299Z *)
  c1 ← Some ((length =? 23) || (length =? 24))
         &&& byte_is timevalue 4 "-" &&& byte_is timevalue 7 "-"
         &&& byte_is timevalue 13 ":" &&& byte_is timevalue 16 ":"
         &&& byte_is timevalue 19 ".";
  if c1 : bool then
    a ← slice timevalue 0 10; b ← slice timevalue 11 23;
    Some (a +:+ " " +:+ b)
  else
    (* 2019-12-19T11:11:45Z *)
    c2 ← Some ((length =? 19) || (length =? 20))
           &&& byte_is timevalue 4 "-" &&& byte_is timevalue 7 "-"
           &&& byte_is timevalue 13 ":" &&& byte_is timevalue 16 ":";
    if c2 : bool then
      a ← slice timevalue 0 10; b ← slice timevalue 11 19;
      Some (a +:+ " " +:+ b)
    else Some timevalue.

(** The value the callers of [parse_time] go on with.  [parse_time] never
    panics ([parse_time_total]), so the default is never taken. *)
Definition parse_time_value (timevalue : string) : string :=
  default timevalue (parse_time timevalue).

(** The two fixed-width shapes in the words of the specification: a
    length, and separator bytes at fixed offsets.  Nothing else about the
    string is looked at (no digit, no ['T'], no ['Z']). *)
Definition sep_at (s : string) (i : nat) (c : ascii) : bool :=
  match String.get i s with
  | Some x => Ascii.eqb x c
  | None => false
  end.

Definition is_fractional_stamp (s : string) : bool :=
  ((len s =? 23) || (len s =? 24))
  && sep_at s 4 "-" && sep_at s 7 "-" && sep_at s 13 ":" && sep_at s 16 ":"
  && sep_at s 19 ".".

Definition is_seconds_stamp (s : string) : bool :=
  ((len s =? 19) || (len s =? 20))
  && sep_at s 4 "-" && sep_at s 7 "-" && sep_at s 13 ":" && sep_at s 16 ":".

(** [out] is [s] cut to [n] bytes with the byte at offset 10 replaced by
    a space. *)
Definition rewritten (s : string) (n : nat) (out : string) : Prop :=
  String.length out = n ∧ String.get 10 out = Some " "%char ∧
  ∀ i : nat, (i < n)%nat → i ≠ 10%nat → String.get i out = String.get i s.

(** ** More string helpers *)

Definition CR : string := String "013" "".
Definition LF : string := String "010" "".
Definition CRLF : string := String "013" (String "010" "").

(** [strings.Replace(s, old, new, -1)] for a non-empty [old]: the
    non-overlapping occurrences of [old] are replaced from left to right.
    [skip] counts the bytes of a matched occurrence still to be dropped. *)
Fixpoint replace_from (skip : nat) (s old new : string) : string :=
  match s with
  | EmptyString => EmptyString
  | String c rest =>
      match skip with
      | S k => replace_from k rest old new
      | O =>
          if String.prefix old s
          then new +:+ replace_from (String.length old - 1) rest old new
          else String c (replace_from O rest old new)
      end
  end.

Definition Replace (s old new : string) : string := replace_from 0 s old new.

(** [strings.Join(elems, sep)] *)
Definition Join (elems : list string) (sep : string) : string :=
  String.concat sep elems.

(** ** Options and rows (timeliner.go 1027, auditparser.go 43) *)

(** The parsed configuration (timeliner.go, 1432-1442). *)
Record AuditHeaderConfig := {
  ItemName : string;
  HeaderOrder : list string;
  HeadersOmitted : list string
}.

Record Main_Config_JSON := {
  OmitUnlisted : bool;
  HeadersMandatory : list string;
  HeadersOptional : list string;
  AuditHeaderConfigs : list AuditHeaderConfig
}.

Definition no_config : Main_Config_JSON :=
  {| OmitUnlisted := false; HeadersMandatory := []; HeadersOptional := [];
     AuditHeaderConfigs := [] |}.

Record Options := {
  Config : Main_Config_JSON;
  ReplaceNewLineFeeds : bool;
  ForceReparse : bool;
  ExcelFriendly : bool;
  WipeOutput : bool
}.

Record RowValue := { colid : Z; value : string }.

(** ** [add_value_to_row_normal] (auditparser.go, 2060-2105)

    [headers] and [row] are Go maps, mutated in place by the source; the
    embedding hands back their new contents.  A [*strings.Builder] cell is
    the string written so far. *)
Definition add_value_to_row_normal (header value : string)
    (headerPathParts : list string) (headers : gmap string Z)
    (row : gmap Z string) (options : Options)
    (existingGetsNewLine include_value : bool)
  : gmap string Z * gmap Z string :=
  if negb include_value then (headers, row) else
  (* Add path prefix to header *)
  let header :=
    if 0 <? Z.of_nat (length headerPathParts)
    then Join headerPathParts "." +:+ "." +:+ header else header in
  (* Check to see if value is timestamp *)
  let value := parse_time_value value in
  (* Check to see if new lines should be replaced *)
  let value :=
    if ReplaceNewLineFeeds options then
      let newlinechar := "|" in
      let value := Replace value CRLF newlinechar in
      let value := Replace value LF newlinechar in
      Replace value CR newlinechar
    else value in
  (* Check if header already exists *)
  let '(colID, headers) :=
    match headers !! header with
    | Some colID => (colID, headers)
    | None => let colID := Z.of_nat (size headers) in
              (colID, <[header := colID]> headers)
    end in
  (* Check if value already exists *)
  match row !! colID with
  | Some written =>
      let value :=
        if existingGetsNewLine then
          if ReplaceNewLineFeeds options then "|" +:+ value
          else CRLF +:+ value
        else value in
      (headers, <[colID := written +:+ value]> row)
  | None => (headers, <[colID := value]> row)
  end.

(** The [for index, rowvalue := range row] loop of
    [add_value_to_row_eventbuffer]: the first entry with the column id gets
    the value appended, behind the separator [sep] when one is asked for.
    The boolean is the loop's [found]. *)
Fixpoint append_to_first (colID : Z) (sep text : string) (row : list RowValue)
  : list RowValue * bool :=
  match row with
  | [] => ([], false)
  | rowvalue :: rest =>
      if colid rowvalue =? colID
      then ({| colid := colid rowvalue;
               value := value rowvalue +:+ (sep +:+ text) |} :: rest, true)
      else let '(rest', found) := append_to_first colID sep text rest in
           (rowvalue :: rest', found)
  end.

(** ** [add_value_to_row_eventbuffer] (auditparser.go, 2107-2154) *)
Definition add_value_to_row_eventbuffer (header value : string)
    (headers : gmap string Z) (row : list RowValue) (options : Options)
    (existingValueGetsNewLine : bool)
  : gmap string Z * list RowValue :=
  (* Check to see if value is timestamp *)
  let value := parse_time_value value in
  (* Check to see if new lines should be replaced *)
  let value :=
    if ReplaceNewLineFeeds options then
      let newlinechar := "|" in
      let value := Replace value CRLF newlinechar in
      let value := Replace value LF newlinechar in
      Replace value CR newlinechar
    else value in
  (* Check if header already exists *)
  let '(colID, headers) :=
    match headers !! header with
    | Some colID => (colID, headers)
    | None => let colID := Z.of_nat (size headers) in
              (colID, <[header := colID]> headers)
    end in
  (* Determine if header exists already *)
  let sep :=
    if existingValueGetsNewLine then
      if ReplaceNewLineFeeds options then "|" else CRLF
    else "" in
  let '(row', found) := append_to_first colID sep value row in
  (* If header doesn't exist already *)
  if found then (headers, row')
  else (headers, row ++ [{| colid := colID; value := value |}]).

(** What both accumulators do to a raw value before storing it. *)
Definition stored_value (options : Options) (value : string) : string :=
  let value := parse_time_value value in
  if ReplaceNewLineFeeds options
  then Replace (Replace (Replace value CRLF "|") LF "|") CR "|"
  else value.

(** The separator of the join policy. *)
Definition join_separator (options : Options) : string :=
  if ReplaceNewLineFeeds options then "|" else CRLF.

(** The column name [add_value_to_row_normal] files a field under. *)
Definition dot_path (headerPathParts : list string) (header : string) : string :=
  if 0 <? Z.of_nat (length headerPathParts)
  then Join headerPathParts "." +:+ "." +:+ header else header.

(** The cells of an event row with a given column id. *)
Definition cells_of (colID : Z) (row : list RowValue) : list string :=
  value <$> filter (λ rv, colid rv = colID) row.

(** ** Header tables *)

(** The ids of a table are the integers [0 .. len-1], one name each. *)
Definition consecutive_ids (headers : gmap string Z) : Prop :=
  (∀ id : Z, (∃ name, headers !! name = Some id) ↔ 0 ≤ id < Z.of_nat (size headers))
  ∧ (∀ n1 n2 id, headers !! n1 = Some id → headers !! n2 = Some id → n1 = n2).

(** A table only grows: names keep their ids, and a new name gets the
    size of the table it is added to. *)
Definition grows_from (old new : gmap string Z) : Prop :=
  (∀ name id, old !! name = Some id → new !! name = Some id)
  ∧ (∀ name id, old !! name = None → new !! name = Some id →
       id = Z.of_nat (size old)).

(** ** The store of the Normal-dialect parser (auditparser.go, 696-698)

    [headers], [rows], [row] and what the state machine does to them: at
    every record boundary (783-793) a non-empty [row] is appended to [rows]
    and a fresh [row] is started; everywhere else the store changes only
    through [add_value_to_row_normal] (853, 858, 879, 887, 932, 941, 951,
    994, 998; [ExtraFunc4] changes nothing). *)
Record NormalStore := {
  n_headers : gmap string Z;
  n_rows : list (gmap Z string);
  n_row : gmap Z string
}.

Definition normal_init : NormalStore :=
  {| n_headers := ∅; n_rows := []; n_row := ∅ |}.

Definition normal_next_record (st : NormalStore) : NormalStore :=
  {| n_headers := n_headers st;
     n_rows := if bool_decide (size (n_row st) ≠ 0%nat)
               then n_rows st ++ [n_row st] else n_rows st;
     n_row := ∅ |}.

Definition normal_add (header value : string) (headerPathParts : list string)
    (options : Options) (existingGetsNewLine include_value : bool)
    (st : NormalStore) : NormalStore :=
  let '(headers, row) :=
    add_value_to_row_normal header value headerPathParts (n_headers st)
      (n_row st) options existingGetsNewLine include_value in
  {| n_headers := headers; n_rows := n_rows st; n_row := row |}.

Inductive normal_step : NormalStore → NormalStore → Prop :=
| normal_step_record st : normal_step st (normal_next_record st)
| normal_step_add header value parts options nl incl st :
    normal_step st (normal_add header value parts options nl incl st).

Inductive normal_reachable : NormalStore → Prop :=
| normal_reach_init : normal_reachable normal_init
| normal_reach_step st st' :
    normal_reachable st → normal_step st st' → normal_reachable st'.

(** ** The store of the EventBuffer and StateAgentInspector parsers
    (auditparser.go, 1241-1244) *)
Record EventStore := {
  eventTypes : gmap string Z;           (* map[EventType]EventTypeID *)
  allHeaders : list (gmap string Z);     (* [EventTypeID]map[ColumnHeader]ColumnID *)
  tables : list (list (list RowValue)); (* [EventTypeID][Row][ColumnID]Value *)
  e_row : list RowValue;
  eventTypeID : Z
}.

Definition event_init : EventStore :=
  {| eventTypes := ∅; allHeaders := []; tables := []; e_row := [];
     eventTypeID := -1 |}.

(** The table a new event type starts with (1389-1391, 1697-1699). *)
Definition seeded_headers : gmap string Z :=
  <["AgentID" := 1]> (<["Hostname" := 0]> ∅).

(** Event-type open (1384-1394 and 1692-1702).  [allHeaders[eventTypeID]]
    is an index expression: out of range it panics ([None]). *)
Definition open_event_type (eventType : string) (st : EventStore)
  : option EventStore :=
  match eventTypes st !! eventType with
  | None =>
      let eventTypeID := Z.of_nat (size (eventTypes st)) in
      let eventTypes' := <[eventType := eventTypeID]> (eventTypes st) in
      let tables' := tables st ++ [[]] in
      let allHeaders' := allHeaders st ++ [∅] in
      h ← allHeaders' !! Z.to_nat eventTypeID;
      let allHeaders' := <[Z.to_nat eventTypeID := <["Hostname" := 0]> h]> allHeaders' in
      h ← allHeaders' !! Z.to_nat eventTypeID;
      let allHeaders' := <[Z.to_nat eventTypeID := <["AgentID" := 1]> h]> allHeaders' in
      Some {| eventTypes := eventTypes'; allHeaders := allHeaders';
              tables := tables'; e_row := e_row st;
              eventTypeID := eventTypeID |}
  | Some val =>
      Some {| eventTypes := eventTypes st; allHeaders := allHeaders st;
              tables := tables st; e_row := e_row st; eventTypeID := val |}
  end.

(** Event boundary (1318-1321 and 1606-1609). *)
Definition event_next_record (st : EventStore) : option EventStore :=
  if bool_decide (length (e_row st) ≠ 0%nat) then
    if bool_decide (0 ≤ eventTypeID st) then
      t ← tables st !! Z.to_nat (eventTypeID st);
      Some {| eventTypes := eventTypes st; allHeaders := allHeaders st;
              tables := <[Z.to_nat (eventTypeID st) := t ++ [e_row st]]> (tables st);
              e_row := []; eventTypeID := eventTypeID st |}
    else None
  else
    Some {| eventTypes := eventTypes st; allHeaders := allHeaders st;
            tables := tables st; e_row := []; eventTypeID := eventTypeID st |}.

(** [row = add_value_to_row_eventbuffer(field, value,
    allHeaders[eventTypeID], row, options, nl)]: the map inside the slice
    is the one that is mutated. *)
Definition event_add (field value : string) (options : Options) (nl : bool)
    (st : EventStore) : option EventStore :=
  if bool_decide (0 ≤ eventTypeID st) then
    h ← allHeaders st !! Z.to_nat (eventTypeID st);
    let '(h', row') :=
      add_value_to_row_eventbuffer field value h (e_row st) options nl in
    Some {| eventTypes := eventTypes st;
            allHeaders := <[Z.to_nat (eventTypeID st) := h']> (allHeaders st);
            tables := tables st; e_row := row';
            eventTypeID := eventTypeID st |}
  else None.

Inductive event_step : EventStore → EventStore → Prop :=
| event_step_record st st' :
    event_next_record st = Some st' → event_step st st'
| event_step_type eventType st st' :
    (* the row is still the empty one of the event boundary: between 1321
       and 1383 (1609 and 1691) nothing is added to it *)
    e_row st = [] →
    open_event_type eventType st = Some st' → event_step st st'
| event_step_add field value options nl st st' :
    event_add field value options nl st = Some st' → event_step st st'.

Inductive event_reachable : EventStore → Prop :=
| event_reach_init : event_reachable event_init
| event_reach_step st st' :
    event_reachable st → event_step st st' → event_reachable st'.

(** [UpperCamelCase] (part_002, 712-717).  [strings.ToUpper] on the one
    byte [s[0:1]]: an ASCII lower-case letter becomes its capital, any
    other ASCII byte stays; a byte of 128 and above is not valid UTF-8 on
    its own and comes back as the three bytes of U+FFFD. *)
Definition ToUpper_byte (c : ascii) : string :=
  let n := nat_of_ascii c in
  if (97 <=? n)%nat && (n <=? 122)%nat then String (ascii_of_nat (n - 32)) ""
  else if (n <? 128)%nat then String c ""
  else String "239" (String "191" (String "189" "")).

Definition UpperCamelCase (s : string) : string :=
  match s with
  | EmptyString => ""
  | String c rest => ToUpper_byte c +:+ rest
  end.

(** The column an EventBuffer field goes to (1429-1436, 1445-1452,
    1462-1468, 1484-1490). *)
Definition eventbuffer_field (eventType raw : string) : string :=
  let field := UpperCamelCase raw in
  let field := if bool_decide (field = "Timestamp")
               then "EventBufferTime_" +:+ eventType else field in
  if bool_decide (field = "Hostname") then "DNSHostname" else field.

(** The column a StateAgentInspector detail goes to (1764-1767). *)
Definition stateagent_field (raw : string) : string :=
  let field_name := UpperCamelCase raw in
  if bool_decide (field_name = "Hostname") then "DNSHostname" else field_name.


(** ** What the stores keep true *)

(** The column id is the id of exactly one name of the table. *)
Definition named_once (headers : gmap string Z) (colID : Z) : Prop :=
  ∃ name, headers !! name = Some colID
          ∧ ∀ name', headers !! name' = Some colID → name' = name.

Definition normal_inv (st : NormalStore) : Prop :=
  consecutive_ids (n_headers st)
  ∧ ∀ r, r ∈ n_row st :: n_rows st →
      ∀ colID, is_Some (r !! colID) → named_once (n_headers st) colID.

Definition event_row_ok (headers : gmap string Z) (r : list RowValue) : Prop :=
  NoDup (colid <$> r) ∧ ∀ rv, rv ∈ r → named_once headers (colid rv).

Definition event_inv (st : EventStore) : Prop :=
  length (allHeaders st) = size (eventTypes st)
  ∧ length (tables st) = size (eventTypes st)
  ∧ (∀ i h, allHeaders st !! i = Some h →
       consecutive_ids h ∧ h !! "Hostname" = Some 0 ∧ h !! "AgentID" = Some 1)
  ∧ (∀ i h t, allHeaders st !! i = Some h → tables st !! i = Some t →
       ∀ r, r ∈ t → event_row_ok h r)
  ∧ (e_row st = [] ∨
     ∃ h, 0 ≤ eventTypeID st
          ∧ allHeaders st !! Z.to_nat (eventTypeID st) = Some h
          ∧ event_row_ok h (e_row st)).

(** The tables of an event store only grow, each as [grows_from] says. *)
Definition event_grows (old new : EventStore) : Prop :=
  ∀ i h, allHeaders old !! i = Some h →
    ∃ h', allHeaders new !! i = Some h' ∧ grows_from h h'.

(** Two settings of the options used in examples. *)
Definition plain_options : Options :=
  {| Config := no_config; ReplaceNewLineFeeds := false; ForceReparse := false;
     ExcelFriendly := false; WipeOutput := false |}.

Definition flat_options : Options :=
  {| Config := no_config; ReplaceNewLineFeeds := true; ForceReparse := false;
     ExcelFriendly := false; WipeOutput := false |}.

(** ** Excel-friendly truncation (auditparser.go, 1168-1177 and 1971-1980) *)

(** [if len(cell) > 32000 { cell = cell[0:32000] + "..." }] *)
Definition truncate_cell (cell : string) : option string :=
  if 32000 <? len cell
  then head ← slice cell 0 32000; Some (head +:+ "...")
  else Some cell.

(** [for j := 0; j < len(csvRows[0]); j++]: [n] columns are still to be
    visited, [j] is the next one; [csvRows[i][j]] panics when the row has
    no column [j]. *)
Fixpoint truncate_columns (n j : nat) (row : list string) : option (list string) :=
  match n with
  | O => Some row
  | S n' =>
      cell ← row !! j;
      cell' ← truncate_cell cell;
      truncate_columns n' (S j) (<[j := cell']> row)
  end.

(** [for i := 0; i < len(csvRows); i++] *)
Fixpoint truncate_rows (width : nat) (csvRows : list (list string))
  : option (list (list string)) :=
  match csvRows with
  | [] => Some []
  | row :: rest =>
      row' ← truncate_columns width 0 row;
      rest' ← truncate_rows width rest;
      Some (row' :: rest')
  end.

Definition excel_truncate (options : Options) (csvRows : list (list string))
  : option (list (list string)) :=
  if ExcelFriendly options then
    match csvRows with
    | [] => Some []
    | first :: _ => truncate_rows (length first) csvRows
    end
  else Some csvRows.

(** The cell the specification asks for. *)
Definition truncated (cell : string) : string :=
  if 32000 <? len cell
  then String.substring 0 (Z.to_nat 32000) cell +:+ "..."
  else cell.

Definition truncated_table (csvRows : list (list string)) : list (list string) :=
  (λ row : list string, truncated <$> row) <$> csvRows.

(** A string of [n] copies of a byte. *)
Fixpoint repeat_byte (n : nat) (c : ascii) : string :=
  match n with
  | O => EmptyString
  | S n' => String c (repeat_byte n' c)
  end.

Definition excel_options : Options :=
  {| Config := no_config; ReplaceNewLineFeeds := false; ForceReparse := false;
     ExcelFriendly := true; WipeOutput := false |}.
(** ** The [strings] functions of the probe

    Bytes are ASCII here: [strings.TrimSpace] is modelled on the six ASCII
    white-space bytes and [strings.ToLower] on the letters A-Z; what Go
    does to the multi-byte Unicode spaces and capitals is not modelled. *)

Definition is_space (c : ascii) : bool :=
  let n := nat_of_ascii c in
  (n =? 9)%nat || (n =? 10)%nat || (n =? 11)%nat || (n =? 12)%nat
  || (n =? 13)%nat || (n =? 32)%nat.

Fixpoint TrimLeft (s : string) : string :=
  match s with
  | EmptyString => EmptyString
  | String c rest => if is_space c then TrimLeft rest else s
  end.

(** The string without its trailing white space. *)
Fixpoint TrimRight (s : string) : string :=
  match s with
  | EmptyString => EmptyString
  | String c rest =>
      match TrimRight rest with
      | EmptyString => if is_space c then EmptyString else String c EmptyString
      | kept => String c kept
      end
  end.

Definition TrimSpace (s : string) : string := TrimRight (TrimLeft s).

Definition lower_byte (c : ascii) : ascii :=
  let n := nat_of_ascii c in
  if (65 <=? n)%nat && (n <=? 90)%nat then ascii_of_nat (n + 32) else c.

Fixpoint ToLower (s : string) : string :=
  match s with
  | EmptyString => EmptyString
  | String c rest => String (lower_byte c) (ToLower rest)
  end.

(** [strings.HasPrefix(s, prefix)] *)
Definition HasPrefix (s prefix : string) : bool := String.prefix prefix s.

(** [strings.Contains(s, substr)] *)
Fixpoint Contains (s substr : string) : bool :=
  String.prefix substr s
  || match s with
     | EmptyString => false
     | String _ rest => Contains rest substr
     end.

(** [strings.HasSuffix(s, suffix)] *)
Definition HasSuffix (s suffix : string) : bool :=
  String.prefix (String.rev suffix) (String.rev s).

(** ** The dialect probe (auditparser.go, 506-555) *)

Definition AUDIT_NORMAL : Z := 1.
Definition AUDIT_EVENTBUFFER : Z := 2.
Definition AUDIT_STATEAGENTINSPECTOR : Z := 3.

(** How the probe ends: one of the three early returns of the loop, or
    the loop's exit with the style found so far ([0] when none was). *)
Inductive ProbeEnd :=
| Unexpected1stLine (line : string)
| IssuesFile
| Unexpected2ndLine (line : string)
| LoopDone (auditXMLStyle : Z).

Record Probe := {
  probe_end : ProbeEnd;
  row_count : Z;          (* the lines [scanner.Scan] has handed out *)
  itemListLine : string   (* the last line looked at *)
}.

Definition generator_eventbuffer : string :=
  "generator=" +:+ String "034" "eventbuffer" +:+ String "034" "".
Definition generator_stateagentinspector : string :=
  "generator=" +:+ String "034" "stateagentinspector" +:+ String "034" "".

(** The [for scanner.Scan()] loop; [lines] are the lines the scanner has
    still to hand out. *)
Fixpoint probe_loop (lines : list string) (row_count : Z)
    (itemListLine : string) (auditXMLStyle : Z) : Probe :=
  match lines with
  | [] => {| probe_end := LoopDone auditXMLStyle; row_count := row_count;
             itemListLine := itemListLine |}
  | text :: rest =>
      let row_count := row_count + 1 in
      let itemListLine := TrimSpace text in
      if (row_count =? 1) && negb (HasPrefix itemListLine "<?xml") then
        {| probe_end := Unexpected1stLine itemListLine;
           row_count := row_count; itemListLine := itemListLine |}
      else if row_count =? 2 then
        let itemListLine := ToLower itemListLine in
        if HasPrefix itemListLine "<issuelist" then
          {| probe_end := IssuesFile; row_count := row_count;
             itemListLine := itemListLine |}
        else if negb (HasPrefix itemListLine "<itemlist") then
          {| probe_end := Unexpected2ndLine itemListLine;
             row_count := row_count; itemListLine := itemListLine |}
        else
          let auditXMLStyle := AUDIT_NORMAL in
          let auditXMLStyle :=
            if Contains itemListLine generator_eventbuffer
            then AUDIT_EVENTBUFFER else auditXMLStyle in
          let auditXMLStyle :=
            if Contains itemListLine generator_stateagentinspector
            then AUDIT_STATEAGENTINSPECTOR else auditXMLStyle in
          if 3 <=? row_count then
            {| probe_end := LoopDone auditXMLStyle; row_count := row_count;
               itemListLine := itemListLine |}
          else probe_loop rest row_count itemListLine auditXMLStyle
      else if 3 <=? row_count then
        {| probe_end := LoopDone auditXMLStyle; row_count := row_count;
           itemListLine := itemListLine |}
      else probe_loop rest row_count itemListLine auditXMLStyle
  end.

Definition probe (lines : list string) : Probe := probe_loop lines 0 "" 0.

(** What the worker makes of the probe (552-555): the classification. *)
Inductive Dialect :=
| Normal | EventBuffer | StateAgentInspector
| Issues
| BadFirstLine (line : string)
| BadSecondLine (line : string)
| UnexpectedSchema.

Definition classify (p : Probe) : Dialect :=
  match probe_end p with
  | Unexpected1stLine line => BadFirstLine line
  | IssuesFile => Issues
  | Unexpected2ndLine line => BadSecondLine line
  | LoopDone auditXMLStyle =>
      if auditXMLStyle =? 0 then UnexpectedSchema
      else if auditXMLStyle =? AUDIT_EVENTBUFFER then EventBuffer
      else if auditXMLStyle =? AUDIT_STATEAGENTINSPECTOR then StateAgentInspector
      else Normal
  end.

(** The classification in the words of the specification, from the first
    two lines alone. *)
Definition classify_two_lines (line1 line2 : string) : Dialect :=
  let line1 := TrimSpace line1 in
  if negb (HasPrefix line1 "<?xml") then BadFirstLine line1
  else
    let line2 := ToLower (TrimSpace line2) in
    if HasPrefix line2 "<issuelist" then Issues
    else if negb (HasPrefix line2 "<itemlist") then BadSecondLine line2
    else if Contains line2 generator_stateagentinspector then StateAgentInspector
    else if Contains line2 generator_eventbuffer then EventBuffer
    else Normal.

Definition xml_declaration : string :=
  "<?xml version=" +:+ String "034" "1.0" +:+ String "034" "?>".
(** ** The column assembler (auditparser.go, 1037-1109 and 1863-1937) *)

(** ["Get audit-specific config if it exists"]: the first entry whose item
    name is the audit type, letter case aside. *)
Fixpoint find_config (configs : list AuditHeaderConfig) (auditType : string)
  : option AuditHeaderConfig :=
  match configs with
  | [] => None
  | c :: rest =>
      if bool_decide (ToLower (ItemName c) = ToLower auditType) then Some c
      else find_config rest auditType
  end.

(** The comparison handed to [sort.Slice]:
    [strings.ToLower(a) < strings.ToLower(b)], byte-wise. *)
Definition less_fold (a b : string) : bool :=
  String.ltb (ToLower a) (ToLower b).

(** The insertion sort of package [sort] ([insertionSort_func]), which is
    all [sort.Slice] runs on a slice of at most 12 elements: element [i]
    is swapped leftwards while it is less than its left neighbour.
    [insert_left x done] works on the sorted part read from its right end. *)
Fixpoint insert_left (x : string) (rev_sorted : list string) : list string :=
  match rev_sorted with
  | [] => [x]
  | y :: rest =>
      if less_fold x y then y :: insert_left x rest else x :: y :: rest
  end.

Definition insertion_sort (l : list string) : list string :=
  reverse (foldl (λ rev_sorted x, insert_left x rev_sorted) [] l).

(** What [sort.Slice] promises for any input: a rearrangement in which no
    element is less than one before it.  It does not promise stability. *)
Definition sorts_by_fold (sort_slice : list string → list string) : Prop :=
  ∀ l, Permutation (sort_slice l) l
       ∧ StronglySorted (λ a b, less_fold b a = false) (sort_slice l).

(** The inner loop of ["Remove specified headers"]

    [for i, h2 := range remainingHeaders] fixes the slice it ranges over
    when it starts: [n] elements over the array [backing].  A hit at [i]
    sets [remainingHeaders = append(remainingHeaders[0:i],
    remainingHeaders[i+1:len(remainingHeaders)]...)], which moves the tail
    one place to the left inside the same array and shortens the slice to
    [cur - 1] elements; the slice expression panics when [i+1] is beyond
    the present length [cur].  [todo] counts the iterations left. *)
Fixpoint omit_pass (h : string) (todo i : nat) (backing : list string)
    (cur : nat) : option (list string * nat) :=
  match todo with
  | O => Some (backing, cur)
  | S todo' =>
      h2 ← backing !! i;
      if bool_decide (h2 = h) then
        if bool_decide (i + 1 ≤ cur)%nat then
          let tail := take (cur - (i + 1)) (drop (i + 1) backing) in
          let backing' :=
            take i backing ++ tail ++ drop (i + length tail) backing in
          omit_pass h todo' (S i) backing' (i + length tail)
        else None
      else omit_pass h todo' (S i) backing cur
  end.

Definition omit_header (h : string) (remainingHeaders : list string)
  : option (list string) :=
  '(backing, cur) ← omit_pass h (length remainingHeaders) 0 remainingHeaders
                      (length remainingHeaders);
  Some (take cur backing).

Fixpoint omit_headers (omitted : list string) (remainingHeaders : list string)
  : option (list string) :=
  match omitted with
  | [] => Some remainingHeaders
  | h :: rest =>
      remainingHeaders ← omit_header h remainingHeaders;
      omit_headers rest remainingHeaders
  end.

(** ["Add remaining headers if allowed"]: [keys] is the order in which
    [for h, _ := range headers] hands out the names of the map, which Go
    leaves unspecified. *)
Definition remaining_headers (keys csvHeaders : list string) : list string :=
  filter (λ h, h ∉ csvHeaders) keys.

(** The dialects differ in the optional headers (1875-1881): the event
    tables also take ["EventBufferType"], found or not. *)
Definition optional_headers (event : bool) (headers : gmap string Z)
    (optional : list string) : list string :=
  filter (λ h, is_Some (headers !! h) ∨ (event = true ∧ h = "EventBufferType"))
    optional.

(** The final column list.  [auditType] is the audit type of a Normal
    file and ["EventItem_" + eventType] for an event table. *)
Definition csv_headers (event : bool) (config : Main_Config_JSON)
    (auditType : string) (headers : gmap string Z) (keys : list string)
    (sort_slice : list string → list string) : option (list string) :=
  (* Add mandatory headers *)
  let csvHeaders := HeadersMandatory config in
  (* Add optional headers if they exist *)
  let csvHeaders :=
    csvHeaders ++ optional_headers event headers (HeadersOptional config) in
  (* Get audit-specific config if it exists *)
  let found := find_config (AuditHeaderConfigs config) auditType in
  (* Add audit-specific header order *)
  let csvHeaders :=
    match found with
    | Some c => csvHeaders ++ HeaderOrder c
    | None => csvHeaders
    end in
  (* Add remaining headers if allowed *)
  if negb (OmitUnlisted config) then
    let remainingHeaders := remaining_headers keys csvHeaders in
    (* Case insensitive sort *)
    let remainingHeaders := sort_slice remainingHeaders in
    (* Remove specified headers *)
    remainingHeaders ←
      match found with
      | Some c => omit_headers (HeadersOmitted c) remainingHeaders
      | None => Some remainingHeaders
      end;
    Some (csvHeaders ++ remainingHeaders)
  else Some csvHeaders.

(** [keys] is an order in which the names of the table can come. *)
Definition iteration_of (headers : gmap string Z) (keys : list string) : Prop :=
  NoDup keys ∧ ∀ h, h ∈ keys ↔ is_Some (headers !! h).

(** The column list in the words of the specification: mandatory columns,
    optional columns that were discovered, the explicit order of the
    matching entry, and [unlisted], the remaining discovered columns. *)
Definition listed_columns (config : Main_Config_JSON) (auditType : string)
    (headers : gmap string Z) : list string :=
  HeadersMandatory config
  ++ filter (λ h, is_Some (headers !! h)) (HeadersOptional config)
  ++ match find_config (AuditHeaderConfigs config) auditType with
     | Some c => HeaderOrder c
     | None => []
     end.

Definition omitted_columns (config : Main_Config_JSON) (auditType : string)
  : list string :=
  match find_config (AuditHeaderConfigs config) auditType with
  | Some c => HeadersOmitted c
  | None => []
  end.
(** The shipped defaults of the column lists (timeliner.go, 1450-1463). *)
Definition default_config : Main_Config_JSON :=
  {| OmitUnlisted := false;
     HeadersMandatory := ["Tag"; "Notes"; "Hostname"; "AgentID"];
     HeadersOptional :=
       ["Audit UID"; "UID"; "Sequence Number"; "FireEyeGeneratedTime";
        "EventBufferType"];
     AuditHeaderConfigs := [] |}.

(** A table with two columns that differ in letter case only. *)
Definition case_twins : gmap string Z := <["Path" := 1]> (<["path" := 0]> ∅).

(** The columns placed before the remaining ones, as the code builds
    them, and the remaining ones after the sort and the omit loop. *)
Definition placed_columns (event : bool) (config : Main_Config_JSON)
    (auditType : string) (headers : gmap string Z) : list string :=
  (HeadersMandatory config
   ++ optional_headers event headers (HeadersOptional config))
  ++ match find_config (AuditHeaderConfigs config) auditType with
     | Some c => HeaderOrder c
     | None => []
     end.

Definition unlisted_columns (config : Main_Config_JSON) (auditType : string)
    (placed keys : list string) (sort_slice : list string → list string)
  : list string :=
  filter (λ h, h ∉ omitted_columns config auditType)
    (sort_slice (remaining_headers keys placed)).

(** No two discovered names differ in letter case only. *)
Definition case_distinct (headers : gmap string Z) : Prop :=
  ∀ a b, is_Some (headers !! a) → is_Some (headers !! b) →
         ToLower a = ToLower b → a = b.
(** ** The parse cache (timeliner.go, 2251-2378) *)

(** What the code reads of an [os.FileInfo]: [Name()] and [Size()]. *)
Record FileInfo := { Name : string; Size : Z }.

Record Parse_Config_XMLFile := {
  InputFileName : string;
  InputFileSize : Z;
  Status : string
}.

Module Archive.
Record Parse_Config_ArchiveFile := {
  InputFileName : string;
  InputFileSize : Z;
  Status : string
}.
End Archive.

Record Parse_Config_OutputDirectory := {
  OutputDirectory : string;
  XMLFiles : list Parse_Config_XMLFile;
  ArchiveFiles : list Archive.Parse_Config_ArchiveFile
}.

Record Parse_Config_JSON := {
  Version : string;
  OutputDirectories : list Parse_Config_OutputDirectory
}.

(** [filepath.Base] with ["/"] as the separator: trailing separators are
    stripped, the last element is kept, an empty path is ["."] and a path
    of separators only is ["/"]. *)
Definition is_separator (c : ascii) : bool := Ascii.eqb c "/".

Fixpoint strip_separators (path : string) : string :=
  match path with
  | EmptyString => EmptyString
  | String c rest =>
      match strip_separators rest with
      | EmptyString =>
          if is_separator c then EmptyString else String c EmptyString
      | kept => String c kept
      end
  end.

Fixpoint has_separator (path : string) : bool :=
  match path with
  | EmptyString => false
  | String c rest => is_separator c || has_separator rest
  end.

Fixpoint last_element (path : string) : string :=
  match path with
  | EmptyString => EmptyString
  | String c rest =>
      if is_separator c || has_separator rest then last_element rest
      else path
  end.

Definition Base (path : string) : string :=
  match path with
  | EmptyString => "."
  | _ =>
      match last_element (strip_separators path) with
      | EmptyString => "/"
      | name => name
      end
  end.

(** [config.OutputDirectories[dirIndex]]: an index expression, which
    panics ([None]) out of range. *)
Definition directory_at (config : Parse_Config_JSON) (dirIndex : Z)
  : option Parse_Config_OutputDirectory :=
  if dirIndex <? 0 then None
  else OutputDirectories config !! Z.to_nat dirIndex.

(** The assignment [config.OutputDirectories[dirIndex].XMLFiles = xmlFiles]. *)
Definition set_XMLFiles (config : Parse_Config_JSON) (dirIndex : Z)
    (xmlFiles : list Parse_Config_XMLFile) : Parse_Config_JSON :=
  {| Version := Version config;
     OutputDirectories :=
       alter (λ dir, {| OutputDirectory := OutputDirectory dir;
                        XMLFiles := xmlFiles;
                        ArchiveFiles := ArchiveFiles dir |})
         (Z.to_nat dirIndex) (OutputDirectories config) |}.

Definition set_Status (status : string) (xmlFile : Parse_Config_XMLFile)
  : Parse_Config_XMLFile :=
  {| InputFileName := InputFileName xmlFile;
     InputFileSize := InputFileSize xmlFile;
     Status := status |}.

Definition same_file (filename : string) (filesize : Z)
    (xmlFile : Parse_Config_XMLFile) : bool :=
  bool_decide (InputFileSize xmlFile = filesize)
  && bool_decide (InputFileName xmlFile = filename).

(** [for i, xmlFile := range ...XMLFiles] up to the first entry of the
    same size and name: its index, counted from [i]. *)
Fixpoint find_xmlfile (filename : string) (filesize : Z)
    (xmlFiles : list Parse_Config_XMLFile) (i : nat) : option nat :=
  match xmlFiles with
  | [] => None
  | xmlFile :: rest =>
      if same_file filename filesize xmlFile then Some i
      else find_xmlfile filename filesize rest (S i)
  end.

(** The entry appended for a file the cache does not know, and the
    file list with the entry's status set afterwards. *)
Definition new_entry (filename : string) (filesize : Z) : Parse_Config_XMLFile :=
  {| InputFileName := filename; InputFileSize := filesize; Status := EmptyString |}.

Definition InputConfig_GetXMLParseConfig (xmlfile : FileInfo) (dirIndex : Z)
    (config : Parse_Config_JSON)
  : option (Parse_Config_JSON * Parse_Config_XMLFile) :=
  let filename := Base (Name xmlfile) in
  let filesize := Size xmlfile in
  dir ← directory_at config dirIndex;
  match find_xmlfile filename filesize (XMLFiles dir) 0 with
  | Some i => xmlFile ← XMLFiles dir !! i; Some (config, xmlFile)
  | None =>
      let xmlFiles := XMLFiles dir ++ [new_entry filename filesize] in
      let xmlFileIndex := (length xmlFiles - 1)%nat in
      let xmlFiles :=
        alter (set_Status "failed/notattemptedyet") xmlFileIndex xmlFiles in
      xmlFile ← xmlFiles !! xmlFileIndex;
      Some (set_XMLFiles config dirIndex xmlFiles, xmlFile)
  end.

Definition InputConfig_GetXMLParseFileStatus (xmlfile : FileInfo) (dirIndex : Z)
    (config : Parse_Config_JSON) : option (Parse_Config_JSON * string) :=
  let filename := Base (Name xmlfile) in
  let filesize := Size xmlfile in
  dir ← directory_at config dirIndex;
  match find_xmlfile filename filesize (XMLFiles dir) 0 with
  | Some i => xmlFile ← XMLFiles dir !! i; Some (config, Status xmlFile)
  | None =>
      let xmlFiles := XMLFiles dir ++ [new_entry filename filesize] in
      let xmlFileIndex := (length xmlFiles - 1)%nat in
      let xmlFiles :=
        alter (set_Status "failed/notattemptedyet") xmlFileIndex xmlFiles in
      Some (set_XMLFiles config dirIndex xmlFiles, "failed/notattemptedyet")
  end.

(** [InputConfig_GetOutDirIndex]: the index of the first directory of
    that path, appended when there is none. *)
Fixpoint find_directory (path : string)
    (dirs : list Parse_Config_OutputDirectory) (i : nat) : option nat :=
  match dirs with
  | [] => None
  | outdir :: rest =>
      if bool_decide (OutputDirectory outdir = path) then Some i
      else find_directory path rest (S i)
  end.

Definition InputConfig_GetOutDirIndex (path : string)
    (config : Parse_Config_JSON) : Parse_Config_JSON * Z :=
  match find_directory path (OutputDirectories config) 0 with
  | Some i => (config, Z.of_nat i)
  | None =>
      let config :=
        {| Version := Version config;
           OutputDirectories :=
             OutputDirectories config
             ++ [{| OutputDirectory := path; XMLFiles := [];
                    ArchiveFiles := [] |}] |} in
      (config, Z.of_nat (length (OutputDirectories config)) - 1)
  end.
(** [ParseConfigUpdateXMLParse]: the status kept for a worker's message.
    The tests are not exclusive: the last one that holds decides. *)
Definition status_of_message (msg : string) : string :=
  let status := msg in
  let status := if Contains msg "already exists" then "parsed" else status in
  let status := if Contains msg "parsed successfully" then "parsed" else status in
  let status := if Contains msg "Issues file" then "ignored/issues" else status in
  let status := if Contains msg "is empty" then "ignored/empty" else status in
  let status := if Contains msg "not rename" then "failed/rename" else status in
  let status := if Contains msg "not parse file" then "failed/error" else status in
  let status := if Contains msg "does not exist" then "failed/notexist" else status in
  let status := if Contains msg "File was split" then "split" else status in
  status.

Definition ParseConfigUpdateXMLParse (dirIndex : Z) (xmlfile : FileInfo)
    (msg : string) (extra : bool) (config : Parse_Config_JSON)
  : option Parse_Config_JSON :=
  let filename := Base (Name xmlfile) in
  let filesize := Size xmlfile in
  dir ← directory_at config dirIndex;
  let '(xmlFiles, xmlFileIndex) :=
    match find_xmlfile filename filesize (XMLFiles dir) 0 with
    | Some i => (XMLFiles dir, i)
    | None =>
        let xmlFiles := XMLFiles dir ++ [new_entry filename filesize] in
        (xmlFiles, (length xmlFiles - 1)%nat)
    end in
  let status := status_of_message msg in
  _ ← xmlFiles !! xmlFileIndex;
  Some (set_XMLFiles config dirIndex
          (alter (set_Status status) xmlFileIndex xmlFiles)).

(** The addon hooks as this repository ships them (timeliner.go,
    2466-2475). *)
Definition ExtraFunc5 (options : Options) (fileconfig : Parse_Config_XMLFile)
  : bool := false.
Definition ExtraFunc6 (options : Options) : bool := false.

(** ** The work list and the statistics (auditparser.go, 204-237, 378-411) *)

(** Go's [int] counters: 64 bits, two's complement. *)
Definition wrap64 (z : Z) : Z := (z + 2 ^ 63) mod 2 ^ 64 - 2 ^ 63.

Record Counts := {
  c_Success : Z; c_Failed : Z; c_Cached : Z; c_Issues : Z; c_Empty : Z
}.

Definition no_counts : Counts :=
  {| c_Success := 0; c_Failed := 0; c_Cached := 0; c_Issues := 0;
     c_Empty := 0 |}.

Definition incr_Success (c : Counts) : Counts :=
  {| c_Success := wrap64 (c_Success c + 1); c_Failed := c_Failed c;
     c_Cached := c_Cached c; c_Issues := c_Issues c; c_Empty := c_Empty c |}.
Definition incr_Failed (c : Counts) : Counts :=
  {| c_Success := c_Success c; c_Failed := wrap64 (c_Failed c + 1);
     c_Cached := c_Cached c; c_Issues := c_Issues c; c_Empty := c_Empty c |}.
Definition incr_Cached (c : Counts) : Counts :=
  {| c_Success := c_Success c; c_Failed := c_Failed c;
     c_Cached := wrap64 (c_Cached c + 1); c_Issues := c_Issues c;
     c_Empty := c_Empty c |}.
Definition incr_Issues (c : Counts) : Counts :=
  {| c_Success := c_Success c; c_Failed := c_Failed c;
     c_Cached := c_Cached c; c_Issues := wrap64 (c_Issues c + 1);
     c_Empty := c_Empty c |}.
Definition incr_Empty (c : Counts) : Counts :=
  {| c_Success := c_Success c; c_Failed := c_Failed c;
     c_Cached := c_Cached c; c_Issues := c_Issues c;
     c_Empty := wrap64 (c_Empty c + 1) |}.

(** ["Remove non xml files and previously parsed files"].  [kept] is
    [files[:i]] and [rest] is [files[i:]]; removing [files[i]] leaves [i]
    where it is. *)
Fixpoint remove_parsed (options : Options) (configOutDirIndex : Z)
    (kept rest : list FileInfo) (config : Parse_Config_JSON) (c : Counts)
  : option (list FileInfo * Parse_Config_JSON * Counts) :=
  match rest with
  | [] => Some (kept, config, c)
  | file :: rest =>
      if ForceReparse options || WipeOutput options then
        remove_parsed options configOutDirIndex (kept ++ [file]) rest config c
      else if HasSuffix (Name file) ".json" then
        remove_parsed options configOutDirIndex kept rest config c
      else
        '(config, fileconfig) ←
          InputConfig_GetXMLParseConfig file configOutDirIndex config;
        if ExtraFunc5 options fileconfig then
          remove_parsed options configOutDirIndex (kept ++ [file]) rest config c
        else if bool_decide (Status fileconfig = "parsed") then
          remove_parsed options configOutDirIndex kept rest config (incr_Cached c)
        else if bool_decide (Status fileconfig = "split") then
          remove_parsed options configOutDirIndex kept rest config (incr_Cached c)
        else if bool_decide (Status fileconfig = "ignored/issues") then
          remove_parsed options configOutDirIndex kept rest config (incr_Issues c)
        else if bool_decide (Status fileconfig = "ignored/empty") then
          remove_parsed options configOutDirIndex kept rest config (incr_Empty c)
        else
          remove_parsed options configOutDirIndex (kept ++ [file]) rest config c
  end.

(** The loop over [threadMessages] after the workers are done: the first
    test that holds decides.  The second component is what is printed,
    [verbose] being [options.Verbose]. *)
Definition count_message (verbose : Z) (msg : string)
    (acc : Counts * list string) : Counts * list string :=
  let '(c, printed) := acc in
  let shown := if 0 <? verbose then printed ++ [msg] else printed in
  if Contains msg "parsed successfully" then (incr_Success c, shown)
  else if Contains msg "Could not rename" then (incr_Failed c, printed ++ [msg])
  else if Contains msg "Could not parse file" then
    (incr_Failed c, printed ++ [msg])
  else if Contains msg "already exists" then (incr_Cached c, shown)
  else if Contains msg "Issues file" then (incr_Issues c, shown)
  else if Contains msg "is empty" then (incr_Empty c, printed ++ [msg])
  else if Contains msg "does not exist" then (incr_Failed c, printed ++ [msg])
  else (c, shown).

Definition count_messages (verbose : Z) (threadMessages : list string)
    (c : Counts) : Counts * list string :=
  foldl (λ acc msg, count_message verbose msg acc) (c, []) threadMessages.
(** ** What a worker reports for a file without rows *)

Record ThreadReturn_Parse := {
  threadnum : Z;
  xmlfile : string;
  xmlsize : Z;
  message : string
}.

(** [options.Warnbox] as the option parser sets it (timeliner.go, 1157). *)
Definition Warnbox : string := "[!] ".

Definition empty_message (warnbox xmlFileName : string) : string :=
  warnbox ++ "WARNING - File '" ++ xmlFileName ++ "' is empty.".

(** [if len(rows) == 0] of the Normal path (auditparser.go, 1029-1035).
    [disk] holds the paths that exist: [os.Remove] takes the temporary
    file away, and the worker returns before anything is renamed to the
    final name.  [None] as the report means the worker goes on. *)
Definition rows_check (warnbox : string) (disk : gset string) (threadNum : Z)
    (xmlFileName : string) (xmlFileSize : Z) (csvFilePathTemp : string)
    (rows : list (gmap Z string)) : gset string * option ThreadReturn_Parse :=
  if bool_decide (length rows = 0%nat) then
    (disk ∖ {[csvFilePathTemp]},
     Some {| threadnum := threadNum; xmlfile := xmlFileName;
             xmlsize := xmlFileSize;
             message := empty_message warnbox xmlFileName |})
  else (disk, None).

(** [if len(tables) == 0] of the event path (auditparser.go, 1852-1856),
    which has created no file by then. *)
Definition tables_check (warnbox : string) (threadNum : Z)
    (xmlFileName : string) (xmlFileSize : Z)
    (tables : list (list (list RowValue))) : option ThreadReturn_Parse :=
  if bool_decide (length tables = 0%nat) then
    Some {| threadnum := threadNum; xmlfile := xmlFileName;
            xmlsize := xmlFileSize;
            message := empty_message warnbox xmlFileName |}
  else None.

(** [if row_count != 3] of the Normal path (auditparser.go, 563-568): a
    file the probe could not read three lines of. *)
Definition lines_check (warnbox : string) (threadNum : Z)
    (xmlFileName : string) (xmlFileSize : Z) (row_count : Z)
  : option ThreadReturn_Parse :=
  if bool_decide (row_count ≠ 3) then
    Some {| threadnum := threadNum; xmlfile := xmlFileName;
            xmlsize := xmlFileSize;
            message := empty_message warnbox xmlFileName |}
  else None.

(** The byte [q] occurs in [s]. *)
Fixpoint has_byte (q : ascii) (s : string) : bool :=
  match s with
  | EmptyString => false
  | String c rest => Ascii.eqb c q || has_byte q rest
  end.

(** The phrases the two classifications look for apart from "is empty". *)
Definition status_phrases : list string :=
  ["not rename"; "not parse file"; "does not exist"; "File was split"].

Definition count_phrases : list string :=
  ["parsed successfully"; "Could not rename"; "Could not parse file";
   "already exists"; "Issues file"].

Definition free_of (phrases : list string) (xmlFileName : string) : Prop :=
  Forall (λ phrase, Contains xmlFileName phrase = false) phrases.

(** One directory with one cache entry, and a file of the name and size. *)
Definition cache_of (entries : list Parse_Config_XMLFile) : Parse_Config_JSON :=
  {| Version := "1";
     OutputDirectories :=
       [{| OutputDirectory := "out"; XMLFiles := entries;
           ArchiveFiles := [] |}] |}.

(** The first entry of the name and size, as a value. *)
Fixpoint first_entry (filename : string) (filesize : Z)
    (xmlFiles : list Parse_Config_XMLFile) : option Parse_Config_XMLFile :=
  match xmlFiles with
  | [] => None
  | xmlFile :: rest =>
      if same_file filename filesize xmlFile then Some xmlFile
      else first_entry filename filesize rest
  end.

Definition unattempted (filename : string) (filesize : Z)
  : Parse_Config_XMLFile :=
  set_Status "failed/notattemptedyet" (new_entry filename filesize).

(** The status the cache answers for a file. *)
Definition recorded_status (config : Parse_Config_JSON) (dirIndex : Z)
    (file : FileInfo) : string :=
  match InputConfig_GetXMLParseFileStatus file dirIndex config with
  | Some (_, status) => status
  | None => EmptyString
  end.

(** The files the work list keeps, and those each counter takes, when
    neither force-reparse nor wipe-output is set. *)
Definition is_json (file : FileInfo) : bool := HasSuffix (Name file) ".json".

Definition counted_as (statuses : list string) (config : Parse_Config_JSON)
    (dirIndex : Z) (file : FileInfo) : Prop :=
  is_json file = false ∧ recorded_status config dirIndex file ∈ statuses.

Definition stays (config : Parse_Config_JSON) (dirIndex : Z)
    (file : FileInfo) : Prop :=
  is_json file = false
  ∧ recorded_status config dirIndex file
    ∉ ["parsed"; "split"; "ignored/issues"; "ignored/empty"].

#[global] Instance counted_as_dec statuses config dirIndex file :
  Decision (counted_as statuses config dirIndex file).
Proof. unfold counted_as. apply _. Defined.

#[global] Instance stays_dec config dirIndex file :
  Decision (stays config dirIndex file).
Proof. unfold stays. apply _. Defined.

(** A counter after [n] increments. *)
Definition add_count (c : Z) (n : nat) : Z :=
  Nat.iter n (λ z, wrap64 (z + 1)) c.

(** The counters after the work list was gone through. *)
Definition counted (c : Counts) (config : Parse_Config_JSON) (dirIndex : Z)
    (files : list FileInfo) : Counts :=
  {| c_Success := c_Success c;
     c_Failed := c_Failed c;
     c_Cached :=
       add_count (c_Cached c)
         (length (filter (counted_as ["parsed"; "split"] config dirIndex) files));
     c_Issues :=
       add_count (c_Issues c)
         (length (filter (counted_as ["ignored/issues"] config dirIndex) files));
     c_Empty :=
       add_count (c_Empty c)
         (length (filter (counted_as ["ignored/empty"] config dirIndex) files)) |}.

(** An audit file without items whose name holds one of the phrases, and a
    cached file with the suffix of the cache itself. *)
Definition misnamed_file : FileInfo :=
  {| Name := "Could not rename.xml"; Size := 120 |}.

Definition json_file : FileInfo := {| Name := "audit.json"; Size := 120 |}.

Definition json_entry : Parse_Config_XMLFile :=
  {| InputFileName := "audit.json"; InputFileSize := 120; Status := "parsed" |}.
(** ** Rendering the rows (auditparser.go, 1111-1135 and 1938-1968) *)

(** One cell of a Normal row: [csvRow] comes zeroed from [make], so a
    column without a value stays empty. *)
Definition csv_cell (hostname agentid : string) (headers : gmap string Z)
    (row : gmap Z string) (header : string) : string :=
  if bool_decide (header = "Hostname") then hostname
  else if bool_decide (header = "AgentID") then agentid
  else match headers !! header with
       | None => EmptyString
       | Some colID =>
           match row !! colID with
           | Some written => written
           | None => EmptyString
           end
       end.

Definition create_rows (hostname agentid : string) (headers : gmap string Z)
    (csvHeaders : list string) (rows : list (gmap Z string))
  : list (list string) :=
  (λ row, csv_cell hostname agentid headers row <$> csvHeaders) <$> rows.

(** [for _, rowvalue := range rows[j]] up to the [break]: the value of
    the first entry with the column id. *)
Fixpoint first_value (colID : Z) (row : list RowValue) : string :=
  match row with
  | [] => EmptyString
  | rowvalue :: rest =>
      if colid rowvalue =? colID then value rowvalue
      else first_value colID rest
  end.

Definition event_csv_cell (eventType hostname agentid : string)
    (headers : gmap string Z) (row : list RowValue) (header : string)
  : string :=
  if bool_decide (header = "EventBufferType") then eventType
  else if bool_decide (header = "Hostname") then hostname
  else if bool_decide (header = "AgentID") then agentid
  else match headers !! header with
       | None => EmptyString
       | Some colID => first_value colID row
       end.

(** The event tables carry their header line as the first row. *)
Definition create_event_rows (eventType hostname agentid : string)
    (headers : gmap string Z) (csvHeaders : list string)
    (rows : list (list RowValue)) : list (list string) :=
  csvHeaders
  :: ((λ row, event_csv_cell eventType hostname agentid headers row
                <$> csvHeaders) <$> rows).

(** No byte of the string is a carriage return or a line feed. *)
Definition one_line (s : string) : Prop :=
  has_byte "013" s = false ∧ has_byte "010" s = false.

(** The text [add_value_to_row_normal] writes behind what a cell holds. *)
Definition written_text (options : Options) (existingGetsNewLine : bool)
    (value : string) : string :=
  (if existingGetsNewLine then join_separator options else EmptyString)
  +:+ stored_value options value.
(** ** The other messages a worker ends with *)

(** [options.Box], which the option parser sets to one of two texts
    (timeliner.go, 1156-1160). *)
Definition Box (minimizedOutput : bool) : string :=
  if minimizedOutput then "[#] " else "[+] ".

(** auditparser.go, 2057 *)
Definition success_message (box xmlFileName : string) : string :=
  box ++ "NOTICE - File '" ++ xmlFileName ++ "' parsed successfully.".

(** auditparser.go, 532 and 770 *)
Definition issues_message (warnbox xmlFileName : string) : string :=
  warnbox ++ "NOTICE - Issues file '" ++ xmlFileName ++ "' ignored.".

(** auditparser.go, 833 *)
Definition exists_message (box xmlFileName : string) : string :=
  box ++ "NOTICE - Parsed audit for file '" ++ xmlFileName
  ++ "' already exists. Use '-f' flag to force reparse.".

(** Every phrase one of the two classifications looks for. *)
Definition all_phrases : list string :=
  ["already exists"; "parsed successfully"; "Issues file"; "is empty";
   "not rename"; "not parse file"; "does not exist"; "File was split";
   "Could not rename"; "Could not parse file"].
(** ** The audit type and the parts of the file name (auditparser.go,
    569-625) *)

Definition is_tag_end (c : ascii) : bool := Ascii.eqb c " " || Ascii.eqb c ">".

(** One attempt of [([^ >]+)[ >]]: the run of bytes other than a space
    and ['>'] up to the first of these two; the attempt fails ([None])
    when the line ends first.  The run is greedy, and the byte behind it
    has to be one the run cannot take, so no shorter run is an option. *)
Fixpoint tag_run (s : string) : option string :=
  match s with
  | EmptyString => None
  | String c rest =>
      if is_tag_end c then Some EmptyString
      else run ← tag_run rest; Some (String c run)
  end.

(** [regexp.MustCompile(`<([^ >]+)[ >]`).FindStringSubmatch(line)[1]]:
    the leftmost ['<'] with a non-empty run behind it. *)
Fixpoint FindAuditType (line : string) : option string :=
  match line with
  | EmptyString => None
  | String c rest =>
      if Ascii.eqb c "<" then
        match tag_run rest with
        | Some (String a run) => Some (String a run)
        | _ => FindAuditType rest
        end
      else FindAuditType rest
  end.

(** Lines 569-575: the audit type, or the message of the error. *)
Definition audit_type (warnbox xmlFileName itemListLine : string)
  : string + string :=
  match FindAuditType itemListLine with
  | Some auditType => inl auditType
  | None =>
      inr (warnbox +:+ "ERROR - Could not parse file '" +:+ xmlFileName
           +:+ "'. Could not identify audit type from line: '"
           +:+ itemListLine)
  end.

(** [strings.TrimSuffix] and [strings.TrimPrefix] *)
Definition TrimSuffix (s suffix : string) : string :=
  if HasSuffix s suffix
  then String.substring 0 (String.length s - String.length suffix) s
  else s.

Definition TrimPrefix (s prefix : string) : string :=
  if HasPrefix s prefix
  then String.substring (String.length prefix)
         (String.length s - String.length prefix) s
  else s.

(** [strings.Split(s, sep)] for a separator of one byte: the pieces
    between the separators, one more than there are separators. *)
Fixpoint Split (s : string) (sep : ascii) : list string :=
  match s with
  | EmptyString => [EmptyString]
  | String c rest =>
      if Ascii.eqb c sep then EmptyString :: Split rest sep
      else match Split rest sep with
           | piece :: pieces => String c piece :: pieces
           | [] => [String c EmptyString]
           end
  end.

(** [payload[strings.Index(payload, substr):]], when [substr] occurs. *)
Fixpoint from_first (s substr : string) : option string :=
  if String.prefix substr s then Some s
  else match s with
       | EmptyString => None
       | String _ rest => from_first rest substr
       end.

Definition is_alnum (c : ascii) : bool :=
  let n := nat_of_ascii c in
  ((48 <=? n) && (n <=? 57) || (65 <=? n) && (n <=? 90)
   || (97 <=? n) && (n <=? 122))%nat.

(** [n] bytes of [[A-Za-z0-9]] at the start of [s]: the bytes and what
    follows them. *)
Fixpoint alnum_run (n : nat) (s : string) : option (string * string) :=
  match n with
  | O => Some (EmptyString, s)
  | S n' =>
      match s with
      | EmptyString => None
      | String c rest =>
          if is_alnum c then
            '(run, behind) ← alnum_run n' rest; Some (String c run, behind)
          else None
      end
  end.

(** [.+] up to the end of the line: [.] takes no line feed. *)
Fixpoint to_line_end (s : string) : string :=
  match s with
  | EmptyString => EmptyString
  | String c rest =>
      if Ascii.eqb c "010" then EmptyString else String c (to_line_end rest)
  end.

(** [regexp.MustCompile(`([A-Za-z0-9]{22})_(.+)`).FindStringSubmatch]:
    the two groups of the leftmost match. *)
Fixpoint FindAgentAndHost (s : string) : option (string * string) :=
  let here :=
    '(agent, behind) ← alnum_run 22 s;
    match behind with
    | String c host =>
        if Ascii.eqb c "_" then
          match to_line_end host with
          | EmptyString => None
          | host => Some (agent, host)
          end
        else None
    | EmptyString => None
    end in
  match here with
  | Some groups => Some groups
  | None =>
      match s with
      | EmptyString => None
      | String _ rest => FindAgentAndHost rest
      end
  end.

(** Lines 578-624: host name, agent id and payload of the output file.
    [parts[len(parts)-3]] and the slice [parts[0:len(parts)-3]] are in
    range on the branch that takes them, four parts at least. *)
Definition name_parts (xmlFileName inputPath parseAltHostname
    parseAltAgentID : string) (parseCSVFormat : Z)
  : option (string * string * string) :=
  let basefilename := TrimSuffix xmlFileName ".xml" in
  let parts := Split basefilename "-" in
  (* For non-standarized naming schemes *)
  if Contains basefilename ".urn_uuid_" || (length parts <? 4)%nat then
    let hostname := "HOSTNAMEPLACEHOLDER" in
    let agentid := "AGENTIDPLACEHOLDER0000" in
    let '(hostname, agentid) :=
      match FindAgentAndHost (Base inputPath) with
      | Some (agent, host) => (host, agent)
      | None => (hostname, agentid)
      end in
    let hostname :=
      if (0 <? String.length parseAltHostname)%nat then parseAltHostname
      else hostname in
    let agentid :=
      if (0 <? String.length parseAltAgentID)%nat then parseAltAgentID
      else agentid in
    let payload :=
      if Contains basefilename "_spxml" then
        TrimSuffix
          (TrimPrefix basefilename
             "HOSTNAMEPLACEHOLDER-AGENTIDPLACEHOLDER0000-")
          "-UNCONFIRMED"
      else Replace basefilename "-" "_" in
    Some (hostname, agentid, payload)
  (* For standardized naming scheme *)
  else
    let hostname := Join (take (length parts - 3) parts) "-" in
    agentid ← parts !! (length parts - 3)%nat;
    payload ← parts !! (length parts - 2)%nat;
    let hostname :=
      if (0 <? String.length parseAltHostname)%nat then parseAltHostname
      else hostname in
    let agentid :=
      if (0 <? String.length parseAltAgentID)%nat then parseAltAgentID
      else agentid in
    let payload :=
      if parseCSVFormat =? 2 then
        match from_first payload "_spxml" with
        | Some found => "0" +:+ found
        | None => "0"
        end
      else payload in
    Some (hostname, agentid, payload).

(** Every byte of the string passes the test. *)
Fixpoint all_bytes (test : ascii → bool) (s : string) : bool :=
  match s with
  | EmptyString => true
  | String c rest => test c && all_bytes test rest
  end.

Definition only_bytes (test : ascii → bool) (s : string) : Prop :=
  all_bytes test s = true.
(** ** The fix of the log audits (auditparser.go, 1137-1166) *)

From Stdlib Require Import DecimalString.

(** [strconv.Itoa] *)
Definition Itoa (i : Z) : string := NilZero.string_of_int (Z.to_int i).

(** [strings.Replace(s, old, new, 1)]: the first occurrence only. *)
Fixpoint Replace1 (s old new : string) : string :=
  if String.prefix old s then
    new +:+ String.substring (String.length old)
              (String.length s - String.length old) s
  else match s with
       | EmptyString => EmptyString
       | String c rest => String c (Replace1 rest old new)
       end.

(** The loop over the header list: the last column of each of the two
    names, [-1] when there is none. *)
Fixpoint log_columns (csvHeaders : list string) (i col_index_arg
    col_index_msg : Z) : Z * Z :=
  match csvHeaders with
  | [] => (col_index_arg, col_index_msg)
  | header :: rest =>
      if bool_decide (header = "args.arg") then
        log_columns rest (i + 1) i col_index_msg
      else if bool_decide (header = "msg") then
        log_columns rest (i + 1) col_index_arg i
      else log_columns rest (i + 1) col_index_arg col_index_msg
  end.

(** [for j := 0; j < len(args); j++]: argument [j] goes where the
    message has its first ["^" + Itoa(j+1)]. *)
Fixpoint fill_args (msg : string) (args : list string) (j : Z) : string :=
  match args with
  | [] => msg
  | arg :: rest =>
      fill_args (Replace1 msg ("^" +:+ Itoa (j + 1)) (TrimSuffix arg CR))
        rest (j + 1)
  end.

(** The separator the arguments are split at. *)
Definition log_separator (options : Options) : ascii :=
  if ReplaceNewLineFeeds options then "|"%char else "010"%char.

(** [for i := 0; i < len(csvRows); i++]: each row gets the filled message
    as one more cell; [csvRows[i][col]] panics on a row without that
    column. *)
Fixpoint add_msg_full (options : Options) (col_index_arg col_index_msg : nat)
    (csvRows : list (list string)) : option (list (list string)) :=
  match csvRows with
  | [] => Some []
  | row :: rest =>
      cell ← row !! col_index_arg;
      let args := Split cell (log_separator options) in
      msg ← row !! col_index_msg;
      let msg := fill_args msg args 0 in
      rest ← add_msg_full options col_index_arg col_index_msg rest;
      Some ((row ++ [msg]) :: rest)
  end.

Definition log_fix (options : Options) (auditType : string)
    (csvHeaders : list string) (csvRows : list (list string))
  : option (list string * list (list string)) :=
  if bool_decide (ToLower auditType = "log") then
    let '(col_index_arg, col_index_msg) :=
      log_columns csvHeaders 0 (-1) (-1) in
    (* If we found both expected headers, continue *)
    if negb (col_index_arg =? -1) && negb (col_index_msg =? -1) then
      csvRows ← add_msg_full options (Z.to_nat col_index_arg)
                  (Z.to_nat col_index_msg) csvRows;
      Some (csvHeaders ++ ["msg_full"], csvRows)
    else Some (csvHeaders, csvRows)
  else Some (csvHeaders, csvRows).
(** * Lemmas and theorems *)

(** ** Bounds: reads and slices inside the string do not panic *)

Lemma get_in_range (s : string) (n : nat) :
  (n < String.length s)%nat → is_Some (String.get n s).
Proof.
  revert n. induction s as [|a s IH]; intros n Hn; simpl in *; [lia|].
  destruct n as [|n]; [by eexists|]. apply IH. lia.
Qed.

Lemma byte_at_in_range (s : string) (i : Z) :
  0 ≤ i < len s → byte_at s i = String.get (Z.to_nat i) s ∧ is_Some (byte_at s i).
Proof.
  intros Hi. unfold byte_at.
  destruct (Z.leb_spec 0 i); [|lia]. destruct (Z.ltb_spec i (len s)); [|lia].
  simpl. split; [done|]. apply get_in_range. unfold len in *. lia.
Qed.

Lemma byte_is_in_range (s : string) (i : Z) (c : ascii) :
  0 ≤ i < len s → byte_is s i c = Some (sep_at s (Z.to_nat i) c).
Proof.
  intros Hi. unfold byte_is, sep_at.
  destruct (byte_at_in_range s i Hi) as [-> [x ->]]. done.
Qed.

Lemma slice_in_range (s : string) (lo hi : Z) :
  0 ≤ lo ≤ hi ∧ hi ≤ len s →
  slice s lo hi = Some (String.substring (Z.to_nat lo) (Z.to_nat (hi - lo)) s).
Proof.
  intros Hi. unfold slice.
  destruct (Z.leb_spec 0 lo); [|lia]. destruct (Z.leb_spec lo hi); [|lia].
  destruct (Z.leb_spec hi (len s)); [done|lia].
Qed.

Lemma and_then_Some (a b : bool) : Some a &&& Some b = Some (a && b).
Proof. by destruct a. Qed.

Lemma and_then_false (b : option bool) : Some false &&& b = Some false.
Proof. done. Qed.

Lemma len_test (s : string) (a b : Z) :
  (len s =? a) || (len s =? b) = true ↔ len s = a ∨ len s = b.
Proof. rewrite orb_true_iff, !Z.eqb_eq. done. Qed.

(** The guard of the first [if] is the fractional shape, and evaluating
    it reads no byte outside the string. *)
Lemma fractional_guard (s : string) :
  Some ((len s =? 23) || (len s =? 24))
    &&& byte_is s 4 "-" &&& byte_is s 7 "-"
    &&& byte_is s 13 ":" &&& byte_is s 16 ":" &&& byte_is s 19 "."
  = Some (is_fractional_stamp s).
Proof.
  unfold is_fractional_stamp.
  destruct ((len s =? 23) || (len s =? 24)) eqn:L; [|done].
  apply len_test in L.
  rewrite !byte_is_in_range by lia. by rewrite !and_then_Some.
Qed.

Lemma seconds_guard (s : string) :
  Some ((len s =? 19) || (len s =? 20))
    &&& byte_is s 4 "-" &&& byte_is s 7 "-"
    &&& byte_is s 13 ":" &&& byte_is s 16 ":"
  = Some (is_seconds_stamp s).
Proof.
  unfold is_seconds_stamp.
  destruct ((len s =? 19) || (len s =? 20)) eqn:L; [|done].
  apply len_test in L.
  rewrite !byte_is_in_range by lia. by rewrite !and_then_Some.
Qed.

Lemma fractional_len (s : string) :
  is_fractional_stamp s = true → len s = 23 ∨ len s = 24.
Proof.
  unfold is_fractional_stamp. rewrite !andb_true_iff, len_test. tauto.
Qed.

Lemma seconds_len (s : string) :
  is_seconds_stamp s = true → len s = 19 ∨ len s = 20.
Proof.
  unfold is_seconds_stamp. rewrite !andb_true_iff, len_test. tauto.
Qed.

(** [parse_time] as a total function of its argument. *)
Lemma parse_time_eq (s : string) :
  parse_time s =
  Some (if is_fractional_stamp s
        then String.substring 0 10 s +:+ " " +:+ String.substring 11 12 s
        else if is_seconds_stamp s
        then String.substring 0 10 s +:+ " " +:+ String.substring 11 8 s
        else s).
Proof.
  unfold parse_time. cbv zeta. rewrite fractional_guard, seconds_guard.
  destruct (is_fractional_stamp s) eqn:F.
  - apply fractional_len in F.
    rewrite (slice_in_range s 0 10), (slice_in_range s 11 23) by lia. done.
  - destruct (is_seconds_stamp s) eqn:S; [|done].
    apply seconds_len in S.
    rewrite (slice_in_range s 0 10), (slice_in_range s 11 19) by lia. done.
Qed.

Lemma parse_time_value_eq (s : string) : parse_time s = Some (parse_time_value s).
Proof. unfold parse_time_value. by rewrite parse_time_eq. Qed.

(** A string of known length is a known number of bytes. *)
Ltac explode s H :=
  repeat match type of H with
         | String.length _ = S _ =>
             destruct s as [|? s]; [discriminate H|];
             simpl in H; apply Nat.succ_inj in H
         | String.length _ = O =>
             destruct s; [clear H|discriminate H]
         end.

(** With the bytes of [s] known, the output is computed and compared
    offset by offset. *)
Tactic Notation "by_offset" int_or_var(n) :=
  unfold rewritten;
  match goal with
  | |- context [?a +:+ " " +:+ ?b] =>
      let o := eval vm_compute in (a +:+ " " +:+ b) in
      change (a +:+ " " +:+ b) with o
  end;
  split; [reflexivity|]; split; [reflexivity|];
  let i := fresh "i" in
  let Hi := fresh "Hi" in
  let Hne := fresh "Hne" in
  intros i Hi Hne;
  do n (destruct i as [|i];
        [first [reflexivity | exfalso; apply Hne; reflexivity]|]);
  exfalso; clear Hne; cbn in Hi; lia.

Lemma rewritten_fractional (s : string) :
  len s = 23 ∨ len s = 24 →
  rewritten s 23 (String.substring 0 10 s +:+ " " +:+ String.substring 11 12 s).
Proof.
  unfold len. intros [L|L].
  - assert (String.length s = 23%nat) as L' by lia. clear L. explode s L'.
    by_offset 23.
  - assert (String.length s = 24%nat) as L' by lia. clear L. explode s L'.
    by_offset 23.
Qed.

Lemma rewritten_seconds (s : string) :
  len s = 19 ∨ len s = 20 →
  rewritten s 19 (String.substring 0 10 s +:+ " " +:+ String.substring 11 8 s).
Proof.
  unfold len. intros [L|L].
  - assert (String.length s = 19%nat) as L' by lia. clear L. explode s L'.
    by_offset 19.
  - assert (String.length s = 20%nat) as L' by lia. clear L. explode s L'.
    by_offset 19.
Qed.

Example parse_time_frac :
  parse_time "2019-12-19T11:11:45.299Z" = Some "2019-12-19 11:11:45.299".
Proof. reflexivity. Qed.

Example parse_time_sec :
  parse_time "2019-12-19T11:11:45Z" = Some "2019-12-19 11:11:45".
Proof. reflexivity. Qed.

Example parse_time_other : parse_time "hello" = Some "hello".
Proof. reflexivity. Qed.

Example parse_time_empty : parse_time "" = Some "".
Proof. reflexivity. Qed.

(** The shapes are positional: a string that is no timestamp but has the
    separators in place is rewritten all the same. *)
Example parse_time_positional :
  parse_time "abcd-ef-ghXij:kl:mn" = Some "abcd-ef-gh ij:kl:mn".
Proof. reflexivity. Qed.


(** C9. [parse_time] returns for every string: each byte it reads
    (offsets 4, 7, 13, 16, 19) and each slice it takes lies inside the
    string, because the length test to the left of the reads has already
    failed when the string is too short. *)
Theorem parse_time_total (timevalue : string) :
  is_Some (parse_time timevalue) ∧
  (¬ (len timevalue = 23 ∨ len timevalue = 24 ∨
      len timevalue = 19 ∨ len timevalue = 20) →
   parse_time timevalue = Some timevalue).
Proof.
  rewrite parse_time_eq. split; [by eexists|].
  intros L.
  destruct (is_fractional_stamp timevalue) eqn:F.
  { apply fractional_len in F. lia. }
  destruct (is_seconds_stamp timevalue) eqn:S; [|done].
  apply seconds_len in S. lia.
Qed.

(** ** The row accumulators *)

(** The table after a column name has been looked up or added. *)
Lemma consecutive_ids_empty : consecutive_ids ∅.
Proof.
  split.
  - intros id. rewrite map_size_empty. split; [|lia].
    intros [name H]. by rewrite lookup_empty in H.
  - intros n1 n2 id H. by rewrite lookup_empty in H.
Qed.

Lemma consecutive_ids_insert (headers : gmap string Z) (name : string) :
  consecutive_ids headers → headers !! name = None →
  consecutive_ids (<[name := Z.of_nat (size headers)]> headers).
Proof.
  intros [Hrange Hinj] Hnew. split.
  - intros id. rewrite map_size_insert_None by done. split.
    + intros [n Hn]. destruct (decide (name = n)) as [->|Hne].
      * rewrite lookup_insert_eq in Hn. injection Hn as <-. lia.
      * rewrite lookup_insert_ne in Hn by done.
        assert (0 ≤ id < Z.of_nat (size headers)) by (apply Hrange; eauto). lia.
    + intros Hid. destruct (decide (id = Z.of_nat (size headers))) as [->|Hne].
      * exists name. by rewrite lookup_insert_eq.
      * destruct (proj2 (Hrange id)) as [n Hn]; [lia|].
        exists n. rewrite lookup_insert_ne; [done|]. intros ->. congruence.
  - intros n1 n2 id H1 H2.
    destruct (decide (n1 = name)) as [E1|Hne1];
      destruct (decide (n2 = name)) as [E2|Hne2]; [congruence| | |].
    + subst n1. rewrite lookup_insert_eq in H1. injection H1 as <-.
      rewrite lookup_insert_ne in H2 by done.
      assert (0 ≤ Z.of_nat (size headers) < Z.of_nat (size headers))
        by (apply Hrange; eauto). lia.
    + subst n2. rewrite lookup_insert_eq in H2. injection H2 as <-.
      rewrite lookup_insert_ne in H1 by done.
      assert (0 ≤ Z.of_nat (size headers) < Z.of_nat (size headers))
        by (apply Hrange; eauto). lia.
    + rewrite lookup_insert_ne in H1, H2 by done. eauto.
Qed.

Lemma grows_from_refl (headers : gmap string Z) : grows_from headers headers.
Proof. split; [done|]. intros name id H1 H2. congruence. Qed.

Lemma grows_from_insert (headers : gmap string Z) (name : string) :
  headers !! name = None →
  grows_from headers (<[name := Z.of_nat (size headers)]> headers).
Proof.
  intros Hnew. split.
  - intros n id Hn. rewrite lookup_insert_ne; [done|]. intros ->. congruence.
  - intros n id Hn Hn'. destruct (decide (name = n)) as [->|Hne].
    + rewrite lookup_insert_eq in Hn'. by injection Hn' as <-.
    + rewrite lookup_insert_ne in Hn' by done. congruence.
Qed.

Lemma size_grows (headers : gmap string Z) (name : string) :
  headers !! name = None →
  Z.of_nat (size (<[name := Z.of_nat (size headers)]> headers))
  = Z.of_nat (size headers) + 1.
Proof. intros H. rewrite map_size_insert_None by done. lia. Qed.

(** [add_value_to_row_normal] in one equation. *)
Lemma add_value_to_row_normal_eq header value parts headers row options nl :
  add_value_to_row_normal header value parts headers row options nl true =
  let name := dot_path parts header in
  let text := stored_value options value in
  let colID := default (Z.of_nat (size headers)) (headers !! name) in
  (match headers !! name with
   | Some _ => headers
   | None => <[name := Z.of_nat (size headers)]> headers
   end,
   match row !! colID with
   | Some written =>
       <[colID := written +:+ (if nl then join_separator options else "") +:+ text]> row
   | None => <[colID := text]> row
   end).
Proof.
  unfold add_value_to_row_normal, dot_path, stored_value, join_separator.
  cbn [negb]. cbv zeta.
  destruct (headers !! _) as [colID|]; cbn [from_option id];
    destruct (row !! _) as [written|]; try done;
    destruct nl, (ReplaceNewLineFeeds options); done.
Qed.

Lemma add_value_to_row_normal_skip header value parts headers row options nl :
  add_value_to_row_normal header value parts headers row options nl false
  = (headers, row).
Proof. done. Qed.

(** The loop over an event row. *)
Lemma append_to_first_found colID sep text row :
  (append_to_first colID sep text row).2 = true ↔
  ∃ rv, rv ∈ row ∧ colid rv = colID.
Proof.
  induction row as [|rv row IH]; simpl.
  - split; [done|]. intros [rv [H _]]. by apply elem_of_nil in H.
  - destruct (Z.eqb_spec (colid rv) colID) as [E|E]; simpl.
    + split; [|done]. intros _. exists rv. split; [left|done].
    + destruct (append_to_first colID sep text row) as [rest found] eqn:A.
      simpl in *. rewrite IH. split.
      * intros [rv' [H1 H2]]. exists rv'. split; [by right|done].
      * intros [rv' [H1 H2]]. apply elem_of_cons in H1 as [->|H1]; [done|eauto].
Qed.

Lemma append_to_first_length colID sep text row :
  length (append_to_first colID sep text row).1 = length row.
Proof.
  induction row as [|rv row IH]; simpl; [done|].
  destruct (colid rv =? colID); simpl; [done|].
  destruct (append_to_first colID sep text row) as [rest found].
  simpl in *. f_equal. exact IH.
Qed.

Lemma append_to_first_colids colID sep text row :
  colid <$> (append_to_first colID sep text row).1 = colid <$> row.
Proof.
  induction row as [|rv row IH]; simpl; [done|].
  destruct (colid rv =? colID); simpl; [done|].
  destruct (append_to_first colID sep text row) as [rest found].
  simpl in *. f_equal. exact IH.
Qed.

(** When the column has one cell in the row, that cell is the one that
    grows, and it stays the only one. *)
Lemma append_to_first_cell colID sep text row written :
  cells_of colID row = [written] →
  cells_of colID (append_to_first colID sep text row).1
  = [written +:+ (sep +:+ text)].
Proof.
  unfold cells_of. induction row as [|rv row IH]; simpl; [done|].
  destruct (Z.eqb_spec (colid rv) colID) as [E|E]; simpl.
  - rewrite !filter_cons_True by done. simpl. intros [= -> H]. by rewrite H.
  - rewrite filter_cons_False by done. intros H.
    destruct (append_to_first colID sep text row) as [rest found].
    simpl in *. rewrite filter_cons_False by done. auto.
Qed.

Lemma append_to_first_others colID sep text row other :
  other ≠ colID →
  cells_of other (append_to_first colID sep text row).1 = cells_of other row.
Proof.
  unfold cells_of. intros Hne. induction row as [|rv row IH]; simpl; [done|].
  destruct (Z.eqb_spec (colid rv) colID) as [E|E]; simpl.
  - rewrite !filter_cons_False; [done| |]; simpl; congruence.
  - destruct (append_to_first colID sep text row) as [rest found]. simpl in *.
    destruct (decide (colid rv = other)).
    + rewrite !filter_cons_True by done. simpl. f_equal. exact IH.
    + rewrite !filter_cons_False by done. exact IH.
Qed.

(** [add_value_to_row_eventbuffer] in one equation. *)
Lemma add_value_to_row_eventbuffer_eq header value headers row options nl :
  add_value_to_row_eventbuffer header value headers row options nl =
  let text := stored_value options value in
  let colID := default (Z.of_nat (size headers)) (headers !! header) in
  let sep := if nl then join_separator options else "" in
  (match headers !! header with
   | Some _ => headers
   | None => <[header := Z.of_nat (size headers)]> headers
   end,
   if (append_to_first colID sep text row).2
   then (append_to_first colID sep text row).1
   else row ++ [{| colid := colID; value := text |}]).
Proof.
  unfold add_value_to_row_eventbuffer, stored_value, join_separator. cbv zeta.
  destruct (headers !! header) as [colID|]; cbn [from_option id];
    destruct nl, (ReplaceNewLineFeeds options);
    match goal with
    | |- context [append_to_first ?c ?s ?t ?r] =>
        destruct (append_to_first c s t r) as [row' found]
    end; by destruct found.
Qed.
(** ** The join policy *)

Lemma cells_of_found colID row written sep text :
  cells_of colID row = [written] →
  (append_to_first colID sep text row).2 = true.
Proof.
  intros H. apply append_to_first_found.
  unfold cells_of in H.
  destruct (filter (λ rv, colid rv = colID) row) as [|rv l] eqn:F; [done|].
  assert (rv ∈ filter (λ rv, colid rv = colID) row) as Hin by (rewrite F; left).
  apply list_elem_of_filter in Hin as [? ?]. eauto.
Qed.

(** A field met twice in an empty row, whatever the table knows: one
    cell, the two values joined. *)
Lemma same_field_twice (headers : gmap string Z) (options : Options) :
  let '(headers1, row1) :=
    add_value_to_row_normal "F" "a" [] headers ∅ options true true in
  let '(headers2, row2) :=
    add_value_to_row_normal "F" "b" [] headers1 row1 options true true in
  ∃ colID, headers2 !! "F" = Some colID
           ∧ row2 = {[ colID := "a" +:+ join_separator options +:+ "b" ]}.
Proof.
  rewrite add_value_to_row_normal_eq. cbv zeta.
  assert (stored_value options "a" = "a") as Ea
    by (destruct options as [? [] ? ? ?]; vm_compute; reflexivity).
  assert (stored_value options "b" = "b") as Eb
    by (destruct options as [? [] ? ? ?]; vm_compute; reflexivity).
  rewrite Ea, lookup_empty. change (dot_path [] "F") with "F".
  rewrite add_value_to_row_normal_eq. cbv zeta.
  rewrite Eb. change (dot_path [] "F") with "F".
  destruct (headers !! "F") as [colID|] eqn:H; cbn [from_option id].
  - rewrite H. cbn [from_option id]. rewrite lookup_insert_eq.
    exists colID. split; [done|]. by rewrite insert_insert_eq, insert_empty.
  - rewrite !lookup_insert_eq. cbn [from_option id]. rewrite ?lookup_insert_eq.
    eexists. split; [reflexivity|].
    by rewrite insert_insert_eq, insert_empty.
Qed.

Example scenario_default :
  (add_value_to_row_normal "A" "2" [] {[ "A" := 0 ]} {[ 0 := "1" ]}
     plain_options true true).2 !! 0 = Some ("1" +:+ CRLF +:+ "2").
Proof. rewrite add_value_to_row_normal_eq. cbv zeta. by simplify_map_eq. Qed.

Example scenario_flat :
  (add_value_to_row_normal "A" "2" [] {[ "A" := 0 ]} {[ 0 := "1" ]}
     flat_options true true).2 !! 0 = Some "1|2".
Proof. rewrite add_value_to_row_normal_eq. cbv zeta. by simplify_map_eq. Qed.



(** ** Header tables: ids are assigned once, in order of discovery *)

Lemma named_once_intro (headers : gmap string Z) (name : string) (id : Z) :
  consecutive_ids headers → headers !! name = Some id → named_once headers id.
Proof.
  intros [_ Hinj] H. exists name. split; [done|].
  intros name' H'. eauto.
Qed.

Lemma named_once_grows (old new : gmap string Z) (id : Z) :
  consecutive_ids new → grows_from old new →
  named_once old id → named_once new id.
Proof.
  intros Hc [Hkeep _] [name [H _]]. eapply named_once_intro; eauto.
Qed.

Lemma grows_from_trans (a b c : gmap string Z) :
  consecutive_ids a → grows_from a b → grows_from b c →
  (∀ name id, a !! name = Some id → c !! name = Some id).
Proof. intros _ [Hab _] [Hbc _] name id H. eauto. Qed.

(** Looking a column up, adding it when it is new. *)
Lemma lookup_or_add (headers : gmap string Z) (name : string) :
  consecutive_ids headers →
  let headers' := match headers !! name with
                  | Some _ => headers
                  | None => <[name := Z.of_nat (size headers)]> headers
                  end in
  consecutive_ids headers' ∧ grows_from headers headers'
  ∧ headers' !! name
    = Some (default (Z.of_nat (size headers)) (headers !! name)).
Proof.
  intros Hc. destruct (headers !! name) as [id|] eqn:H; cbn.
  - split; [done|]. split; [apply grows_from_refl|done].
  - split; [by apply consecutive_ids_insert|].
    split; [by apply grows_from_insert|]. apply lookup_insert_eq.
Qed.

Lemma normal_inv_init : normal_inv normal_init.
Proof.
  split; [apply consecutive_ids_empty|].
  intros r Hr colID [v Hv]. apply list_elem_of_singleton in Hr as ->.
  cbn in Hv. by rewrite lookup_empty in Hv.
Qed.

Lemma normal_step_keeps (st st' : NormalStore) :
  normal_inv st → normal_step st st' →
  normal_inv st' ∧ grows_from (n_headers st) (n_headers st').
Proof.
  intros [Hc Hrows] Hstep. destruct Hstep as [st|header value parts options nl incl st].
  - split; [|apply grows_from_refl]. split; [done|]. cbn.
    intros r Hr colID Hv. apply elem_of_cons in Hr as [->|Hr].
    { destruct Hv as [v Hv]. by rewrite lookup_empty in Hv. }
    apply (Hrows r); [|done]. case_bool_decide; [|by right].
    apply elem_of_app in Hr as [Hr|Hr]; [by right|].
    apply list_elem_of_singleton in Hr as ->. left.
  - unfold normal_add. destruct incl.
    2:{ rewrite add_value_to_row_normal_skip. destruct st. cbn.
        split; [by split|apply grows_from_refl]. }
    rewrite add_value_to_row_normal_eq. cbv zeta. cbn [n_headers n_rows n_row].
    destruct (lookup_or_add (n_headers st) (dot_path parts header) Hc)
      as (Hc' & Hg & Hname).
    split; [|done]. split; [done|].
    intros r Hr colID Hv. apply elem_of_cons in Hr as [->|Hr].
    + set (c := default (Z.of_nat (size (n_headers st)))
                  (n_headers st !! dot_path parts header)) in *.
      destruct (decide (colID = c)) as [->|Hne].
      { by eapply named_once_intro. }
      eapply named_once_grows; [done..|].
      apply (Hrows (n_row st)); [left|].
      destruct (n_row st !! c); cbn [n_row] in Hv;
        by rewrite lookup_insert_ne in Hv.
    + eapply named_once_grows; [done..|]. apply (Hrows r); [by right|done].
Qed.

Lemma normal_reachable_inv (st : NormalStore) :
  normal_reachable st → normal_inv st.
Proof.
  induction 1 as [|st st' _ IH Hstep]; [apply normal_inv_init|].
  by apply (normal_step_keeps st st').
Qed.
(** ** The per-event-type tables *)

Lemma seeded_headers_ok :
  consecutive_ids seeded_headers
  ∧ seeded_headers !! "Hostname" = Some 0
  ∧ seeded_headers !! "AgentID" = Some 1
  ∧ size seeded_headers = 2%nat.
Proof.
  unfold seeded_headers.
  assert (consecutive_ids (<["Hostname" := 0]> (∅ : gmap string Z))) as H1.
  { pose proof (consecutive_ids_insert ∅ "Hostname" consecutive_ids_empty) as H.
    rewrite map_size_empty in H. apply H. apply lookup_empty. }
  assert (size (<["Hostname" := 0]> (∅ : gmap string Z)) = 1%nat) as S1.
  { rewrite map_size_insert_None by apply lookup_empty.
    by rewrite map_size_empty. }
  assert ((<["Hostname" := 0]> (∅ : gmap string Z)) !! "AgentID" = None) as N.
  { rewrite lookup_insert_ne by done. apply lookup_empty. }
  split; [|split; [|split]].
  - pose proof (consecutive_ids_insert _ "AgentID" H1 N) as H.
    by rewrite S1 in H.
  - rewrite lookup_insert_ne by done. apply lookup_insert_eq.
  - apply lookup_insert_eq.
  - rewrite map_size_insert_None by done. by rewrite S1.
Qed.

Lemma event_row_ok_grows (old new : gmap string Z) (r : list RowValue) :
  consecutive_ids new → grows_from old new →
  event_row_ok old r → event_row_ok new r.
Proof.
  intros Hc Hg [Hnd Hn]. split; [done|].
  intros rv Hrv. eapply named_once_grows; eauto.
Qed.

Lemma append_to_first_not_found colID sep text row :
  (append_to_first colID sep text row).2 = false → colID ∉ colid <$> row.
Proof.
  intros Hf Hin. apply list_elem_of_fmap in Hin as [rv [-> Hrv]].
  assert ((append_to_first (colid rv) sep text row).2 = true) as Ht.
  { apply append_to_first_found. eauto. }
  congruence.
Qed.

Lemma append_to_first_elem colID sep text row rv :
  rv ∈ (append_to_first colID sep text row).1 → colid rv ∈ colid <$> row.
Proof.
  intros H. rewrite <- (append_to_first_colids colID sep text row).
  apply list_elem_of_fmap. eauto.
Qed.

(** One call of the accumulator on a well-formed table and row. *)
Lemma add_value_to_row_eventbuffer_keeps field value headers row options nl :
  consecutive_ids headers →
  (row = [] ∨ event_row_ok headers row) →
  let '(headers', row') :=
    add_value_to_row_eventbuffer field value headers row options nl in
  consecutive_ids headers' ∧ grows_from headers headers'
  ∧ event_row_ok headers' row'.
Proof.
  intros Hc Hrow. rewrite add_value_to_row_eventbuffer_eq. cbv zeta.
  destruct (lookup_or_add headers field Hc) as (Hc' & Hg & Hname).
  set (headers' := match headers !! field with
                   | Some _ => headers
                   | None => <[field := Z.of_nat (size headers)]> headers
                   end) in *.
  set (c := default (Z.of_nat (size headers)) (headers !! field)) in *.
  assert (event_row_ok headers' row) as [Hnd Hn].
  { destruct Hrow as [->|Hrow]; [|by eapply event_row_ok_grows].
    split; [constructor|]. intros rv Hrv. by apply elem_of_nil in Hrv. }
  split; [done|]. split; [done|].
  match goal with
  | |- context [append_to_first ?a ?b ?d ?e] =>
      destruct (append_to_first a b d e) as [row' found] eqn:A
  end.
  cbn [fst snd]. destruct found.
  - split.
    + replace row' with (append_to_first c
        (if nl then join_separator options else "")
        (stored_value options value) row).1 by (by rewrite A).
      by rewrite append_to_first_colids.
    + intros rv Hrv.
      assert (colid rv ∈ colid <$> row) as Hin.
      { eapply append_to_first_elem. by rewrite A. }
      apply list_elem_of_fmap in Hin as [rv' [-> Hrv']]. eauto.
  - assert (c ∉ colid <$> row) as Hnew.
    { eapply append_to_first_not_found. by rewrite A. }
    split.
    + rewrite fmap_app. apply NoDup_app. split; [done|].
      split; [|apply NoDup_singleton].
      intros x Hx Hx'. apply list_elem_of_singleton in Hx'. by subst.
    + intros rv Hrv. apply elem_of_app in Hrv as [Hrv|Hrv]; [eauto|].
      apply list_elem_of_singleton in Hrv as ->. cbn.
      by eapply named_once_intro.
Qed.

Lemma open_event_type_new (eventType : string) (st : EventStore) :
  eventTypes st !! eventType = None →
  length (allHeaders st) = size (eventTypes st) →
  open_event_type eventType st =
  Some {| eventTypes :=
            <[eventType := Z.of_nat (size (eventTypes st))]> (eventTypes st);
          allHeaders := allHeaders st ++ [seeded_headers];
          tables := tables st ++ [[]];
          e_row := e_row st;
          eventTypeID := Z.of_nat (size (eventTypes st)) |}.
Proof.
  intros Hnew Hlen. unfold open_event_type. rewrite Hnew. cbv zeta.
  rewrite Nat2Z.id, <- Hlen.
  rewrite lookup_app_r by lia. rewrite Nat.sub_diag. cbn [lookup list_lookup mbind option_bind].
  rewrite insert_app_r_alt by lia. rewrite Nat.sub_diag. cbn [insert list_insert].
  rewrite lookup_app_r by lia. rewrite Nat.sub_diag. cbn [lookup list_lookup mbind option_bind].
  rewrite insert_app_r_alt by lia. rewrite Nat.sub_diag. cbn [insert list_insert].
  done.
Qed.

Lemma open_event_type_known (eventType : string) (st : EventStore) (val : Z) :
  eventTypes st !! eventType = Some val →
  open_event_type eventType st =
  Some {| eventTypes := eventTypes st; allHeaders := allHeaders st;
          tables := tables st; e_row := e_row st; eventTypeID := val |}.
Proof. intros H. unfold open_event_type. by rewrite H. Qed.
Lemma event_inv_init : event_inv event_init.
Proof.
  unfold event_inv, event_init. cbn.
  rewrite map_size_empty. repeat split; try done; by left.
Qed.

Lemma event_grows_refl (st st' : EventStore) :
  allHeaders st' = allHeaders st → event_grows st st'.
Proof.
  intros E i h H. exists h. rewrite E. split; [done|apply grows_from_refl].
Qed.

Lemma event_step_keeps (st st' : EventStore) :
  event_inv st → event_step st st' → event_inv st' ∧ event_grows st st'.
Proof.
  intros (L1 & L2 & T & R & C) Hstep.
  destruct Hstep as [st st' Hrec|eventType st st' Hempty Hopen
                    |field value options nl st st' Hadd].
  - (* event boundary *)
    unfold event_next_record in Hrec.
    case_bool_decide as Hne.
    2:{ injection Hrec as <-. split; [|by apply event_grows_refl].
        unfold event_inv. cbn.
        split; [done|]. split; [done|]. split; [done|]. split; [done|by left]. }
    case_bool_decide as Hid; [|done].
    destruct (tables st !! Z.to_nat (eventTypeID st)) as [t|] eqn:Ht; [|done].
    cbn in Hrec. injection Hrec as <-. split; [|by apply event_grows_refl].
    unfold event_inv. cbn. rewrite length_insert.
    split; [done|]. split; [done|]. split; [done|]. split; [|by left].
    intros i h t' Hh Ht' r Hr.
    destruct (decide (i = Z.to_nat (eventTypeID st))) as [->|Hi].
    + rewrite list_lookup_insert_eq in Ht' by (by eapply lookup_lt_Some).
      injection Ht' as <-.
      apply elem_of_app in Hr as [Hr|Hr]; [by eapply R|].
      apply list_elem_of_singleton in Hr as ->.
      destruct C as [C|(h' & _ & Hh' & Hok)]; [by rewrite C in Hne|].
      congruence.
    + rewrite list_lookup_insert_ne in Ht' by done. by eapply R.
  - (* event type open *)
    destruct (eventTypes st !! eventType) as [val|] eqn:Hty.
    + rewrite (open_event_type_known _ _ val) in Hopen by done.
      injection Hopen as <-. split; [|by apply event_grows_refl].
      unfold event_inv. cbn. rewrite Hempty.
      split; [done|]. split; [done|]. split; [done|]. split; [done|by left].
    + rewrite open_event_type_new in Hopen by done.
      injection Hopen as <-.
      destruct seeded_headers_ok as (S1 & S2 & S3 & _).
      split.
      * unfold event_inv. cbn. rewrite !length_app, map_size_insert_None by done.
        cbn. split; [lia|]. split; [lia|]. split; [|split; [|by left]].
        -- intros i h Hh. apply lookup_app_Some in Hh as [Hh|[_ Hh]]; [eauto|].
           apply list_lookup_singleton_Some in Hh as [_ <-]. done.
        -- intros i h t Hh Ht r Hr.
           apply lookup_app_Some in Ht as [Ht|[Hge Ht]].
           ++ apply lookup_app_Some in Hh as [Hh|[Hge' _]]; [by eapply R|].
              apply lookup_lt_Some in Ht. lia.
           ++ apply list_lookup_singleton_Some in Ht as [_ <-].
              by apply elem_of_nil in Hr.
      * intros i h Hh. exists h. split; [|apply grows_from_refl].
        cbn. by apply lookup_app_l_Some.
  - (* a value is added *)
    unfold event_add in Hadd. case_bool_decide as Hid; [|done].
    destruct (allHeaders st !! Z.to_nat (eventTypeID st)) as [h|] eqn:Hh; [|done].
    cbn in Hadd.
    assert (e_row st = [] ∨ event_row_ok h (e_row st)) as Hrow.
    { destruct C as [C|(h' & _ & Hh' & Hok)]; [by left|right; congruence]. }
    destruct (T _ _ Hh) as (Hc & Hhost & Hagent).
    pose proof (add_value_to_row_eventbuffer_keeps field value h (e_row st)
                  options nl Hc Hrow) as K.
    destruct (add_value_to_row_eventbuffer field value h (e_row st) options nl)
      as [h' row'].
    destruct K as (Hc' & Hg & Hok). injection Hadd as <-.
    assert (Z.to_nat (eventTypeID st) < length (allHeaders st))%nat as Hlt
      by (by eapply lookup_lt_Some).
    split.
    + unfold event_inv. cbn. rewrite length_insert.
      split; [done|]. split; [done|]. split; [|split].
      * intros i h0 Hh0.
        destruct (decide (i = Z.to_nat (eventTypeID st))) as [->|Hi].
        -- rewrite list_lookup_insert_eq in Hh0 by done. injection Hh0 as <-.
           destruct Hg as [Hkeep _]. eauto.
        -- rewrite list_lookup_insert_ne in Hh0 by done. eauto.
      * intros i h0 t Hh0 Ht r Hr.
        destruct (decide (i = Z.to_nat (eventTypeID st))) as [->|Hi].
        -- rewrite list_lookup_insert_eq in Hh0 by done. injection Hh0 as <-.
           eapply event_row_ok_grows; [done..|]. by eapply R.
        -- rewrite list_lookup_insert_ne in Hh0 by done. by eapply R.
      * right. exists h'. split; [done|]. split; [|done].
        by apply list_lookup_insert_eq.
    + intros i h0 Hh0. cbn.
      destruct (decide (i = Z.to_nat (eventTypeID st))) as [->|Hi].
      * exists h'. split; [by apply list_lookup_insert_eq|]. congruence.
      * exists h0. split; [by rewrite list_lookup_insert_ne|apply grows_from_refl].
Qed.

Lemma event_reachable_inv (st : EventStore) :
  event_reachable st → event_inv st.
Proof.
  induction 1 as [|st st' _ IH Hstep]; [apply event_inv_init|].
  by apply (event_step_keeps st st').
Qed.
Lemma eventbuffer_field_not_Hostname (eventType raw : string) :
  eventbuffer_field eventType raw ≠ "Hostname".
Proof.
  unfold eventbuffer_field. cbv zeta.
  case_bool_decide as H1; by case_bool_decide as H2.
Qed.

Lemma stateagent_field_not_Hostname (raw : string) :
  stateagent_field raw ≠ "Hostname".
Proof. unfold stateagent_field. cbv zeta. by case_bool_decide. Qed.

Example eventbuffer_field_hostname :
  eventbuffer_field "DnsLookupEvent" "hostname" = "DNSHostname"
  ∧ eventbuffer_field "DnsLookupEvent" "timestamp"
    = "EventBufferTime_DnsLookupEvent"
  ∧ eventbuffer_field "DnsLookupEvent" "pid" = "Pid".
Proof. repeat split; reflexivity. Qed.



(** C10. In the EventBuffer and StateAgentInspector parsers the table of a
    newly met event type is exactly {Hostname: 0, AgentID: 1}; in every
    table of a reachable store these two entries are still there, the ids
    are the consecutive integers [0 .. len-1], a column that is new to the
    table gets the table's size as its id, and the column a data field is
    filed under (after the Hostname to DNSHostname renaming) never has
    id 0. *)
Theorem event_tables_are_seeded
    (st : EventStore) (i : nat) (h : gmap string Z) :
  event_reachable st → allHeaders st !! i = Some h →
  (h !! "Hostname" = Some 0 ∧ h !! "AgentID" = Some 1 ∧ consecutive_ids h)
  ∧ (∀ field value row options nl, h !! field = None →
       (add_value_to_row_eventbuffer field value h row options nl).1 !! field
       = Some (Z.of_nat (size h)))
  ∧ (∀ eventType raw id,
       h !! eventbuffer_field eventType raw = Some id
       ∨ h !! stateagent_field raw = Some id → id ≠ 0)
  ∧ (∀ eventType, eventTypes st !! eventType = None →
       ∃ st', open_event_type eventType st = Some st'
              ∧ eventTypeID st' = Z.of_nat (length (allHeaders st))
              ∧ allHeaders st' !! Z.to_nat (eventTypeID st') = Some seeded_headers
              ∧ size seeded_headers = 2%nat).
Proof.
  intros Hreach Hh. apply event_reachable_inv in Hreach.
  destruct Hreach as (L1 & L2 & T & R & C).
  destruct (T _ _ Hh) as (Hc & Hhost & Hagent).
  split; [done|]. split; [|split].
  - intros field value row options nl Hnew.
    rewrite add_value_to_row_eventbuffer_eq. cbv zeta. cbn [fst].
    rewrite Hnew. apply lookup_insert_eq.
  - intros eventType raw id Hid ->. destruct Hc as [_ Hinj].
    destruct Hid as [Hid|Hid].
    + apply (eventbuffer_field_not_Hostname eventType raw). eauto.
    + apply (stateagent_field_not_Hostname raw). eauto.
  - intros eventType Hnew. eexists. split; [by apply open_event_type_new|].
    cbn. split; [by rewrite L1|]. split; [|apply seeded_headers_ok].
    rewrite Nat2Z.id, <- L1. rewrite lookup_app_r by lia.
    by rewrite Nat.sub_diag.
Qed.

Lemma event_tables_are_seeded_witness :
  (seeded_headers !! "Hostname" = Some 0 ∧ seeded_headers !! "AgentID" = Some 1
   ∧ consecutive_ids seeded_headers)
  ∧ (∀ field value row options nl, seeded_headers !! field = None →
       (add_value_to_row_eventbuffer field value seeded_headers row options nl).1
         !! field = Some (Z.of_nat (size seeded_headers)))
  ∧ (∀ eventType raw id,
       seeded_headers !! eventbuffer_field eventType raw = Some id
       ∨ seeded_headers !! stateagent_field raw = Some id → id ≠ 0)
  ∧ (∀ eventType,
       eventTypes
         {| eventTypes := <["X" := 0]> ∅; allHeaders := [] ++ [seeded_headers];
            tables := [] ++ [[]]; e_row := []; eventTypeID := 0 |}
         !! eventType = None →
       ∃ st', open_event_type eventType
                {| eventTypes := <["X" := 0]> ∅;
                   allHeaders := [] ++ [seeded_headers];
                   tables := [] ++ [[]]; e_row := []; eventTypeID := 0 |}
              = Some st'
              ∧ eventTypeID st' = 1
              ∧ allHeaders st' !! Z.to_nat (eventTypeID st') = Some seeded_headers
              ∧ size seeded_headers = 2%nat).
Proof.
  apply (event_tables_are_seeded
           {| eventTypes := <["X" := 0]> ∅; allHeaders := [] ++ [seeded_headers];
              tables := [] ++ [[]]; e_row := []; eventTypeID := 0 |} 0%nat).
  - apply (event_reach_step event_init); [apply event_reach_init|].
    apply (event_step_type "X"); [reflexivity|].
    apply (open_event_type_new "X" event_init); reflexivity.
  - reflexivity.
Defined.
(** ** Excel-friendly truncation *)

Lemma truncate_cell_eq (cell : string) : truncate_cell cell = Some (truncated cell).
Proof.
  unfold truncate_cell, truncated.
  destruct (Z.ltb_spec 32000 (len cell)) as [L|L]; [|done].
  rewrite slice_in_range by lia.
  change (Z.to_nat 0) with 0%nat. by replace (32000 - 0) with 32000 by lia.
Qed.

Lemma truncated_short (cell : string) :
  len cell ≤ 32000 → truncated cell = cell.
Proof.
  intros L. unfold truncated. by destruct (Z.ltb_spec 32000 (len cell)); [lia|].
Qed.

Lemma truncate_columns_spec (n j : nat) (row : list string) :
  (j + n ≤ length row)%nat →
  ∃ row', truncate_columns n j row = Some row'
          ∧ length row' = length row
          ∧ ∀ k, row' !! k =
                 if bool_decide (j ≤ k < j + n)%nat
                 then truncated <$> row !! k else row !! k.
Proof.
  revert j row. induction n as [|n IH]; intros j row Hlen; cbn.
  - exists row. split; [done|]. split; [done|].
    intros k. case_bool_decide; [lia|done].
  - destruct (lookup_lt_is_Some_2 row j) as [cell Hcell]; [lia|].
    rewrite Hcell. cbn. rewrite truncate_cell_eq. cbn.
    destruct (IH (S j) (<[j := truncated cell]> row)) as (row' & Hrun & Hl & Hk).
    { rewrite length_insert. lia. }
    exists row'. split; [done|]. rewrite length_insert in Hl. split; [done|].
    intros k. rewrite Hk.
    destruct (decide (k = j)) as [->|Hne].
    + rewrite list_lookup_insert_eq by lia. rewrite Hcell.
      case_bool_decide; [lia|]. case_bool_decide; [done|lia].
    + rewrite list_lookup_insert_ne by done.
      repeat case_bool_decide; try done; lia.
Qed.

Lemma truncate_columns_all (row : list string) :
  truncate_columns (length row) 0 row = Some (truncated <$> row).
Proof.
  destruct (truncate_columns_spec (length row) 0 row) as (row' & -> & Hl & Hk);
    [lia|].
  f_equal. apply list_eq. intros k. rewrite Hk, list_lookup_fmap.
  case_bool_decide as Hin; [done|].
  rewrite (lookup_ge_None_2 row k) by lia. done.
Qed.

Lemma truncate_rows_all (width : nat) (csvRows : list (list string)) :
  Forall (λ row, length row = width) csvRows →
  truncate_rows width csvRows = Some (truncated_table csvRows).
Proof.
  induction 1 as [|row rest Hrow _ IH]; cbn; [done|].
  rewrite <- Hrow at 1. rewrite truncate_columns_all. cbn.
  rewrite IH. done.
Qed.

Example truncate_long_cell :
  excel_truncate excel_options [[repeat_byte (Z.to_nat 32001) "x"; "short"]]
  = Some [[repeat_byte (Z.to_nat 32000) "x" +:+ "..."; "short"]].
Proof.
  vm_cast_no_check
    (eq_refl (Some [[repeat_byte (Z.to_nat 32000) "x" +:+ "..."; "short"]])).
Qed.

Example truncate_at_limit :
  excel_truncate excel_options [[repeat_byte (Z.to_nat 32000) "x"]]
  = Some [[repeat_byte (Z.to_nat 32000) "x"]].
Proof.
  vm_cast_no_check (eq_refl (Some [[repeat_byte (Z.to_nat 32000) "x"]])).
Qed.


(** ** The dialect probe *)

Example generator_marker :
  generator_eventbuffer
  = String.string_of_list_ascii
      (list_ascii_of_string "generator=" ++ ["034"%char]
       ++ list_ascii_of_string "eventbuffer" ++ ["034"%char]).
Proof. reflexivity. Qed.

Example TrimSpace_both : TrimSpace "  <?xml  " = "<?xml".
Proof. reflexivity. Qed.

Example ToLower_mixed : ToLower "<ItemList A=1>" = "<itemlist a=1>".
Proof. reflexivity. Qed.

Example Contains_inner : Contains "abcde" "cd" = true ∧ Contains "abcde" "ce" = false.
Proof. split; reflexivity. Qed.

(** The probe on a file of two lines or more. *)
Lemma probe_two_lines (line1 line2 : string) (rest : list string) :
  classify (probe (line1 :: line2 :: rest)) = classify_two_lines line1 line2
  ∧ row_count (probe (line1 :: line2 :: rest)) ≤ 3.
Proof.
  unfold probe, classify_two_lines. cbn [probe_loop]. cbv zeta.
  change (0 + 1 =? 1) with true. cbn [andb].
  destruct (HasPrefix (TrimSpace line1) "<?xml"); cbn [negb]; [|by split].
  change (0 + 1 =? 2) with false. cbn iota.
  change (3 <=? 0 + 1) with false. cbn iota. cbn [probe_loop]. cbv zeta.
  change (0 + 1 + 1 =? 1) with false. cbn [andb].
  change (0 + 1 + 1 =? 2) with true. cbn iota.
  destruct (HasPrefix (ToLower (TrimSpace line2)) "<issuelist"); [by split|].
  destruct (HasPrefix (ToLower (TrimSpace line2)) "<itemlist"); cbn [negb];
    [|by split].
  change (3 <=? 0 + 1 + 1) with false. cbn iota.
  destruct rest as [|line3 rest]; cbn [probe_loop]; cbv zeta.
  - destruct (Contains (ToLower (TrimSpace line2)) generator_stateagentinspector),
      (Contains (ToLower (TrimSpace line2)) generator_eventbuffer); by split.
  - change (0 + 1 + 1 + 1 =? 1) with false. cbn [andb].
    change (0 + 1 + 1 + 1 =? 2) with false. cbn iota.
    change (3 <=? 0 + 1 + 1 + 1) with true. cbn iota.
    destruct (Contains (ToLower (TrimSpace line2)) generator_stateagentinspector),
      (Contains (ToLower (TrimSpace line2)) generator_eventbuffer); by split.
Qed.

(** C4, as the claim states it, fails: the loop stops only once a third
    line has been handed out ([row_count >= 3], line 547), and the worker
    goes on to use that line (565-575). *)
Lemma probe_reads_three_lines :
  row_count (probe [xml_declaration; "<itemList>"; " <FileItem>"; "</itemList>"]) = 3
  ∧ itemListLine (probe [xml_declaration; "<itemList>"; " <FileItem>"; "</itemList>"])
    = "<FileItem>"
  ∧ classify (probe [xml_declaration; "<itemList>"; " <FileItem>"; "</itemList>"])
    = Normal
  ∧ classify (probe ["  " +:+ xml_declaration; "<itemList>"]) = Normal
  ∧ HasPrefix ("  " +:+ xml_declaration) "<?xml" = false.
Proof. repeat split; reflexivity. Qed.

(** C4 (amended).  The probe takes at most three lines from the scanner.
    The classification is a function of the first two: line 1, trimmed,
    must start with "<?xml" or the file is rejected with the first-line
    error; line 2 is trimmed and lower-cased, "<issuelist" gives the
    issues-file outcome, anything not starting with "<itemlist" the
    second-line error, and an "<itemlist" line gives StateAgentInspector
    when it contains generator="stateagentinspector", else EventBuffer when
    it contains generator="eventbuffer", else Normal.  A file with no line
    at all, or with one good line only, ends as "unexpected XML schema". *)
Theorem probe_classifies (lines : list string) :
  row_count (probe lines) ≤ 3
  ∧ row_count (probe lines) ≤ Z.of_nat (length lines)
  ∧ classify (probe lines) =
    match lines with
    | [] => UnexpectedSchema
    | [line1] =>
        if HasPrefix (TrimSpace line1) "<?xml" then UnexpectedSchema
        else BadFirstLine (TrimSpace line1)
    | line1 :: line2 :: _ => classify_two_lines line1 line2
    end.
Proof.
  destruct lines as [|line1 [|line2 rest]].
  - by repeat split.
  - unfold probe. cbn [probe_loop]. cbv zeta.
    change (0 + 1 =? 1) with true. cbn [andb].
    destruct (HasPrefix (TrimSpace line1) "<?xml"); cbn [negb]; by repeat split.
  - destruct (probe_two_lines line1 line2 rest) as [Hc Hn].
    split; [done|]. split; [|done].
    revert Hn. unfold probe. cbn [probe_loop]. cbv zeta.
    change (0 + 1 =? 1) with true. cbn [andb].
    destruct (HasPrefix (TrimSpace line1) "<?xml"); cbn [negb];
      [|cbn; lia].
    change (0 + 1 =? 2) with false. cbn iota.
    change (3 <=? 0 + 1) with false. cbn iota. cbn [probe_loop]. cbv zeta.
    change (0 + 1 + 1 =? 1) with false. cbn [andb].
    change (0 + 1 + 1 =? 2) with true. cbn iota.
    destruct (HasPrefix (ToLower (TrimSpace line2)) "<issuelist"); [cbn; lia|].
    destruct (HasPrefix (ToLower (TrimSpace line2)) "<itemlist"); cbn [negb];
      [|cbn; lia].
    change (3 <=? 0 + 1 + 1) with false. cbn iota.
    destruct rest as [|line3 rest]; cbn [probe_loop]; cbv zeta.
    + cbn. lia.
    + change (0 + 1 + 1 + 1 =? 1) with false. cbn [andb].
      change (0 + 1 + 1 + 1 =? 2) with false. cbn iota.
      change (3 <=? 0 + 1 + 1 + 1) with true. cbn iota. cbn. lia.
Qed.
(** ** The column assembler *)

(** Iterations that meet no [h] change nothing. *)
Lemma omit_pass_skip (h : string) (a b i : nat) (backing : list string)
    (cur : nat) :
  (∀ k, (i ≤ k < i + a)%nat → ∃ x, backing !! k = Some x ∧ x ≠ h) →
  omit_pass h (a + b) i backing cur = omit_pass h b (i + a) backing cur.
Proof.
  revert i. induction a as [|a IH]; intros i Hclean.
  - by rewrite Nat.add_0_r.
  - cbn [Nat.add omit_pass].
    destruct (Hclean i) as (x & Hx & Hne); [lia|]. rewrite Hx. cbn.
    rewrite bool_decide_eq_false_2 by done.
    rewrite IH; [f_equal; lia|]. intros k Hk. apply Hclean. lia.
Qed.

Lemma omit_pass_clean (h : string) (todo i : nat) (backing : list string)
    (cur : nat) :
  (∀ k, (i ≤ k < i + todo)%nat → ∃ x, backing !! k = Some x ∧ x ≠ h) →
  omit_pass h todo i backing cur = Some (backing, cur).
Proof.
  intros Hclean. rewrite <- (Nat.add_0_r todo).
  by rewrite omit_pass_skip.
Qed.

Lemma filter_all {A} (P : A → Prop) `{∀ x, Decision (P x)} (l : list A) :
  (∀ x, x ∈ l → P x) → filter P l = l.
Proof.
  induction l as [|x l IH]; intros Hall; [done|].
  rewrite filter_cons_True by (apply Hall; left).
  f_equal. apply IH. intros y Hy. apply Hall. by right.
Qed.

(** On a slice without repetitions the loop removes [h], and never
    panics. *)
Lemma omit_header_eq (h : string) (l : list string) :
  NoDup l → omit_header h l = Some (filter (λ x, x ≠ h) l).
Proof.
  intros Hnd. unfold omit_header.
  destruct (decide (h ∈ l)) as [Hin|Hout].
  - apply list_elem_of_split in Hin as (l1 & l2 & ->).
    apply NoDup_app in Hnd as (Hnd1 & Hh1 & Hnd2).
    apply NoDup_cons in Hnd2 as (Hh2 & Hnd2).
    assert (h ∉ l1) as Hh1' by (intros Hc; apply (Hh1 h Hc); left).
    rewrite length_app. cbn [length].
    replace (length l1 + S (length l2))%nat
      with (length l1 + (S (length l2)))%nat at 1 by lia.
    rewrite omit_pass_skip.
    2:{ intros k Hk. destruct (lookup_lt_is_Some_2 l1 k) as [x Hx]; [lia|].
        exists x. rewrite lookup_app_l by lia. split; [done|].
        intros ->. apply Hh1'. by eapply list_elem_of_lookup_2. }
    change (0 + length l1)%nat with (length l1). cbn [omit_pass].
    rewrite list_lookup_middle by done. cbn [mbind option_bind].
    rewrite bool_decide_eq_true_2 by done.
    rewrite bool_decide_eq_true_2 by lia.
    assert (drop (length l1 + 1) (l1 ++ h :: l2) = l2) as Hdrop.
    { rewrite drop_app_ge by lia.
      replace (length l1 + 1 - length l1)%nat with 1%nat by lia. done. }
    rewrite Hdrop.
    replace (length l1 + S (length l2) - (length l1 + 1))%nat
      with (length l2) by lia.
    rewrite firstn_all, take_app_length.
    rewrite drop_app_ge by lia.
    replace (length l1 + length l2 - length l1)%nat with (length l2) by lia.
    rewrite omit_pass_clean.
    2:{ intros k Hk. rewrite lookup_app_r by lia.
        destruct (decide (k - length l1 < length l2)%nat) as [Hlt|Hge].
        - destruct (lookup_lt_is_Some_2 l2 (k - length l1)) as [x Hx]; [lia|].
          exists x. rewrite lookup_app_l by lia.
          split; [done|]. intros ->. apply Hh2. by eapply list_elem_of_lookup_2.
        - rewrite lookup_app_r by lia. rewrite lookup_drop.
          replace (length l2 + (k - length l1 - length l2))%nat
            with (S (length l2 - 1)) by lia.
          cbn [lookup list_lookup].
          destruct (lookup_lt_is_Some_2 l2 (length l2 - 1)) as [x Hx]; [lia|].
          exists x. split; [done|]. intros ->. apply Hh2.
          by eapply list_elem_of_lookup_2. }
    cbn [mbind option_bind]. f_equal.
    rewrite app_assoc, take_app_length'; [|rewrite length_app; lia].
    rewrite filter_app, filter_cons_False by (intros Hc; by apply Hc).
    rewrite !filter_all; [done| |].
    + intros x Hx ->. done.
    + intros x Hx ->. done.
  - rewrite omit_pass_clean.
    2:{ intros k Hk. destruct (lookup_lt_is_Some_2 l k) as [x Hx]; [lia|].
        exists x. split; [done|]. intros ->. apply Hout.
        by eapply list_elem_of_lookup_2. }
    cbn. rewrite firstn_all. f_equal. symmetry. apply filter_all.
    intros x Hx ->. done.
Qed.

Lemma omit_headers_eq (omitted l : list string) :
  NoDup l → omit_headers omitted l = Some (filter (λ x, x ∉ omitted) l).
Proof.
  revert l. induction omitted as [|h rest IH]; intros l Hnd; cbn.
  - f_equal. symmetry. apply filter_all. intros x _ Hc. by apply elem_of_nil in Hc.
  - rewrite omit_header_eq by done. cbn.
    rewrite IH by (by apply NoDup_filter). f_equal.
    rewrite list_filter_filter. apply list_filter_iff.
    intros x. rewrite not_elem_of_cons. tauto.
Qed.
(** ** The order of the remaining columns *)

Lemma less_fold_le (a b : string) :
  less_fold b a = false ↔ (ToLower a ≤ ToLower b)%string.
Proof.
  unfold less_fold, String.le, String.ltb, String.leb.
  rewrite (String.compare_antisym (ToLower b) (ToLower a)).
  destruct (String.compare (ToLower a) (ToLower b)); cbn; by split.
Qed.

Lemma less_fold_trans (a b c : string) :
  less_fold b a = false → less_fold c b = false → less_fold c a = false.
Proof. rewrite !less_fold_le. intros H1 H2. by etrans. Qed.

Lemma less_fold_flip (a b : string) :
  less_fold a b = true → less_fold b a = false.
Proof.
  unfold less_fold, String.ltb.
  rewrite (String.compare_antisym (ToLower b) (ToLower a)).
  by destruct (String.compare (ToLower a) (ToLower b)).
Qed.

(** Names that tie under the comparison have the same lower-case form. *)
Lemma less_fold_tie (a b : string) :
  less_fold a b = false → less_fold b a = false → ToLower a = ToLower b.
Proof.
  rewrite !less_fold_le. intros H1 H2. by apply (anti_symm String.le).
Qed.

Lemma insert_left_perm (x : string) (l : list string) :
  insert_left x l ≡ₚ x :: l.
Proof.
  induction l as [|y l IH]; cbn; [done|].
  destruct (less_fold x y); [|done].
  rewrite IH. apply Permutation_swap.
Qed.

Lemma insert_left_sorted (x : string) (l : list string) :
  Sorted (λ a b, less_fold a b = false) l →
  Sorted (λ a b, less_fold a b = false) (insert_left x l).
Proof.
  induction 1 as [|y l Hs IH Hhd]; cbn; [by repeat constructor|].
  destruct (less_fold x y) eqn:L.
  - constructor; [done|].
    destruct l as [|z l]; cbn.
    + constructor. by apply less_fold_flip.
    + destruct (less_fold x z) eqn:Lz.
      * constructor. by inversion Hhd.
      * constructor. by apply less_fold_flip.
  - constructor; [by constructor|]. by constructor.
Qed.

Lemma insertion_sort_sorts : sorts_by_fold insertion_sort.
Proof.
  intros l. unfold insertion_sort.
  assert (∀ acc,
    Sorted (λ a b, less_fold a b = false) acc →
    foldl (λ rev_sorted x, insert_left x rev_sorted) acc l ≡ₚ l ++ acc
    ∧ Sorted (λ a b, less_fold a b = false)
        (foldl (λ rev_sorted x, insert_left x rev_sorted) acc l)) as H.
  { induction l as [|x l IH]; intros acc Hacc; cbn; [done|].
    destruct (IH (insert_left x acc)) as [Hp Hs];
      [by apply insert_left_sorted|].
    split; [|done]. rewrite Hp, insert_left_perm.
    by rewrite Permutation_middle. }
  destruct (H []) as [Hp Hs]; [constructor|].
  rewrite app_nil_r in Hp. split.
  - by rewrite reverse_Permutation.
  - apply Sorted_StronglySorted.
    + intros a b c. apply less_fold_trans.
    + apply Sorted_reverse in Hs. exact Hs.
Qed.

(** Two sorted arrangements of the same names are the same list once no
    two of the names differ in letter case only. *)
Lemma sorted_by_fold_unique (l1 l2 : list string) :
  (∀ a b, a ∈ l1 → b ∈ l1 → ToLower a = ToLower b → a = b) →
  StronglySorted (λ a b, less_fold b a = false) l1 →
  StronglySorted (λ a b, less_fold b a = false) l2 →
  l1 ≡ₚ l2 → l1 = l2.
Proof.
  intros Hdistinct S1 S2 Hp.
  apply (StronglySorted_unique_strong (λ a b, less_fold b a = false));
    [|done..].
  intros a b Ha Hb H1 H2. rewrite <- Hp in Hb.
  apply Hdistinct; [done..|]. by apply less_fold_tie.
Qed.
(** ** The column assembler *)

Lemma StronglySorted_filter {A} (R : relation A) (P : A → Prop)
    `{∀ x, Decision (P x)} (l : list A) :
  StronglySorted R l → StronglySorted R (filter P l).
Proof.
  induction 1 as [|x l Hs IH Hall]; [constructor|].
  destruct (decide (P x)).
  - rewrite filter_cons_True by done. constructor; [done|].
    rewrite Forall_forall in *. intros y Hy.
    apply Hall. apply list_elem_of_filter in Hy. tauto.
  - by rewrite filter_cons_False.
Qed.

Lemma iteration_of_perm (headers : gmap string Z) (keys keys' : list string) :
  iteration_of headers keys → iteration_of headers keys' → keys ≡ₚ keys'.
Proof.
  intros [Hnd Hin] [Hnd' Hin']. apply NoDup_Permutation; [done..|].
  intros h. by rewrite Hin, Hin'.
Qed.

Lemma csv_headers_eq event config auditType headers keys sort_slice :
  NoDup keys → sorts_by_fold sort_slice →
  csv_headers event config auditType headers keys sort_slice =
  Some (placed_columns event config auditType headers
        ++ if OmitUnlisted config then []
           else unlisted_columns config auditType
                  (placed_columns event config auditType headers) keys sort_slice).
Proof.
  intros Hnd Hsort. unfold csv_headers, placed_columns, unlisted_columns,
    omitted_columns. cbv zeta.
  destruct (OmitUnlisted config); cbn [negb].
  - destruct (find_config _ _); by rewrite ?app_nil_r.
  - destruct (find_config (AuditHeaderConfigs config) auditType) as [c|].
    + rewrite omit_headers_eq; [done|].
      destruct (Hsort (remaining_headers keys
        ((HeadersMandatory config
          ++ optional_headers event headers (HeadersOptional config))
         ++ HeaderOrder c))) as [Hp _].
      rewrite Hp. by apply NoDup_filter.
    + cbn. rewrite app_nil_r. do 2 f_equal. symmetry. apply filter_all.
      intros x _ Hc. by apply elem_of_nil in Hc.
Qed.

Lemma unlisted_columns_perm config auditType placed keys sort_slice :
  sorts_by_fold sort_slice →
  unlisted_columns config auditType placed keys sort_slice
  ≡ₚ filter (λ h, h ∉ omitted_columns config auditType)
       (remaining_headers keys placed).
Proof.
  intros Hsort. unfold unlisted_columns.
  destruct (Hsort (remaining_headers keys placed)) as [Hp _].
  by rewrite Hp.
Qed.

Lemma unlisted_columns_elem config auditType placed headers keys sort_slice h :
  iteration_of headers keys → sorts_by_fold sort_slice →
  (h ∈ unlisted_columns config auditType placed keys sort_slice)
  ↔ (is_Some (headers !! h) ∧ (h ∉ placed)
     ∧ h ∉ omitted_columns config auditType).
Proof.
  intros [_ Hin] Hsort. rewrite unlisted_columns_perm by done.
  unfold remaining_headers. rewrite !list_elem_of_filter, Hin. tauto.
Qed.

Lemma unlisted_columns_sorted config auditType placed keys sort_slice :
  sorts_by_fold sort_slice →
  StronglySorted (λ a b, less_fold b a = false)
    (unlisted_columns config auditType placed keys sort_slice).
Proof.
  intros Hsort. apply StronglySorted_filter.
  by destruct (Hsort (remaining_headers keys placed)).
Qed.

Lemma unlisted_columns_unique config auditType placed headers
    keys keys' sort_slice sort_slice' :
  case_distinct headers →
  iteration_of headers keys → iteration_of headers keys' →
  sorts_by_fold sort_slice → sorts_by_fold sort_slice' →
  unlisted_columns config auditType placed keys sort_slice
  = unlisted_columns config auditType placed keys' sort_slice'.
Proof.
  intros Hd Hk Hk' Hs Hs'. apply sorted_by_fold_unique.
  - intros a b Ha Hb. apply Hd.
    + by apply (unlisted_columns_elem _ _ _ headers) in Ha as [? _].
    + by apply (unlisted_columns_elem _ _ _ headers) in Hb as [? _].
  - by apply unlisted_columns_sorted.
  - by apply unlisted_columns_sorted.
  - rewrite !unlisted_columns_perm by done. unfold remaining_headers.
    by rewrite (iteration_of_perm headers keys keys').
Qed.

Lemma placed_columns_listed config auditType headers :
  placed_columns false config auditType headers
  = listed_columns config auditType headers.
Proof.
  unfold placed_columns, listed_columns, optional_headers.
  rewrite <- app_assoc. do 2 f_equal.
  apply list_filter_iff. intros h. split; [|tauto].
  intros [?|[? _]]; done.
Qed.
Lemma unlisted_columns_NoDup config auditType placed headers keys sort_slice :
  iteration_of headers keys → sorts_by_fold sort_slice →
  NoDup (unlisted_columns config auditType placed keys sort_slice).
Proof.
  intros [Hnd _] Hsort. rewrite unlisted_columns_perm by done.
  by do 2 apply NoDup_filter.
Qed.

Lemma iteration_of_empty : iteration_of ∅ [].
Proof.
  split; [constructor|]. intros h. rewrite lookup_empty, elem_of_nil.
  split; [done|]. by intros [? ?].
Qed.

Lemma iteration_of_insert (headers : gmap string Z) (keys : list string)
    (h : string) (id : Z) :
  iteration_of headers keys → headers !! h = None →
  iteration_of (<[h := id]> headers) (h :: keys).
Proof.
  intros [Hnd Hin] Hnew. split.
  - constructor; [|done]. rewrite Hin, Hnew. by intros [? ?].
  - intros k. rewrite elem_of_cons, Hin. destruct (decide (h = k)) as [->|Hne].
    + rewrite lookup_insert_eq. split; [eauto|by left].
    + rewrite lookup_insert_ne by done. split; [|tauto].
      intros [->|?]; done.
Qed.



(** ** The parse cache *)

Lemma find_xmlfile_spec (filename : string) (filesize : Z)
    (xmlFiles : list Parse_Config_XMLFile) (i : nat) :
  match find_xmlfile filename filesize xmlFiles i with
  | Some k =>
      (i ≤ k)%nat
      ∧ xmlFiles !! (k - i)%nat = first_entry filename filesize xmlFiles
      ∧ is_Some (first_entry filename filesize xmlFiles)
  | None => first_entry filename filesize xmlFiles = None
  end.
Proof.
  revert i. induction xmlFiles as [|x l IH]; intros i; cbn; [done|].
  destruct (same_file filename filesize x).
  - rewrite Nat.sub_diag. eauto.
  - specialize (IH (S i)).
    destruct (find_xmlfile filename filesize l (S i)) as [k|]; [|done].
    destruct IH as (Hle & Hk & Hs). split; [lia|]. split; [|done].
    replace (k - i)%nat with (S (k - S i)) by lia. done.
Qed.

Lemma first_entry_same (filename : string) (filesize : Z)
    (xmlFiles : list Parse_Config_XMLFile) (e : Parse_Config_XMLFile) :
  first_entry filename filesize xmlFiles = Some e →
  InputFileName e = filename ∧ InputFileSize e = filesize ∧ e ∈ xmlFiles.
Proof.
  induction xmlFiles as [|x l IH]; cbn; [done|].
  destruct (same_file filename filesize x) eqn:Hx.
  - intros [= <-]. unfold same_file in Hx.
    apply andb_true_iff in Hx as [H1%bool_decide_eq_true H2%bool_decide_eq_true].
    split; [done|]. split; [done|]. by left.
  - intros H. destruct (IH H) as (?&?&?). split; [done|]. split; [done|].
    by right.
Qed.

Lemma first_entry_app (filename : string) (filesize : Z)
    (l l' : list Parse_Config_XMLFile) :
  first_entry filename filesize (l ++ l')
  = match first_entry filename filesize l with
    | Some e => Some e
    | None => first_entry filename filesize l'
    end.
Proof.
  induction l as [|x l IH]; cbn; [done|].
  by destruct (same_file filename filesize x).
Qed.

Lemma alter_last {A} (f : A → A) (l : list A) (x : A) :
  alter f (length (l ++ [x]) - 1)%nat (l ++ [x]) = l ++ [f x].
Proof.
  rewrite length_app. cbn. replace (length l + 1 - 1)%nat with (length l + 0)%nat by lia.
  by rewrite alter_app_r.
Qed.

Lemma directory_at_set (config : Parse_Config_JSON) (dirIndex : Z)
    (dir : Parse_Config_OutputDirectory) (xmlFiles : list Parse_Config_XMLFile) :
  directory_at config dirIndex = Some dir →
  directory_at (set_XMLFiles config dirIndex xmlFiles) dirIndex
  = Some {| OutputDirectory := OutputDirectory dir; XMLFiles := xmlFiles;
            ArchiveFiles := ArchiveFiles dir |}.
Proof.
  unfold directory_at. destruct (dirIndex <? 0); [done|]. cbn. intros H.
  by rewrite list_lookup_alter_eq, H.
Qed.

Lemma InputConfig_GetXMLParseConfig_eq (file : FileInfo) (dirIndex : Z)
    (config : Parse_Config_JSON) (dir : Parse_Config_OutputDirectory) :
  directory_at config dirIndex = Some dir →
  InputConfig_GetXMLParseConfig file dirIndex config
  = Some match first_entry (Base (Name file)) (Size file) (XMLFiles dir) with
         | Some e => (config, e)
         | None =>
             (set_XMLFiles config dirIndex
                (XMLFiles dir ++ [unattempted (Base (Name file)) (Size file)]),
              unattempted (Base (Name file)) (Size file))
         end.
Proof.
  intros Hdir. unfold InputConfig_GetXMLParseConfig. cbv zeta.
  rewrite Hdir. cbn [mbind option_bind].
  pose proof (find_xmlfile_spec (Base (Name file)) (Size file) (XMLFiles dir) 0) as H.
  destruct (find_xmlfile _ _ _ 0) as [k|].
  - destruct H as (_ & Hk & [e He]). rewrite Nat.sub_0_r in Hk.
    rewrite Hk, He. done.
  - rewrite H, alter_last.
    rewrite length_app. cbn [length].
    rewrite lookup_app_r by lia.
    replace (length (XMLFiles dir) + 1 - 1 - length (XMLFiles dir))%nat
      with 0%nat by lia.
    done.
Qed.

Lemma InputConfig_GetXMLParseFileStatus_eq (file : FileInfo) (dirIndex : Z)
    (config : Parse_Config_JSON) :
  InputConfig_GetXMLParseFileStatus file dirIndex config
  = '(config', e) ← InputConfig_GetXMLParseConfig file dirIndex config;
    Some (config', Status e).
Proof.
  unfold InputConfig_GetXMLParseFileStatus. cbv zeta.
  destruct (directory_at config dirIndex) as [dir|] eqn:Hdir.
  - rewrite (InputConfig_GetXMLParseConfig_eq _ _ _ dir) by done.
    cbn [mbind option_bind].
    pose proof (find_xmlfile_spec (Base (Name file)) (Size file) (XMLFiles dir) 0) as H.
    destruct (find_xmlfile _ _ _ 0) as [k|].
    + destruct H as (_ & Hk & [e He]). rewrite Nat.sub_0_r in Hk.
      rewrite Hk, He. done.
    + rewrite H, alter_last. done.
  - unfold InputConfig_GetXMLParseConfig. by rewrite Hdir.
Qed.
Lemma recorded_status_eq (config : Parse_Config_JSON) (dirIndex : Z)
    (file : FileInfo) (dir : Parse_Config_OutputDirectory) :
  directory_at config dirIndex = Some dir →
  recorded_status config dirIndex file
  = match first_entry (Base (Name file)) (Size file) (XMLFiles dir) with
    | Some e => Status e
    | None => "failed/notattemptedyet"
    end.
Proof.
  intros Hdir. unfold recorded_status.
  rewrite InputConfig_GetXMLParseFileStatus_eq.
  rewrite (InputConfig_GetXMLParseConfig_eq _ _ _ dir) by done.
  cbn [mbind option_bind]. by destruct (first_entry _ _ _).
Qed.

(** Looking a file up leaves every answer of the cache as it was. *)
Lemma lookup_keeps_status (file : FileInfo) (dirIndex : Z)
    (config config' : Parse_Config_JSON) (dir : Parse_Config_OutputDirectory)
    (e : Parse_Config_XMLFile) :
  directory_at config dirIndex = Some dir →
  InputConfig_GetXMLParseConfig file dirIndex config = Some (config', e) →
  is_Some (directory_at config' dirIndex)
  ∧ Status e = recorded_status config dirIndex file
  ∧ ∀ g, recorded_status config' dirIndex g = recorded_status config dirIndex g.
Proof.
  intros Hdir. rewrite (InputConfig_GetXMLParseConfig_eq _ _ _ dir) by done.
  rewrite (recorded_status_eq _ _ file dir) by done.
  destruct (first_entry _ _ (XMLFiles dir)) as [e0|] eqn:Hfirst;
    intros [= <- <-].
  - split; [by eexists|]. done.
  - split; [rewrite (directory_at_set _ _ dir) by done; by eexists|].
    split; [done|]. intros g.
    rewrite (recorded_status_eq config _ g dir) by done.
    erewrite recorded_status_eq by (by apply directory_at_set).
    cbn [XMLFiles]. rewrite first_entry_app.
    destruct (first_entry (Base (Name g)) (Size g) (XMLFiles dir)); [done|].
    cbn. by destruct (same_file _ _ _).
Qed.

Lemma add_count_incr (c : Z) (n : nat) :
  add_count (wrap64 (c + 1)) n = add_count c (S n).
Proof. unfold add_count. by rewrite Nat.iter_succ_r. Qed.

Lemma add_count_small (c : Z) (n : nat) :
  0 ≤ c → c + Z.of_nat n < 2 ^ 63 → add_count c n = c + Z.of_nat n.
Proof.
  unfold add_count. induction n as [|n IH]; intros Hc Hn.
  - cbn. lia.
  - rewrite Nat.iter_succ, IH by lia. unfold wrap64.
    rewrite Z.mod_small by lia. lia.
Qed.

Lemma stays_ext (config config' : Parse_Config_JSON) (dirIndex : Z)
    (files : list FileInfo) :
  (∀ g, recorded_status config' dirIndex g = recorded_status config dirIndex g) →
  filter (stays config' dirIndex) files = filter (stays config dirIndex) files.
Proof.
  intros H. apply list_filter_iff. intros g. unfold stays. by rewrite H.
Qed.

Lemma counted_ext (c : Counts) (config config' : Parse_Config_JSON)
    (dirIndex : Z) (files : list FileInfo) :
  (∀ g, recorded_status config' dirIndex g = recorded_status config dirIndex g) →
  counted c config' dirIndex files = counted c config dirIndex files.
Proof.
  intros H. unfold counted.
  assert (∀ statuses,
    filter (counted_as statuses config' dirIndex) files
    = filter (counted_as statuses config dirIndex) files) as Hx.
  { intros statuses. apply list_filter_iff. intros g. unfold counted_as.
    by rewrite H. }
  by rewrite !Hx.
Qed.

Lemma filter_skip {A} (P : A → Prop) `{∀ x, Decision (P x)} (x : A)
    (l : list A) : ¬ P x → filter P (x :: l) = filter P l.
Proof. intros. by rewrite filter_cons_False. Qed.

Lemma filter_take {A} (P : A → Prop) `{∀ x, Decision (P x)} (x : A)
    (l : list A) : P x → filter P (x :: l) = x :: filter P l.
Proof. intros. by rewrite filter_cons_True. Qed.

Ltac in_statuses :=
  unfold counted_as, stays, is_json in *;
  rewrite ?list_elem_of_In in *; cbn [In] in *; intuition congruence.

Ltac count_file :=
  unfold counted; cbn [c_Success c_Failed c_Cached c_Issues c_Empty
                         incr_Cached incr_Issues incr_Empty];
  repeat first
    [ rewrite add_count_incr
    | rewrite filter_take by in_statuses
    | rewrite filter_skip by in_statuses ];
  cbn [length]; try reflexivity.

Lemma remove_parsed_eq (options : Options) (dirIndex : Z)
    (files : list FileInfo) :
  ForceReparse options = false → WipeOutput options = false →
  ∀ kept config c,
    is_Some (directory_at config dirIndex) →
    ∃ config',
      remove_parsed options dirIndex kept files config c
      = Some (kept ++ filter (stays config dirIndex) files, config',
              counted c config dirIndex files)
      ∧ is_Some (directory_at config' dirIndex)
      ∧ ∀ g, recorded_status config' dirIndex g
             = recorded_status config dirIndex g.
Proof.
  intros Hf Hw. induction files as [|file files IH]; intros kept config c Hdir.
  - exists config. cbn. rewrite app_nil_r. split; [|done].
    by destruct c.
  - cbn [remove_parsed]. rewrite Hf, Hw. cbn [orb].
    destruct (HasSuffix (Name file) ".json") eqn:Hjson.
    + destruct (IH kept config c Hdir) as (config' & -> & ? & ?).
      exists config'. split; [|done].
      rewrite filter_skip by (unfold stays, is_json; intros [? _]; congruence).
      do 2 f_equal. unfold counted.
      rewrite !filter_skip
        by (unfold counted_as, is_json; intros [? _]; congruence).
      done.
    + destruct Hdir as [dir Hdir].
      destruct (InputConfig_GetXMLParseConfig file dirIndex config)
        as [[config1 e]|] eqn:Hget;
        [|by rewrite (InputConfig_GetXMLParseConfig_eq _ _ _ dir) in Hget].
      destruct (lookup_keeps_status _ _ _ _ _ _ Hdir Hget) as (Hdir1 & He & Hsame).
      cbn [mbind option_bind]. unfold ExtraFunc5. rewrite He.
      assert (∀ kept' c',
        (∃ config', remove_parsed options dirIndex kept' files config1 c'
           = Some (kept' ++ filter (stays config dirIndex) files, config',
                   counted c' config dirIndex files)
         ∧ is_Some (directory_at config' dirIndex)
         ∧ ∀ g, recorded_status config' dirIndex g
                = recorded_status config dirIndex g)) as IH'.
      { intros kept' c'. destruct (IH kept' config1 c' Hdir1)
          as (config' & -> & ? & Hs).
        exists config'. rewrite (stays_ext config config1), (counted_ext _ config config1) by done.
        split; [done|]. split; [done|]. intros g. by rewrite Hs, Hsame. }
      repeat case_bool_decide.
      * destruct (IH' kept (incr_Cached c)) as (config' & -> & ? & ?).
        exists config'. split; [|done].
        rewrite filter_skip by in_statuses.
        do 2 f_equal. count_file.
      * destruct (IH' kept (incr_Cached c)) as (config' & -> & ? & ?).
        exists config'. split; [|done].
        rewrite filter_skip by in_statuses.
        do 2 f_equal. count_file.
      * destruct (IH' kept (incr_Issues c)) as (config' & -> & ? & ?).
        exists config'. split; [|done].
        rewrite filter_skip by in_statuses.
        do 2 f_equal. count_file.
      * destruct (IH' kept (incr_Empty c)) as (config' & -> & ? & ?).
        exists config'. split; [|done].
        rewrite filter_skip by in_statuses.
        do 2 f_equal. count_file.
      * destruct (IH' (kept ++ [file]) c) as (config' & -> & ? & ?).
        exists config'. split; [|done].
        rewrite filter_take by in_statuses.
        rewrite <- app_assoc. do 2 f_equal. count_file.
Qed.
(** ** The worker's message and its two classifications *)

Lemma prefix_app_guard (q : ascii) (m x y : string) :
  has_byte q m = false →
  String.prefix m (x ++ String q y) = String.prefix m x.
Proof.
  revert x. induction m as [|a m IH]; intros x Hq; [by destruct x|].
  cbn in Hq. apply orb_false_iff in Hq as [Ha Hm].
  destruct x as [|b x].
  - change (String.prefix (String a m) (String q y) = false). cbn.
    destruct (ascii_dec a q) as [Heq|Hne]; [|done].
    apply Ascii.eqb_neq in Ha. done.
  - change (String.prefix (String a m) (String b (x ++ String q y))
            = String.prefix (String a m) (String b x)). cbn.
    destruct (ascii_dec a b); [by apply IH|done].
Qed.

Lemma Contains_app_guard (q : ascii) (m x y : string) :
  has_byte q m = false →
  Contains (x ++ String q y) m = Contains x m || Contains (String q y) m.
Proof.
  intros Hq. induction x as [|c x IH].
  - change (Contains (String q y) m
            = Contains EmptyString m || Contains (String q y) m).
    destruct m; [done|]. done.
  - change (Contains (String c (x ++ String q y)) m
            = Contains (String c x) m || Contains (String q y) m).
    cbn [Contains]. rewrite IH.
    change (String c (x ++ String q y))
      with (String c x ++ String q y)%string.
    rewrite prefix_app_guard by done. by rewrite orb_assoc.
Qed.

Lemma Contains_behind_guard (q : ascii) (m y : string) :
  has_byte q m = false → m ≠ EmptyString →
  Contains (String q y) m = Contains y m.
Proof.
  intros Hq Hm. destruct m as [|a m]; [done|]. cbn in Hq.
  apply orb_false_iff in Hq as [Ha _]. apply Ascii.eqb_neq in Ha.
  cbn. by destruct (ascii_dec a q).
Qed.

(** A phrase without a quote is in the message when it is in the fixed
    text or in the file name: it cannot lie across a quote. *)
Lemma Contains_empty_message (xmlFileName m : string) :
  has_byte "'" m = false → m ≠ EmptyString →
  Contains (empty_message Warnbox xmlFileName) m
  = Contains "[!] WARNING - File " m || Contains xmlFileName m
    || Contains " is empty." m.
Proof.
  intros Hq Hm.
  change (empty_message Warnbox xmlFileName)
    with ("[!] WARNING - File "
          ++ String "'" (xmlFileName ++ String "'" " is empty."))%string.
  rewrite (Contains_app_guard "'" m "[!] WARNING - File ") by done.
  rewrite (Contains_behind_guard "'" m) by done.
  rewrite (Contains_app_guard "'" m xmlFileName) by done.
  rewrite (Contains_behind_guard "'" m) by done.
  by rewrite orb_assoc.
Qed.

Lemma status_of_empty_message (xmlFileName : string) :
  status_of_message (empty_message Warnbox xmlFileName)
  = if Contains xmlFileName "File was split" then "split"
    else if Contains xmlFileName "does not exist" then "failed/notexist"
    else if Contains xmlFileName "not parse file" then "failed/error"
    else if Contains xmlFileName "not rename" then "failed/rename"
    else "ignored/empty".
Proof.
  unfold status_of_message.
  rewrite !Contains_empty_message by done.
  repeat match goal with
  | |- context [Contains ?a ?b] =>
      lazymatch a with
      | xmlFileName => fail
      | _ => let v := eval vm_compute in (Contains a b) in
             change (Contains a b) with v
      end
  end.
  cbn [orb]. rewrite !orb_false_r, !orb_true_r.
  by repeat destruct (Contains xmlFileName _).
Qed.

Lemma count_of_empty_message (verbose : Z) (xmlFileName : string)
    (c : Counts) (printed : list string) :
  let msg := empty_message Warnbox xmlFileName in
  let shown := if 0 <? verbose then printed ++ [msg] else printed in
  count_message verbose msg (c, printed)
  = if Contains xmlFileName "parsed successfully" then (incr_Success c, shown)
    else if Contains xmlFileName "Could not rename" then
      (incr_Failed c, printed ++ [msg])
    else if Contains xmlFileName "Could not parse file" then
      (incr_Failed c, printed ++ [msg])
    else if Contains xmlFileName "already exists" then (incr_Cached c, shown)
    else if Contains xmlFileName "Issues file" then (incr_Issues c, shown)
    else (incr_Empty c, printed ++ [msg]).
Proof.
  cbv zeta. unfold count_message.
  rewrite !Contains_empty_message by done.
  repeat match goal with
  | |- context [Contains ?a ?b] =>
      lazymatch a with
      | xmlFileName => fail
      | _ => let v := eval vm_compute in (Contains a b) in
             change (Contains a b) with v
      end
  end.
  cbn [orb]. rewrite !orb_false_r, ?orb_true_r.
  by repeat destruct (Contains xmlFileName _).
Qed.

Lemma same_file_set_Status (filename : string) (filesize : Z) (status : string)
    (x : Parse_Config_XMLFile) :
  same_file filename filesize (set_Status status x)
  = same_file filename filesize x.
Proof. done. Qed.

Lemma same_file_true (filename : string) (filesize : Z)
    (x : Parse_Config_XMLFile) :
  same_file filename filesize x = true
  ↔ InputFileSize x = filesize ∧ InputFileName x = filename.
Proof.
  unfold same_file. by rewrite andb_true_iff, !bool_decide_eq_true.
Qed.

Lemma first_entry_update (n : string) (s : Z) (status : string)
    (l : list Parse_Config_XMLFile) (i k : nat) :
  find_xmlfile n s l i = Some k →
  first_entry n s (alter (set_Status status) (k - i)%nat l)
  = set_Status status <$> first_entry n s l
  ∧ ∀ n' s', (n', s') ≠ (n, s) →
      first_entry n' s' (alter (set_Status status) (k - i)%nat l)
      = first_entry n' s' l.
Proof.
  revert i. induction l as [|x l IH]; intros i; cbn [find_xmlfile]; [done|].
  destruct (same_file n s x) eqn:Hx.
  - intros [= <-]. rewrite Nat.sub_diag. cbn.
    rewrite same_file_set_Status, Hx. split; [done|].
    intros n' s' Hne. rewrite same_file_set_Status.
    destruct (same_file n' s' x) eqn:Hx'; [|done].
    apply same_file_true in Hx as [<- <-]. apply same_file_true in Hx' as [<- <-].
    done.
  - intros Hk. pose proof (find_xmlfile_spec n s l (S i)) as Hspec.
    rewrite Hk in Hspec. destruct Hspec as (Hle & _).
    replace (k - i)%nat with (S (k - S i)) by lia. cbn. rewrite Hx.
    destruct (IH _ Hk) as [H1 H2]. split; [done|].
    intros n' s' Hne. rewrite H2 by done. done.
Qed.

(** What was stored for a worker's message is what the cache answers
    afterwards, and the answers for other files stay. *)
Lemma update_then_lookup (dirIndex : Z) (xmlfile : FileInfo) (msg : string)
    (extra : bool) (config : Parse_Config_JSON) :
  is_Some (directory_at config dirIndex) →
  ∃ config',
    ParseConfigUpdateXMLParse dirIndex xmlfile msg extra config = Some config'
    ∧ is_Some (directory_at config' dirIndex)
    ∧ recorded_status config' dirIndex xmlfile = status_of_message msg
    ∧ ∀ g, (Base (Name g), Size g) ≠ (Base (Name xmlfile), Size xmlfile) →
           recorded_status config' dirIndex g
           = recorded_status config dirIndex g.
Proof.
  intros [dir Hdir]. unfold ParseConfigUpdateXMLParse. cbv zeta.
  rewrite Hdir. cbn [mbind option_bind].
  pose proof (find_xmlfile_spec (Base (Name xmlfile)) (Size xmlfile)
                (XMLFiles dir) 0) as Hspec.
  destruct (find_xmlfile _ _ (XMLFiles dir) 0) as [k|] eqn:Hfind.
  - destruct Hspec as (_ & Hk & [e He]). rewrite Nat.sub_0_r in Hk.
    rewrite Hk, He. cbn [mbind option_bind]. eexists. split; [done|].
    split; [rewrite (directory_at_set _ _ dir) by done; by eexists|].
    destruct (first_entry_update _ _ (status_of_message msg) _ _ _ Hfind)
      as [H1 H2]. rewrite Nat.sub_0_r in H1, H2.
    split.
    + erewrite recorded_status_eq by (by apply directory_at_set).
      cbn [XMLFiles]. by rewrite H1, He.
    + intros g Hg. erewrite recorded_status_eq by (by apply directory_at_set).
      rewrite (recorded_status_eq config _ g dir) by done.
      cbn [XMLFiles]. by rewrite H2.
  - rewrite alter_last. rewrite length_app. cbn [length].
    rewrite lookup_app_r by lia.
    replace (length (XMLFiles dir) + 1 - 1 - length (XMLFiles dir))%nat
      with 0%nat by lia.
    cbn [lookup list_lookup mbind option_bind]. eexists. split; [done|].
    split; [rewrite (directory_at_set _ _ dir) by done; by eexists|].
    split.
    + erewrite recorded_status_eq by (by apply directory_at_set).
      cbn [XMLFiles]. rewrite first_entry_app, Hspec. cbn.
      unfold same_file. cbn. by rewrite !bool_decide_eq_true_2.
    + intros g Hg. erewrite recorded_status_eq by (by apply directory_at_set).
      rewrite (recorded_status_eq config _ g dir) by done.
      cbn [XMLFiles]. rewrite first_entry_app.
      destruct (first_entry (Base (Name g)) (Size g) (XMLFiles dir)); [done|].
      cbn. destruct (same_file _ _ _) eqn:Hs; [|done].
      apply same_file_true in Hs as [H1 H2]. cbn in H1, H2. congruence.
Qed.
(** C6 (the code departs from it).  An audit file without items that is
    named "Could not rename.xml": the worker removes the temporary file,
    renames nothing and reports "... is empty.", yet the cache keeps the
    status "failed/rename" for the file and the statistics count it as
    failed, not as empty. *)
Theorem empty_file_recorded_as_failed :
  ∃ config1 fileconfig report config2,
    InputConfig_GetXMLParseConfig misnamed_file 0 (cache_of [])
    = Some (config1, fileconfig)
    ∧ rows_check Warnbox {[ "out/h-a-p-FileItem.csv.incomplete" ]} 0
        (InputFileName fileconfig) (InputFileSize fileconfig)
        "out/h-a-p-FileItem.csv.incomplete" []
      = (∅, Some report)
    ∧ message report = "[!] WARNING - File 'Could not rename.xml' is empty."
    ∧ Contains (message report) "is empty" = true
    ∧ ParseConfigUpdateXMLParse 0 misnamed_file (message report)
        (ExtraFunc6 plain_options) config1
      = Some config2
    ∧ recorded_status config2 0 misnamed_file = "failed/rename"
    ∧ count_messages 0 [message report] no_counts
      = ({| c_Success := 0; c_Failed := 1; c_Cached := 0; c_Issues := 0;
            c_Empty := 0 |}, [message report]).
Proof.
  eexists _, _, _, _.
  split; [by vm_compute|]. split; [by vm_compute|].
  split; [reflexivity|]. split; [by vm_compute|].
  split; [by vm_compute|]. split; by vm_compute.
Qed.

(** A file with the suffix ".json" that the cache holds as parsed leaves
    the work list without being counted. *)
Lemma json_file_is_dropped_uncounted :
  first_entry (Base (Name json_file)) (Size json_file) [json_entry]
  = Some json_entry
  ∧ Status json_entry = "parsed"
  ∧ remove_parsed plain_options 0 [] [json_file] (cache_of [json_entry])
      no_counts
    = Some ([], cache_of [json_entry], no_counts)
  ∧ c_Cached no_counts = 0.
Proof. repeat split; by vm_compute. Qed.

(** C7 (as amended).  With force-reparse and wipe-output off, a file whose
    name does not end in ".json" and whose first cache entry of the same
    base name and size has the status parsed, split, ignored/issues or
    ignored/empty is not in the work list the loop leaves, whatever other
    files are listed; the cache answers as before for every file; the
    counters grow by the number of listed files of each kind; and the file
    on its own adds one to the cached counter (parsed, split), to the
    issues counter or to the empty counter and leaves the cache as it is. *)
Theorem unchanged_file_is_skipped (options : Options) (dirIndex : Z)
    (config : Parse_Config_JSON) (dir : Parse_Config_OutputDirectory)
    (file : FileInfo) (entry : Parse_Config_XMLFile) :
  ForceReparse options = false → WipeOutput options = false →
  directory_at config dirIndex = Some dir →
  HasSuffix (Name file) ".json" = false →
  first_entry (Base (Name file)) (Size file) (XMLFiles dir) = Some entry →
  Status entry ∈ ["parsed"; "split"; "ignored/issues"; "ignored/empty"] →
  (∀ kept files c,
     ∃ config',
       remove_parsed options dirIndex kept files config c
       = Some (kept ++ filter (stays config dirIndex) files, config',
               counted c config dirIndex files)
       ∧ (file ∉ filter (stays config dirIndex) files)
       ∧ ∀ g, recorded_status config' dirIndex g
              = recorded_status config dirIndex g)
  ∧ remove_parsed options dirIndex [] [file] config no_counts
    = Some ([], config,
            {| c_Success := 0; c_Failed := 0;
               c_Cached :=
                 if bool_decide (Status entry ∈ ["parsed"; "split"])
                 then 1 else 0;
               c_Issues :=
                 if bool_decide (Status entry = "ignored/issues")
                 then 1 else 0;
               c_Empty :=
                 if bool_decide (Status entry = "ignored/empty")
                 then 1 else 0 |}).
Proof.
  intros Hf Hw Hdir Hjson Hentry Hstatus.
  assert (recorded_status config dirIndex file = Status entry) as Hrec.
  { by rewrite (recorded_status_eq _ _ _ dir), Hentry. }
  split.
  - intros kept files c.
    destruct (remove_parsed_eq options dirIndex files Hf Hw kept config c)
      as (config' & Hrun & _ & Hsame); [by eexists|].
    exists config'. split; [done|]. split; [|done].
    rewrite list_elem_of_filter. unfold stays. rewrite Hrec.
    intros [[_ Hno] _]. done.
  - cbn [remove_parsed]. rewrite Hf, Hw, Hjson. cbn [orb].
    rewrite (InputConfig_GetXMLParseConfig_eq _ _ _ dir), Hentry by done.
    cbn [mbind option_bind]. unfold ExtraFunc5.
    rewrite !list_elem_of_In in Hstatus. cbn [In] in Hstatus.
    destruct Hstatus as [<-|[<-|[<-|[<-|[]]]]]; by vm_compute.
Qed.

Lemma unchanged_file_is_skipped_witness :
  (∀ kept files c,
     ∃ config',
       remove_parsed plain_options 0 kept files
         (cache_of [{| InputFileName := "h-a-1-FileItem.xml";
                       InputFileSize := 120; Status := "ignored/empty" |}]) c
       = Some (kept ++ filter
                 (stays (cache_of [{| InputFileName := "h-a-1-FileItem.xml";
                                      InputFileSize := 120;
                                      Status := "ignored/empty" |}]) 0) files,
               config',
               counted c
                 (cache_of [{| InputFileName := "h-a-1-FileItem.xml";
                               InputFileSize := 120;
                               Status := "ignored/empty" |}]) 0 files)
       ∧ ({| Name := "h-a-1-FileItem.xml"; Size := 120 |}
          ∉ filter
              (stays (cache_of [{| InputFileName := "h-a-1-FileItem.xml";
                                   InputFileSize := 120;
                                   Status := "ignored/empty" |}]) 0) files)
       ∧ ∀ g, recorded_status config' 0 g
              = recorded_status
                  (cache_of [{| InputFileName := "h-a-1-FileItem.xml";
                                InputFileSize := 120;
                                Status := "ignored/empty" |}]) 0 g)
  ∧ remove_parsed plain_options 0 []
      [{| Name := "h-a-1-FileItem.xml"; Size := 120 |}]
      (cache_of [{| InputFileName := "h-a-1-FileItem.xml";
                    InputFileSize := 120; Status := "ignored/empty" |}])
      no_counts
    = Some ([],
            cache_of [{| InputFileName := "h-a-1-FileItem.xml";
                         InputFileSize := 120; Status := "ignored/empty" |}],
            {| c_Success := 0; c_Failed := 0; c_Cached := 0; c_Issues := 0;
               c_Empty := 1 |}).
Proof.
  apply (unchanged_file_is_skipped plain_options 0
           (cache_of [{| InputFileName := "h-a-1-FileItem.xml";
                         InputFileSize := 120; Status := "ignored/empty" |}])
           {| OutputDirectory := "out";
              XMLFiles := [{| InputFileName := "h-a-1-FileItem.xml";
                              InputFileSize := 120;
                              Status := "ignored/empty" |}];
              ArchiveFiles := [] |}
           {| Name := "h-a-1-FileItem.xml"; Size := 120 |}
           {| InputFileName := "h-a-1-FileItem.xml"; InputFileSize := 120;
              Status := "ignored/empty" |});
    try reflexivity.
  rewrite !list_elem_of_In. cbn. tauto.
Defined.
(** ** Further properties: the cache and the work list *)

Lemma string_app_length (s t : string) :
  String.length (s ++ t) = (String.length s + String.length t)%nat.
Proof.
  induction s as [|c s IH]; [done|].
  change (String.length (String c (s ++ t))
          = S (String.length s + String.length t)).
  cbn. by rewrite IH.
Qed.

Lemma free_of_cons (phrase : string) (phrases : list string) (name : string) :
  free_of (phrase :: phrases) name
  ↔ Contains name phrase = false ∧ free_of phrases name.
Proof. unfold free_of. by rewrite Forall_cons. Qed.



(** X2.  The status stored for a worker's message is the status the cache
    answers for that file afterwards, whether the file had an entry or
    not; what the cache answers for files of another name or size is not
    changed; and the update does not fail when the directory index is
    inside the cache. *)
Theorem stored_status_is_answered (dirIndex : Z) (xmlfile : FileInfo)
    (msg : string) (extra : bool) (config : Parse_Config_JSON) :
  is_Some (directory_at config dirIndex) →
  ∃ config',
    ParseConfigUpdateXMLParse dirIndex xmlfile msg extra config = Some config'
    ∧ InputConfig_GetXMLParseFileStatus xmlfile dirIndex config'
      = Some (config', status_of_message msg)
    ∧ ∀ g, (Base (Name g), Size g) ≠ (Base (Name xmlfile), Size xmlfile) →
           recorded_status config' dirIndex g
           = recorded_status config dirIndex g.
Proof.
  intros Hdir.
  destruct (update_then_lookup dirIndex xmlfile msg extra config Hdir)
    as (config' & Hup & [dir' Hdir'] & Hst & Hothers).
  exists config'. split; [done|]. split; [|done].
  rewrite (recorded_status_eq _ _ _ dir') in Hst by done.
  rewrite InputConfig_GetXMLParseFileStatus_eq.
  rewrite (InputConfig_GetXMLParseConfig_eq _ _ _ dir') by done.
  destruct (first_entry _ _ (XMLFiles dir')) as [e|] eqn:He;
    cbn [mbind option_bind]; [by rewrite Hst|].
  (* the status just stored has an entry *)
  exfalso. unfold ParseConfigUpdateXMLParse in Hup. cbv zeta in Hup.
  destruct Hdir as [dir Hdir]. rewrite Hdir in Hup.
  cbn [mbind option_bind] in Hup.
  pose proof (find_xmlfile_spec (Base (Name xmlfile)) (Size xmlfile)
                (XMLFiles dir) 0) as Hspec.
  destruct (find_xmlfile _ _ (XMLFiles dir) 0) as [k|] eqn:Hfind.
  - destruct Hspec as (_ & Hk & [e0 He0]). rewrite Nat.sub_0_r in Hk.
    rewrite Hk, He0 in Hup. cbn [mbind option_bind] in Hup.
    injection Hup as <-.
    rewrite (directory_at_set _ _ dir) in Hdir' by done.
    injection Hdir' as <-. cbn [XMLFiles] in He.
    destruct (first_entry_update _ _ (status_of_message msg) _ _ _ Hfind)
      as [H1 _]. rewrite Nat.sub_0_r in H1. by rewrite H1, He0 in He.
  - rewrite alter_last, length_app in Hup. cbn [length] in Hup.
    rewrite lookup_app_r in Hup by lia.
    replace (length (XMLFiles dir) + 1 - 1 - length (XMLFiles dir))%nat
      with 0%nat in Hup by lia.
    cbn [lookup list_lookup mbind option_bind] in Hup. injection Hup as <-.
    rewrite (directory_at_set _ _ dir) in Hdir' by done.
    injection Hdir' as <-. cbn [XMLFiles] in He.
    rewrite first_entry_app, Hspec in He. cbn in He.
    unfold same_file in He. cbn in He.
    by rewrite !bool_decide_eq_true_2 in He.
Qed.

Lemma stored_status_is_answered_witness :
  ∃ config',
    ParseConfigUpdateXMLParse 0 misnamed_file "File was split." false
      (cache_of []) = Some config'
    ∧ InputConfig_GetXMLParseFileStatus misnamed_file 0 config'
      = Some (config', status_of_message "File was split.")
    ∧ ∀ g, (Base (Name g), Size g)
           ≠ (Base (Name misnamed_file), Size misnamed_file) →
           recorded_status config' 0 g = recorded_status (cache_of []) 0 g.
Proof.
  apply (stored_status_is_answered 0 misnamed_file "File was split." false
           (cache_of [])).
  by eexists.
Defined.
(** X3.  Asking the cache for a file twice is asking once: the entry that
    a first lookup returns (found or appended as "failed/notattemptedyet")
    has the file's base name and size, and a second lookup returns the
    same entry and appends nothing.  The lookup fails only for a directory
    index outside the cache. *)
Theorem lookup_is_idempotent (file : FileInfo) (dirIndex : Z)
    (config : Parse_Config_JSON) :
  match InputConfig_GetXMLParseConfig file dirIndex config with
  | Some (config1, e) =>
      InputConfig_GetXMLParseConfig file dirIndex config1 = Some (config1, e)
      ∧ InputFileName e = Base (Name file) ∧ InputFileSize e = Size file
      ∧ ∃ dir, directory_at config dirIndex = Some dir
               ∧ (e ∈ XMLFiles dir ∨ Status e = "failed/notattemptedyet")
  | None => directory_at config dirIndex = None
  end.
Proof.
  destruct (directory_at config dirIndex) as [dir|] eqn:Hdir;
    [|unfold InputConfig_GetXMLParseConfig; by rewrite Hdir].
  rewrite (InputConfig_GetXMLParseConfig_eq _ _ _ dir) by done.
  destruct (first_entry _ _ (XMLFiles dir)) as [e|] eqn:He.
  - rewrite (InputConfig_GetXMLParseConfig_eq _ _ _ dir), He by done.
    destruct (first_entry_same _ _ _ _ He) as (Hn & Hs & Hin).
    split; [done|]. split; [done|]. split; [done|]. eauto.
  - erewrite InputConfig_GetXMLParseConfig_eq by (by apply directory_at_set).
    cbn [XMLFiles]. rewrite first_entry_app, He. cbn.
    unfold same_file. cbn. rewrite !bool_decide_eq_true_2 by done.
    cbn. repeat (split; [done|]). exists dir. eauto.
Qed.

(** X4.  With force-reparse or wipe-output set the loop removes nothing,
    not even a ".json" file, does not look at the cache (so it cannot fail
    on the directory index) and counts nothing. *)
Theorem forced_reparse_keeps_all (options : Options) (dirIndex : Z)
    (kept files : list FileInfo) (config : Parse_Config_JSON) (c : Counts) :
  ForceReparse options || WipeOutput options = true →
  remove_parsed options dirIndex kept files config c
  = Some (kept ++ files, config, c).
Proof.
  intros Hflag. revert kept.
  induction files as [|file files IH]; intros kept; cbn [remove_parsed].
  - by rewrite app_nil_r.
  - rewrite Hflag, IH, <- app_assoc. done.
Qed.

Lemma forced_reparse_keeps_all_witness :
  remove_parsed
    {| Config := no_config; ReplaceNewLineFeeds := false; ForceReparse := true;
       ExcelFriendly := false; WipeOutput := false |}
    7 [] [json_file; misnamed_file] (cache_of [json_entry]) no_counts
  = Some ([] ++ [json_file; misnamed_file], cache_of [json_entry], no_counts).
Proof.
  apply (forced_reparse_keeps_all
           {| Config := no_config; ReplaceNewLineFeeds := false;
              ForceReparse := true; ExcelFriendly := false;
              WipeOutput := false |}
           7 [] [json_file; misnamed_file] (cache_of [json_entry]) no_counts).
  reflexivity.
Defined.

Lemma find_directory_spec (path : string)
    (dirs : list Parse_Config_OutputDirectory) (i : nat) :
  match find_directory path dirs i with
  | Some k =>
      (i ≤ k)%nat
      ∧ (∃ dir, dirs !! (k - i)%nat = Some dir ∧ OutputDirectory dir = path)
      ∧ ∀ j dir, (j < k - i)%nat → dirs !! j = Some dir →
                 OutputDirectory dir ≠ path
  | None => ∀ dir, dir ∈ dirs → OutputDirectory dir ≠ path
  end.
Proof.
  revert i. induction dirs as [|d dirs IH]; intros i; cbn [find_directory].
  - intros dir Hin. by apply elem_of_nil in Hin.
  - case_bool_decide as Hd.
    + rewrite Nat.sub_diag. split; [lia|]. split; [by exists d|]. lia.
    + specialize (IH (S i)). destruct (find_directory path dirs (S i)) as [k|].
      * destruct IH as (Hle & (dir & Hk & Hp) & Hbefore). split; [lia|].
        replace (k - i)%nat with (S (k - S i)) by lia. split; [by exists dir|].
        intros [|j] dir' Hj; cbn; [by intros [= <-]|].
        apply Hbefore. lia.
      * intros dir [->|Hin]%elem_of_cons; [done|by apply IH].
Qed.

(** X5.  [InputConfig_GetOutDirIndex] returns an index inside the cache
    whose directory has the path asked for; it is the first such
    directory, and when one is appended it is empty; the directories that
    were there stay where they were; and asking again returns the same
    index and changes nothing. *)
Theorem out_dir_index_is_valid (path : string) (config : Parse_Config_JSON) :
  ∃ dir,
    directory_at (InputConfig_GetOutDirIndex path config).1
      (InputConfig_GetOutDirIndex path config).2 = Some dir
    ∧ OutputDirectory dir = path
    ∧ (dir ∈ OutputDirectories config ∨ XMLFiles dir = [])
    ∧ (∀ j d, OutputDirectories config !! j = Some d →
         OutputDirectories (InputConfig_GetOutDirIndex path config).1 !! j
         = Some d)
    ∧ (∀ j d, (Z.of_nat j < (InputConfig_GetOutDirIndex path config).2) →
         OutputDirectories config !! j = Some d → OutputDirectory d ≠ path)
    ∧ InputConfig_GetOutDirIndex path
        (InputConfig_GetOutDirIndex path config).1
      = InputConfig_GetOutDirIndex path config.
Proof.
  unfold InputConfig_GetOutDirIndex.
  pose proof (find_directory_spec path (OutputDirectories config) 0) as Hspec.
  destruct (find_directory path (OutputDirectories config) 0) as [k|] eqn:Hfind.
  - destruct Hspec as (_ & (dir & Hk & Hp) & Hbefore).
    rewrite Nat.sub_0_r in Hk, Hbefore. cbn [fst snd]. exists dir.
    unfold directory_at. destruct (Z.ltb_spec (Z.of_nat k) 0); [lia|].
    rewrite Nat2Z.id. split; [done|]. split; [done|].
    split; [left; by eapply list_elem_of_lookup_2|]. split; [done|].
    split; [intros j d Hj; apply Hbefore; lia|].
    by rewrite Hfind.
  - cbn [fst snd OutputDirectories]. eexists.
    unfold directory_at. cbn [OutputDirectories].
    rewrite length_app. cbn [length].
    destruct (Z.ltb_spec
                (Z.of_nat (length (OutputDirectories config) + 1) - 1) 0)
      as [Hneg|Hpos].
    + (* cannot be: the index is that of the appended directory *)
      lia.
    +
      replace (Z.to_nat (Z.of_nat (length (OutputDirectories config) + 1) - 1))
        with (length (OutputDirectories config) + 0)%nat by lia.
      rewrite lookup_app_r by lia.
      replace (length (OutputDirectories config) + 0
               - length (OutputDirectories config))%nat with 0%nat by lia.
      split; [reflexivity|]. split; [done|]. split; [by right|].
      split; [intros j d Hj; by apply lookup_app_l_Some|].
      split.
      * intros j d _ Hj. apply Hspec. by eapply list_elem_of_lookup_2.
      * pose proof (find_directory_spec path
          (OutputDirectories config
           ++ [{| OutputDirectory := path; XMLFiles := [];
                  ArchiveFiles := [] |}]) 0) as Hspec2.
        destruct (find_directory path (OutputDirectories config ++ _) 0)
          as [k|] eqn:Hfind2.
        -- destruct Hspec2 as (_ & (dir & Hk & Hp) & Hbefore).
           rewrite Nat.sub_0_r in Hk, Hbefore. f_equal.
           destruct (decide (k < length (OutputDirectories config))%nat)
             as [Hlt|Hge].
           ++ rewrite lookup_app_l in Hk by done.
              exfalso. apply (Hspec dir); [|done].
              by eapply list_elem_of_lookup_2.
           ++ apply lookup_lt_Some in Hk. rewrite length_app in Hk.
              cbn in Hk. lia.
        -- exfalso.
           apply (Hspec2 {| OutputDirectory := path; XMLFiles := [];
                            ArchiveFiles := [] |}); [|reflexivity].
           apply elem_of_app. right. by left.
Qed.
(** ** Further properties: values and columns *)

(** X6.  The in-place removal loop over the omit-list does not panic on a
    list of distinct names and leaves exactly the names that are not on
    the omit-list: no other name is lost, none is doubled by the shifting,
    and the names that stay keep their order. *)
Theorem omit_loop_is_a_filter (omitted remainingHeaders : list string) :
  NoDup remainingHeaders →
  ∃ result,
    omit_headers omitted remainingHeaders = Some result
    ∧ result = filter (λ h, h ∉ omitted) remainingHeaders
    ∧ (∀ h, h ∈ result ↔ h ∈ remainingHeaders ∧ h ∉ omitted)
    ∧ NoDup result
    ∧ sublist result remainingHeaders.
Proof.
  intros Hnd. eexists. split; [by apply omit_headers_eq|].
  split; [done|]. split; [|split].
  - intros h. rewrite list_elem_of_filter. tauto.
  - by apply NoDup_filter.
  - apply sublist_filter.
Qed.

Lemma omit_loop_is_a_filter_witness :
  ∃ result,
    omit_headers ["b"; "zz"; "d"] ["a"; "b"; "c"; "d"] = Some result
    ∧ result = filter (λ h, h ∉ ["b"; "zz"; "d"]) ["a"; "b"; "c"; "d"]
    ∧ (∀ h, h ∈ result ↔ h ∈ ["a"; "b"; "c"; "d"] ∧ h ∉ ["b"; "zz"; "d"])
    ∧ NoDup result
    ∧ sublist result ["a"; "b"; "c"; "d"].
Proof.
  apply (omit_loop_is_a_filter ["b"; "zz"; "d"] ["a"; "b"; "c"; "d"]).
  apply (bool_decide_unpack (NoDup ["a"; "b"; "c"; "d"])). vm_compute.
  exact I.
Defined.

Lemma fractional_is_stable (s : string) :
  is_fractional_stamp s = true →
  parse_time_value (parse_time_value s) = parse_time_value s.
Proof.
  intros F. pose proof (fractional_len _ F) as L. unfold len in L.
  unfold parse_time_value. rewrite !parse_time_eq. cbn [from_option id].
  rewrite F.
  assert (String.length s = 23%nat ∨ String.length s = 24%nat) as [L'|L']
    by lia; clear L; explode s L'.
  - revert F. vm_compute. intros F. rewrite F. reflexivity.
  - revert F. vm_compute. intros F. rewrite F. reflexivity.
Qed.

Lemma seconds_is_stable (s : string) :
  is_fractional_stamp s = false → is_seconds_stamp s = true →
  parse_time_value (parse_time_value s) = parse_time_value s.
Proof.
  intros F S. pose proof (seconds_len _ S) as L. unfold len in L.
  unfold parse_time_value. rewrite !parse_time_eq. cbn [from_option id].
  rewrite F, S.
  assert (String.length s = 19%nat ∨ String.length s = 20%nat) as [L'|L']
    by lia; clear L F; explode s L'.
  - revert S. vm_compute. intros S. rewrite S. reflexivity.
  - revert S. vm_compute. intros S. rewrite S. reflexivity.
Qed.

(** X7.  Normalizing a timestamp twice is normalizing it once: what
    [parse_time] returns still has the shape it came from, with the space
    already in place and nothing left to cut. *)
Theorem parse_time_is_idempotent (timevalue out : string) :
  parse_time timevalue = Some out → parse_time out = Some out.
Proof.
  rewrite !parse_time_value_eq. intros [= <-]. f_equal.
  destruct (is_fractional_stamp timevalue) eqn:F;
    [by apply fractional_is_stable|].
  destruct (is_seconds_stamp timevalue) eqn:S;
    [by apply seconds_is_stable|].
  unfold parse_time_value. rewrite !parse_time_eq. cbn [from_option id].
  rewrite F, S. cbn [from_option id]. by rewrite F, S.
Qed.

Lemma parse_time_is_idempotent_witness :
  parse_time "2019-12-19 11:11:45.299" = Some "2019-12-19 11:11:45.299".
Proof.
  apply (parse_time_is_idempotent "2019-12-19T11:11:45.299Z").
  reflexivity.
Defined.

Lemma has_byte_app (q : ascii) (s t : string) :
  has_byte q (s ++ t) = has_byte q s || has_byte q t.
Proof.
  induction s as [|c s IH]; [done|].
  change (has_byte q (String c (s ++ t))
          = has_byte q (String c s) || has_byte q t).
  cbn. by rewrite IH, orb_assoc.
Qed.

(** Replacing a single byte leaves none of it, and brings in no byte that
    neither the text nor the replacement had. *)
Lemma replace_byte_gone (q : ascii) (s new : string) :
  has_byte q new = false → has_byte q (Replace s (String q "") new) = false.
Proof.
  intros Hnew. unfold Replace. induction s as [|c s IH]; [done|].
  cbn [replace_from String.prefix].
  destruct (ascii_dec q c) as [->|Hne].
  - destruct s; cbn [String.prefix String.length Nat.sub];
      by rewrite has_byte_app, Hnew, IH.
  - cbn. rewrite IH. apply orb_false_iff. split; [|done].
    apply Ascii.eqb_neq. congruence.
Qed.

Lemma replace_from_keeps_out (q : ascii) (s old new : string) (skip : nat) :
  has_byte q s = false → has_byte q new = false →
  has_byte q (replace_from skip s old new) = false.
Proof.
  intros Hs Hnew. revert skip Hs.
  induction s as [|c s IH]; intros skip Hs; [done|].
  cbn in Hs. apply orb_false_iff in Hs as [Hc Hs].
  cbn [replace_from]. destruct skip as [|k]; [|by apply IH].
  destruct (String.prefix old (String c s)).
  - by rewrite has_byte_app, Hnew, IH.
  - cbn. by rewrite Hc, IH.
Qed.

(** X8.  With replace-newline-feeds set, the text either accumulator
    stores for a value holds no carriage return and no line feed, whatever
    the value was. *)
Theorem stored_value_is_one_line (options : Options) (value : string) :
  ReplaceNewLineFeeds options = true → one_line (stored_value options value).
Proof.
  intros Hflat. unfold stored_value, one_line. rewrite Hflat. split.
  - by apply replace_byte_gone.
  - apply replace_from_keeps_out; [|done]. by apply replace_byte_gone.
Qed.

Lemma stored_value_is_one_line_witness :
  one_line (stored_value flat_options
              ("a" +:+ CRLF +:+ "b" +:+ LF +:+ CR +:+ "c")).
Proof.
  apply (stored_value_is_one_line flat_options).
  reflexivity.
Defined.
(** ** Further properties: truncation and rendering *)

Lemma substring_of_app (x t : string) :
  String.substring 0 (String.length x) (x ++ t) = x.
Proof.
  induction x as [|c x IH].
  - change (String.substring 0 0 t = EmptyString). by destruct t.
  - change (String.substring 0 (S (String.length x)) (String c (x ++ t))
            = String c x).
    cbn [String.substring]. by rewrite IH.
Qed.

Lemma substring_length (n : nat) (s : string) :
  (n ≤ String.length s)%nat → String.length (String.substring 0 n s) = n.
Proof.
  revert n. induction s as [|c s IH]; intros [|n] Hn; cbn in *;
    [done|lia|done|].
  rewrite IH by lia. done.
Qed.

Lemma truncated_len (cell : string) : len (truncated cell) ≤ 32003.
Proof.
  unfold truncated. destruct (Z.ltb_spec 32000 (len cell)) as [L|L]; [|lia].
  unfold len in *. rewrite string_app_length.
  rewrite substring_length by lia. cbn [String.length]. lia.
Qed.

Lemma truncated_twice (cell : string) :
  truncated (truncated cell) = truncated cell.
Proof.
  unfold truncated at 2 3.
  destruct (Z.ltb_spec 32000 (len cell)) as [L|L];
    [|by apply truncated_short].
  unfold truncated.
  assert (String.length (String.substring 0 (Z.to_nat 32000) cell)
          = Z.to_nat 32000) as Hlen
    by (apply substring_length; unfold len in L; lia).
  destruct (Z.ltb_spec 32000
              (len (String.substring 0 (Z.to_nat 32000) cell +:+ "...")))
    as [_|L2].
  - f_equal. rewrite <- Hlen at 1. apply substring_of_app.
  - unfold len in L2. rewrite string_app_length, Hlen in L2.
    cbn [String.length] in L2. lia.
Qed.

Lemma truncated_table_twice (csvRows : list (list string)) :
  truncated_table (truncated_table csvRows) = truncated_table csvRows.
Proof.
  unfold truncated_table. rewrite <- list_fmap_compose.
  apply list_fmap_ext. intros _ row _. cbn.
  rewrite <- list_fmap_compose. apply list_fmap_ext. intros _ cell _.
  apply truncated_twice.
Qed.

Lemma excel_truncate_eq (options : Options) (csvRows : list (list string))
    (width : nat) :
  Forall (λ row, length row = width) csvRows →
  excel_truncate options csvRows
  = Some (if ExcelFriendly options then truncated_table csvRows else csvRows).
Proof.
  intros Hw. unfold excel_truncate. destruct (ExcelFriendly options); [|done].
  destruct csvRows as [|first rest]; [done|].
  apply truncate_rows_all. apply Forall_cons in Hw as [Hf Hr].
  constructor; [done|]. by rewrite Hf.
Qed.

(** X9.  Truncating a table a second time changes nothing, and with
    Excel-friendly mode on no cell of the result is longer than 32003
    bytes (32000 and the marker). *)
Theorem excel_truncation_is_idempotent (options : Options)
    (csvRows : list (list string)) (width : nat) :
  Forall (λ row, length row = width) csvRows →
  ∃ result,
    excel_truncate options csvRows = Some result
    ∧ excel_truncate options result = Some result
    ∧ Forall (λ row, length row = width) result
    ∧ (ExcelFriendly options = true →
       ∀ row cell, row ∈ result → cell ∈ row → len cell ≤ 32003).
Proof.
  intros Hw. eexists. split; [by apply (excel_truncate_eq _ _ width)|].
  assert (Forall (λ row : list string, length row = width)
            (truncated_table csvRows)) as Hw'.
  { unfold truncated_table. apply Forall_fmap.
    eapply Forall_impl; [exact Hw|]. intros row Hrow. cbn.
    by rewrite length_fmap. }
  destruct (ExcelFriendly options) eqn:Hx.
  - split; [|split; [done|]].
    + rewrite (excel_truncate_eq _ _ width), Hx by done.
      by rewrite truncated_table_twice.
    + intros _ row cell Hrow Hcell. unfold truncated_table in Hrow.
      apply list_elem_of_fmap in Hrow as (row0 & -> & _).
      apply list_elem_of_fmap in Hcell as (cell0 & -> & _).
      apply truncated_len.
  - split; [by rewrite (excel_truncate_eq _ _ width), Hx|].
    split; [done|]. intros [=].
Qed.

Lemma excel_truncation_is_idempotent_witness :
  ∃ result,
    excel_truncate excel_options [["a"; "b"]; ["c"; "d"]] = Some result
    ∧ excel_truncate excel_options result = Some result
    ∧ Forall (λ row, length row = 2%nat) result
    ∧ (ExcelFriendly excel_options = true →
       ∀ row cell, row ∈ result → cell ∈ row → len cell ≤ 32003).
Proof.
  apply (excel_truncation_is_idempotent excel_options
           [["a"; "b"]; ["c"; "d"]] 2).
  repeat constructor.
Defined.
Lemma unnamed_id_is_free (headers : gmap string Z) (row : gmap Z string) :
  consecutive_ids headers →
  (∀ colID, is_Some (row !! colID) → named_once headers colID) →
  row !! Z.of_nat (size headers) = None.
Proof.
  intros [Hrange _] Hrow.
  destruct (row !! Z.of_nat (size headers)) as [w|] eqn:Hw; [|done].
  destruct (Hrow (Z.of_nat (size headers))) as (n & Hn & _); [by eexists|].
  assert (0 ≤ Z.of_nat (size headers) < Z.of_nat (size headers))
    by (apply Hrange; eauto). lia.
Qed.

(** X10.  What the Normal accumulator stores under a column is what the
    renderer puts into that column: the text behind what the cell held,
    or the text alone for a fresh cell; the cells of every other column
    are rendered as before.  The columns "Hostname" and "AgentID" are not
    rendered from the row at all but from the file name. *)
Theorem stored_field_is_rendered (hostname agentid header value : string)
    (parts : list string) (headers : gmap string Z) (row : gmap Z string)
    (options : Options) (nl : bool) :
  consecutive_ids headers →
  (∀ colID, is_Some (row !! colID) → named_once headers colID) →
  dot_path parts header ∉ ["Hostname"; "AgentID"] →
  csv_cell hostname agentid
    (add_value_to_row_normal header value parts headers row options nl true).1
    (add_value_to_row_normal header value parts headers row options nl true).2
    (dot_path parts header)
  = match headers !! dot_path parts header with
    | Some colID =>
        match row !! colID with
        | Some written => written +:+ written_text options nl value
        | None => stored_value options value
        end
    | None => stored_value options value
    end
  ∧ (∀ other, other ≠ dot_path parts header →
       csv_cell hostname agentid
         (add_value_to_row_normal header value parts headers row options nl
            true).1
         (add_value_to_row_normal header value parts headers row options nl
            true).2 other
       = csv_cell hostname agentid headers row other)
  ∧ ∀ any_headers any_row,
      csv_cell hostname agentid any_headers any_row "Hostname" = hostname
      ∧ csv_cell hostname agentid any_headers any_row "AgentID" = agentid.
Proof.
  intros Hids Hrow Hname. rewrite add_value_to_row_normal_eq. cbv zeta.
  set (name := dot_path parts header) in *.
  assert (name ≠ "Hostname" ∧ name ≠ "AgentID") as [Hh Ha].
  { rewrite !not_elem_of_cons in Hname. tauto. }
  split; [|split; [|done]].
  - unfold csv_cell. rewrite !bool_decide_eq_false_2 by done. cbn [fst snd].
    destruct (headers !! name) as [colID|] eqn:Hn; cbn [from_option id].
    + rewrite Hn. destruct (row !! colID) as [written|].
      * by rewrite lookup_insert_eq.
      * by rewrite lookup_insert_eq.
    + rewrite lookup_insert_eq.
      rewrite (unnamed_id_is_free headers row) by done.
      by rewrite lookup_insert_eq.
  - intros other Hother. unfold csv_cell. cbn [fst snd].
    case_bool_decide; [done|]. case_bool_decide; [done|].
    destruct Hids as [Hrange Hinj].
    destruct (headers !! name) as [colID|] eqn:Hn; cbn [from_option id].
    + destruct (headers !! other) as [c|] eqn:Ho; [|done].
      assert (c ≠ colID) by (intros ->; apply Hother; eauto).
      destruct (row !! colID); by rewrite lookup_insert_ne.
    + rewrite lookup_insert_ne by done.
      destruct (headers !! other) as [c|] eqn:Ho; [|done].
      assert (0 ≤ c < Z.of_nat (size headers)) by (apply Hrange; eauto).
      destruct (row !! Z.of_nat (size headers));
        rewrite lookup_insert_ne by lia; done.
Qed.

Lemma stored_field_is_rendered_witness :
  csv_cell "host" "agent"
    (add_value_to_row_normal "Path" "b" [] (<["Path" := 0]> ∅)
       (<[0 := "a"]> ∅) plain_options true true).1
    (add_value_to_row_normal "Path" "b" [] (<["Path" := 0]> ∅)
       (<[0 := "a"]> ∅) plain_options true true).2
    (dot_path [] "Path")
  = match (<["Path" := 0]> ∅ : gmap string Z) !! dot_path [] "Path" with
    | Some colID =>
        match (<[0 := "a"]> ∅ : gmap Z string) !! colID with
        | Some written => written +:+ written_text plain_options true "b"
        | None => stored_value plain_options "b"
        end
    | None => stored_value plain_options "b"
    end
  ∧ (∀ other, other ≠ dot_path [] "Path" →
       csv_cell "host" "agent"
         (add_value_to_row_normal "Path" "b" [] (<["Path" := 0]> ∅)
            (<[0 := "a"]> ∅) plain_options true true).1
         (add_value_to_row_normal "Path" "b" [] (<["Path" := 0]> ∅)
            (<[0 := "a"]> ∅) plain_options true true).2 other
       = csv_cell "host" "agent" (<["Path" := 0]> ∅) (<[0 := "a"]> ∅) other)
  ∧ ∀ any_headers any_row,
      csv_cell "host" "agent" any_headers any_row "Hostname" = "host"
      ∧ csv_cell "host" "agent" any_headers any_row "AgentID" = "agent".
Proof.
  apply (stored_field_is_rendered "host" "agent" "Path" "b" []
           (<["Path" := 0]> ∅) (<[0 := "a"]> ∅) plain_options true).
  - pose proof (consecutive_ids_insert ∅ "Path" consecutive_ids_empty eq_refl)
      as H.
    rewrite map_size_empty in H. exact H.
  - intros colID [w Hw]. exists "Path".
    destruct (decide (colID = 0)) as [->|Hne].
    + split; [reflexivity|]. intros name' Hn'.
      destruct (decide (name' = "Path")) as [->|Hne']; [done|].
      by rewrite lookup_insert_ne, lookup_empty in Hn'.
    + by rewrite lookup_insert_ne, lookup_empty in Hw.
  - apply (bool_decide_unpack (dot_path [] "Path" ∉ ["Hostname"; "AgentID"])).
    vm_compute. exact I.
Defined.
Lemma first_value_appended (colID : Z) (sep text : string) (row : list RowValue) :
  colID ∈ colid <$> row →
  first_value colID (append_to_first colID sep text row).1
  = first_value colID row +:+ (sep +:+ text).
Proof.
  induction row as [|rv row IH]; cbn.
  - by intros ?%elem_of_nil.
  - destruct (Z.eqb_spec (colid rv) colID) as [E|E]; cbn.
    + intros _. by rewrite E, Z.eqb_refl.
    + intros [?|Hin]%elem_of_cons; [congruence|].
      destruct (append_to_first colID sep text row) as [rest found].
      cbn in *. destruct (Z.eqb_spec (colid rv) colID); [done|]. by apply IH.
Qed.

Lemma first_value_others (colID other : Z) (sep text : string)
    (row : list RowValue) :
  other ≠ colID →
  first_value other (append_to_first colID sep text row).1
  = first_value other row.
Proof.
  intros Hne. induction row as [|rv row IH]; cbn; [done|].
  destruct (Z.eqb_spec (colid rv) colID) as [E|E]; cbn.
  - destruct (Z.eqb_spec (colid rv) other); [congruence|done].
  - destruct (append_to_first colID sep text row) as [rest found]. cbn in *.
    by destruct (colid rv =? other).
Qed.

Lemma first_value_new (colID other : Z) (text : string) (row : list RowValue) :
  first_value other (row ++ [{| colid := colID; value := text |}])
  = if bool_decide (other ∈ colid <$> row) then first_value other row
    else if bool_decide (colID = other) then text else EmptyString.
Proof.
  induction row as [|rv row IH]; cbn.
  - rewrite bool_decide_eq_false_2 by (by intros ?%elem_of_nil).
    destruct (Z.eqb_spec colID other); by case_bool_decide.
  - destruct (Z.eqb_spec (colid rv) other) as [E|E].
    + rewrite bool_decide_eq_true_2; [done|]. rewrite E. by left.
    + rewrite IH. cbn [fmap list_fmap].
      assert (bool_decide (other ∈ colid rv :: (colid <$> row))
              = bool_decide (other ∈ colid <$> row)) as Hsame.
      { apply bool_decide_ext. rewrite elem_of_cons. split; [|by right].
        intros [?|?]; [congruence|done]. }
      fold (fmap (M:=list) colid row). by rewrite Hsame.
Qed.

(** X11.  What the event accumulator stores under a column is what the
    event renderer puts into that column, and the cells of every other
    column are rendered as before.  The columns "EventBufferType",
    "Hostname" and "AgentID" are not rendered from the row. *)
Theorem event_field_is_rendered (eventType hostname agentid field value : string)
    (headers : gmap string Z) (row : list RowValue) (options : Options)
    (nl : bool) :
  consecutive_ids headers →
  (∀ rv, rv ∈ row → named_once headers (colid rv)) →
  field ∉ ["EventBufferType"; "Hostname"; "AgentID"] →
  event_csv_cell eventType hostname agentid
    (add_value_to_row_eventbuffer field value headers row options nl).1
    (add_value_to_row_eventbuffer field value headers row options nl).2 field
  = match headers !! field with
    | Some colID =>
        if bool_decide (colID ∈ colid <$> row)
        then first_value colID row +:+ written_text options nl value
        else stored_value options value
    | None => stored_value options value
    end
  ∧ (∀ other, other ≠ field →
       event_csv_cell eventType hostname agentid
         (add_value_to_row_eventbuffer field value headers row options nl).1
         (add_value_to_row_eventbuffer field value headers row options nl).2
         other
       = event_csv_cell eventType hostname agentid headers row other)
  ∧ ∀ any_headers any_row,
      event_csv_cell eventType hostname agentid any_headers any_row
        "EventBufferType" = eventType
      ∧ event_csv_cell eventType hostname agentid any_headers any_row
          "Hostname" = hostname
      ∧ event_csv_cell eventType hostname agentid any_headers any_row
          "AgentID" = agentid.
Proof.
  intros [Hrange Hinj] Hrow Hfield.
  rewrite add_value_to_row_eventbuffer_eq. cbv zeta.
  assert (field ≠ "EventBufferType" ∧ field ≠ "Hostname" ∧ field ≠ "AgentID")
    as (He & Hh & Ha).
  { rewrite !not_elem_of_cons in Hfield. tauto. }
  assert (Z.of_nat (size headers) ∉ colid <$> row) as Hfree.
  { intros (rv & Hid & Hrv)%list_elem_of_fmap.
    destruct (Hrow rv Hrv) as (n & Hn & _).
    assert (0 ≤ colid rv < Z.of_nat (size headers))
      by (apply Hrange; eauto). lia. }
  set (sep := if nl then join_separator options else "").
  set (text := stored_value options value).
  split; [|split; [|done]].
  - unfold event_csv_cell. rewrite !bool_decide_eq_false_2 by done.
    cbn [fst snd].
    destruct (headers !! field) as [colID|] eqn:Hn; cbn [from_option id].
    + rewrite Hn.
      destruct (append_to_first colID sep text row).2 eqn:Hfound.
      * apply append_to_first_found in Hfound as (rv & Hrv & Hid).
        assert (colID ∈ colid <$> row) as Hin
          by (apply list_elem_of_fmap; eauto).
        rewrite bool_decide_eq_true_2 by done.
        by rewrite first_value_appended.
      * apply append_to_first_not_found in Hfound.
        rewrite bool_decide_eq_false_2 by done.
        rewrite first_value_new, bool_decide_eq_false_2 by done.
        by rewrite bool_decide_eq_true_2.
    + rewrite lookup_insert_eq.
      destruct (append_to_first (Z.of_nat (size headers)) sep text row).2
        eqn:Hfound.
      * apply append_to_first_found in Hfound as (rv & Hrv & Hid).
        exfalso. apply Hfree. apply list_elem_of_fmap. eauto.
      * rewrite first_value_new, bool_decide_eq_false_2 by done.
        by rewrite bool_decide_eq_true_2.
  - intros other Hother. unfold event_csv_cell. cbn [fst snd].
    repeat (case_bool_decide; [done|]).
    assert (∀ colID c, headers !! other = Some c → c ≠ colID →
      first_value c
        (if (append_to_first colID sep text row).2
         then (append_to_first colID sep text row).1
         else row ++ [{| colid := colID; value := text |}])
      = first_value c row) as Hframe.
    { intros colID c Hc Hne.
      destruct (append_to_first colID sep text row).2;
        [by apply first_value_others|].
      rewrite first_value_new. case_bool_decide as Hin; [done|].
      rewrite bool_decide_eq_false_2 by done.
      clear -Hin. induction row as [|rv row IH]; [done|]. cbn.
      destruct (Z.eqb_spec (colid rv) c) as [E|E].
      - exfalso. apply Hin. rewrite <- E. by left.
      - apply IH. intros ?. apply Hin. by right. }
    destruct (headers !! field) as [colID|] eqn:Hn; cbn [from_option id].
    + destruct (headers !! other) as [c|] eqn:Ho; [|done].
      apply (Hframe colID c); [done|]. intros ->. apply Hother. eauto.
    + rewrite lookup_insert_ne by done.
      destruct (headers !! other) as [c|] eqn:Ho; [|done].
      apply (Hframe _ c); [done|].
      assert (0 ≤ c < Z.of_nat (size headers)) by (apply Hrange; eauto). lia.
Qed.

Lemma event_field_is_rendered_witness :
  event_csv_cell "dnsLookupEvent" "host" "agent"
    (add_value_to_row_eventbuffer "Pid" "42" seeded_headers [] plain_options
       true).1
    (add_value_to_row_eventbuffer "Pid" "42" seeded_headers [] plain_options
       true).2 "Pid"
  = match seeded_headers !! "Pid" with
    | Some colID =>
        if bool_decide (colID ∈ colid <$> [])
        then first_value colID [] +:+ written_text plain_options true "42"
        else stored_value plain_options "42"
    | None => stored_value plain_options "42"
    end
  ∧ (∀ other, other ≠ "Pid" →
       event_csv_cell "dnsLookupEvent" "host" "agent"
         (add_value_to_row_eventbuffer "Pid" "42" seeded_headers []
            plain_options true).1
         (add_value_to_row_eventbuffer "Pid" "42" seeded_headers []
            plain_options true).2 other
       = event_csv_cell "dnsLookupEvent" "host" "agent" seeded_headers []
           other)
  ∧ ∀ any_headers any_row,
      event_csv_cell "dnsLookupEvent" "host" "agent" any_headers any_row
        "EventBufferType" = "dnsLookupEvent"
      ∧ event_csv_cell "dnsLookupEvent" "host" "agent" any_headers any_row
          "Hostname" = "host"
      ∧ event_csv_cell "dnsLookupEvent" "host" "agent" any_headers any_row
          "AgentID" = "agent".
Proof.
  apply (event_field_is_rendered "dnsLookupEvent" "host" "agent" "Pid" "42"
           seeded_headers [] plain_options true).
  - apply seeded_headers_ok.
  - intros rv Hrv. by apply elem_of_nil in Hrv.
  - apply (bool_decide_unpack
             ("Pid" ∉ ["EventBufferType"; "Hostname"; "AgentID"])).
    vm_compute. exact I.
Defined.
Lemma create_rows_width hostname agentid headers csvHeaders rows :
  Forall (λ row, length row = length csvHeaders)
    (create_rows hostname agentid headers csvHeaders rows).
Proof.
  unfold create_rows. apply Forall_fmap, Forall_true. intros row. cbn.
  by rewrite length_fmap.
Qed.

Lemma create_event_rows_width eventType hostname agentid headers csvHeaders rows :
  Forall (λ row, length row = length csvHeaders)
    (create_event_rows eventType hostname agentid headers csvHeaders rows).
Proof.
  unfold create_event_rows. constructor; [done|].
  apply Forall_fmap, Forall_true. intros row. cbn. by rewrite length_fmap.
Qed.

(** X12.  The truncation loop never runs off a rendered table: every row
    the renderers build has one cell per column of the header list, so
    the result is the table with every cell cut as the mode asks, for the
    Normal rows and for the event rows, whose first row is the header
    line itself (cut like a cell when Excel-friendly mode is on). *)
Theorem rendered_tables_are_truncated (options : Options)
    (eventType hostname agentid : string) (headers : gmap string Z)
    (csvHeaders : list string) (rows : list (gmap Z string))
    (event_rows : list (list RowValue)) :
  excel_truncate options
    (create_rows hostname agentid headers csvHeaders rows)
  = Some (if ExcelFriendly options
          then truncated_table
                 (create_rows hostname agentid headers csvHeaders rows)
          else create_rows hostname agentid headers csvHeaders rows)
  ∧ excel_truncate options
      (create_event_rows eventType hostname agentid headers csvHeaders
         event_rows)
    = Some (if ExcelFriendly options
            then (truncated <$> csvHeaders)
                 :: truncated_table
                      (tail (create_event_rows eventType hostname agentid
                               headers csvHeaders event_rows))
            else create_event_rows eventType hostname agentid headers
                   csvHeaders event_rows)
  ∧ length (create_rows hostname agentid headers csvHeaders rows)
    = length rows
  ∧ length (create_event_rows eventType hostname agentid headers csvHeaders
              event_rows)
    = S (length event_rows).
Proof.
  split; [|split; [|split]].
  - apply (excel_truncate_eq _ _ (length csvHeaders)), create_rows_width.
  - rewrite (excel_truncate_eq _ _ (length csvHeaders))
      by apply create_event_rows_width.
    done.
  - unfold create_rows. by rewrite length_fmap.
  - unfold create_event_rows. cbn. by rewrite length_fmap.
Qed.

Lemma truncate_columns_short (n j : nat) (row : list string) :
  (length row < j + n)%nat → (0 < n)%nat → truncate_columns n j row = None.
Proof.
  revert j row. induction n as [|n IH]; intros j row Hlen Hn; [lia|].
  cbn [truncate_columns].
  destruct (row !! j) as [cell|] eqn:Hj; [|done].
  cbn [mbind option_bind]. rewrite truncate_cell_eq. cbn [mbind option_bind].
  apply lookup_lt_Some in Hj.
  apply IH; [rewrite length_insert; lia|lia].
Qed.

Lemma truncate_columns_wide (n : nat) (row : list string) :
  (n ≤ length row)%nat →
  truncate_columns n 0 row = Some ((truncated <$> take n row) ++ drop n row).
Proof.
  intros Hn.
  destruct (truncate_columns_spec n 0 row) as (row' & -> & Hl & Hk); [lia|].
  f_equal. apply list_eq. intros k. rewrite Hk.
  destruct (decide (k < n)%nat) as [Hlt|Hge].
  - rewrite bool_decide_eq_true_2 by lia.
    rewrite lookup_app_l by (rewrite length_fmap, length_take; lia).
    by rewrite list_lookup_fmap, lookup_take_lt.
  - rewrite bool_decide_eq_false_2 by lia.
    rewrite lookup_app_r by (rewrite length_fmap, length_take; lia).
    rewrite length_fmap, length_take, lookup_drop. f_equal. lia.
Qed.

Lemma truncate_rows_cases (width : nat) (csvRows : list (list string)) :
  (0 < width)%nat →
  truncate_rows width csvRows
  = if decide (Forall (λ row, width ≤ length row)%nat csvRows)
    then Some ((λ row, (truncated <$> take width row) ++ drop width row)
               <$> csvRows)
    else None.
Proof.
  intros Hw. induction csvRows as [|row rest IH]; cbn [truncate_rows].
  - by rewrite decide_True by constructor.
  - destruct (decide (width ≤ length row)%nat) as [Hrow|Hrow].
    + rewrite truncate_columns_wide by done. cbn [mbind option_bind].
      rewrite IH. destruct (decide (Forall _ rest)) as [Hrest|Hrest].
      * by rewrite decide_True by (by constructor).
      * rewrite decide_False; [done|]. by intros [_ ?]%Forall_cons.
    + rewrite truncate_columns_short by lia. cbn [mbind option_bind].
      rewrite decide_False; [done|]. by intros [? _]%Forall_cons.
Qed.

(** X13.  The truncation loop takes the number of columns from the first
    row.  On a table with a row shorter than the first it runs off that
    row (an index panic); otherwise it returns, and in each row it cuts
    the cells of those columns only: cells further right stay as they
    are, however long. *)
Theorem truncation_follows_first_row (options : Options)
    (first : list string) (rest : list (list string)) :
  ExcelFriendly options = true →
  excel_truncate options (first :: rest)
  = if decide (Forall (λ row, length first ≤ length row)%nat rest)
    then Some ((λ row, (truncated <$> take (length first) row)
                       ++ drop (length first) row) <$> (first :: rest))
    else None.
Proof.
  intros Hx. unfold excel_truncate. rewrite Hx.
  destruct (decide (length first = 0)%nat) as [Hz|Hz].
  - rewrite Hz. rewrite decide_True
      by (apply Forall_true; intros; lia).
    assert (∀ rows : list (list string),
      truncate_rows 0 rows
      = Some ((λ row, (truncated <$> take 0 row) ++ drop 0 row) <$> rows))
      as H0.
    { induction rows as [|r rows IH]; [done|]. cbn [truncate_rows].
      cbn [truncate_columns mbind option_bind]. rewrite IH. done. }
    apply H0.
  - rewrite truncate_rows_cases by lia.
    destruct (decide (Forall _ rest)) as [Hrest|Hrest].
    + by rewrite decide_True by (by constructor).
    + rewrite decide_False; [done|]. by intros [_ ?]%Forall_cons.
Qed.

Lemma truncation_follows_first_row_witness :
  excel_truncate excel_options [["a"; "b"]; ["c"]]
  = if decide (Forall (λ row, length ["a"; "b"] ≤ length row)%nat [["c"]])
    then Some ((λ row, (truncated <$> take (length ["a"; "b"]) row)
                       ++ drop (length ["a"; "b"]) row)
               <$> [["a"; "b"]; ["c"]])
    else None.
Proof.
  apply (truncation_follows_first_row excel_options ["a"; "b"] [["c"]]).
  reflexivity.
Defined.
Lemma Contains_quoted (a n b m : string) :
  has_byte "'" m = false → m ≠ EmptyString →
  Contains (a ++ String "'" (n ++ String "'" b)) m
  = Contains a m || Contains n m || Contains b m.
Proof.
  intros Hq Hm.
  rewrite (Contains_app_guard "'" m a) by done.
  rewrite (Contains_behind_guard "'" m) by done.
  rewrite (Contains_app_guard "'" m n) by done.
  rewrite (Contains_behind_guard "'" m) by done.
  by rewrite orb_assoc.
Qed.

(** The tests on the fixed text of a message are evaluated; those on the
    file name are left. *)
Ltac fixed_text name :=
  repeat match goal with
  | |- context [Contains ?a ?b] =>
      lazymatch a with
      | name => fail
      | _ => let v := eval vm_compute in (Contains a b) in
             change (Contains a b) with v
      end
  end;
  cbn [orb]; rewrite ?orb_false_r, ?orb_true_r.

Ltac free_name H :=
  unfold free_of, all_phrases in H; rewrite !Forall_cons in H;
  destruct H as (? & ? & ? & ? & ? & ? & ? & ? & ? & ? & _).

(** X14.  For a file name that holds none of the phrases, the three other
    messages a worker ends with are classified alike by the cache and by
    the statistics: "parsed successfully" is stored as parsed and counted
    as a success, "already exists" is stored as parsed and counted as
    cached, and an issues file is stored as ignored/issues and counted
    under issues. *)
Theorem outcomes_are_classified_alike (minimizedOutput : bool)
    (xmlFileName : string) (verbose : Z) (c : Counts) (printed : list string) :
  free_of all_phrases xmlFileName →
  (status_of_message (success_message (Box minimizedOutput) xmlFileName)
   = "parsed"
   ∧ (count_message verbose
        (success_message (Box minimizedOutput) xmlFileName) (c, printed)).1
     = incr_Success c)
  ∧ (status_of_message (exists_message (Box minimizedOutput) xmlFileName)
     = "parsed"
     ∧ (count_message verbose
          (exists_message (Box minimizedOutput) xmlFileName) (c, printed)).1
       = incr_Cached c)
  ∧ (status_of_message (issues_message Warnbox xmlFileName)
     = "ignored/issues"
     ∧ (count_message verbose (issues_message Warnbox xmlFileName)
          (c, printed)).1
       = incr_Issues c).
Proof.
  intros Hfree. free_name Hfree.
  split; [|split].
  - destruct minimizedOutput.
    + change (success_message (Box true) xmlFileName)
        with ("[#] NOTICE - File "
              ++ String "'" (xmlFileName
                             ++ String "'" " parsed successfully."))%string.
      unfold status_of_message, count_message.
      rewrite !Contains_quoted by done. fixed_text xmlFileName.
      repeat match goal with
             | H : Contains xmlFileName _ = false |- _ => rewrite H; clear H
             end.
      cbn [orb]. by destruct (0 <? verbose).
    + change (success_message (Box false) xmlFileName)
        with ("[+] NOTICE - File "
              ++ String "'" (xmlFileName
                             ++ String "'" " parsed successfully."))%string.
      unfold status_of_message, count_message.
      rewrite !Contains_quoted by done. fixed_text xmlFileName.
      repeat match goal with
             | H : Contains xmlFileName _ = false |- _ => rewrite H; clear H
             end.
      cbn [orb]. by destruct (0 <? verbose).
  - destruct minimizedOutput.
    + change (exists_message (Box true) xmlFileName)
        with ("[#] NOTICE - Parsed audit for file "
              ++ String "'"
                   (xmlFileName
                    ++ String "'"
                         " already exists. Use '-f' flag to force reparse."))%string.
      unfold status_of_message, count_message.
      rewrite !Contains_quoted by done. fixed_text xmlFileName.
      repeat match goal with
             | H : Contains xmlFileName _ = false |- _ => rewrite H; clear H
             end.
      cbn [orb]. by destruct (0 <? verbose).
    + change (exists_message (Box false) xmlFileName)
        with ("[+] NOTICE - Parsed audit for file "
              ++ String "'"
                   (xmlFileName
                    ++ String "'"
                         " already exists. Use '-f' flag to force reparse."))%string.
      unfold status_of_message, count_message.
      rewrite !Contains_quoted by done. fixed_text xmlFileName.
      repeat match goal with
             | H : Contains xmlFileName _ = false |- _ => rewrite H; clear H
             end.
      cbn [orb]. by destruct (0 <? verbose).
  - change (issues_message Warnbox xmlFileName)
      with ("[!] NOTICE - Issues file "
            ++ String "'" (xmlFileName ++ String "'" " ignored."))%string.
    unfold status_of_message, count_message.
    rewrite !Contains_quoted by done. fixed_text xmlFileName.
    repeat match goal with
           | H : Contains xmlFileName _ = false |- _ => rewrite H; clear H
           end.
    cbn [orb]. by destruct (0 <? verbose).
Qed.

Lemma outcomes_are_classified_alike_witness :
  (status_of_message (success_message (Box false) "h-a-1-FileItem.xml")
   = "parsed"
   ∧ (count_message 0 (success_message (Box false) "h-a-1-FileItem.xml")
        (no_counts, [])).1
     = incr_Success no_counts)
  ∧ (status_of_message (exists_message (Box false) "h-a-1-FileItem.xml")
     = "parsed"
     ∧ (count_message 0 (exists_message (Box false) "h-a-1-FileItem.xml")
          (no_counts, [])).1
       = incr_Cached no_counts)
  ∧ (status_of_message (issues_message Warnbox "h-a-1-FileItem.xml")
     = "ignored/issues"
     ∧ (count_message 0 (issues_message Warnbox "h-a-1-FileItem.xml")
          (no_counts, [])).1
       = incr_Issues no_counts).
Proof.
  apply (outcomes_are_classified_alike false "h-a-1-FileItem.xml" 0
           no_counts []).
  unfold free_of, all_phrases. repeat constructor.
Defined.
Lemma probe_normal_count (lines : list string) :
  classify (probe lines) = Normal →
  row_count (probe lines) = Z.min 3 (Z.of_nat (length lines))
  ∧ (2 ≤ length lines)%nat.
Proof.
  destruct lines as [|line1 [|line2 rest]].
  - done.
  - unfold probe. cbn [probe_loop]. cbv zeta.
    change (0 + 1 =? 1) with true. cbn [andb].
    by destruct (HasPrefix (TrimSpace line1) "<?xml").
  - unfold probe. cbn [probe_loop]. cbv zeta.
    change (0 + 1 =? 1) with true. cbn [andb].
    destruct (HasPrefix (TrimSpace line1) "<?xml"); cbn [negb]; [|done].
    change (0 + 1 =? 2) with false. cbn iota.
    change (3 <=? 0 + 1) with false. cbn iota. cbn [probe_loop]. cbv zeta.
    change (0 + 1 + 1 =? 1) with false. cbn [andb].
    change (0 + 1 + 1 =? 2) with true. cbn iota.
    destruct (HasPrefix (ToLower (TrimSpace line2)) "<issuelist"); [done|].
    destruct (HasPrefix (ToLower (TrimSpace line2)) "<itemlist"); cbn [negb];
      [|done].
    change (3 <=? 0 + 1 + 1) with false. cbn iota.
    destruct rest as [|line3 rest]; cbn [probe_loop]; cbv zeta.
    + intros _. cbn. split; lia.
    + change (0 + 1 + 1 + 1 =? 1) with false. cbn [andb].
      change (0 + 1 + 1 + 1 =? 2) with false. cbn iota.
      change (3 <=? 0 + 1 + 1 + 1) with true. cbn iota.
      intros _. cbn [row_count length]. split; lia.
Qed.

(** X15.  A file the probe takes for a Normal audit has two lines at
    least.  With exactly two lines it is reported as empty by the check
    behind the probe; with three lines or more the check lets it pass,
    and the line the audit type is read from is the third line without
    its surrounding white space. *)
Theorem short_normal_file_is_empty (lines : list string) (threadNum : Z)
    (xmlFileName : string) (xmlFileSize : Z) :
  classify (probe lines) = Normal →
  (2 ≤ length lines)%nat
  ∧ (length lines = 2%nat →
     lines_check Warnbox threadNum xmlFileName xmlFileSize
       (row_count (probe lines))
     = Some {| threadnum := threadNum; xmlfile := xmlFileName;
               xmlsize := xmlFileSize;
               message := empty_message Warnbox xmlFileName |})
  ∧ (∀ line3, lines !! 2%nat = Some line3 →
       lines_check Warnbox threadNum xmlFileName xmlFileSize
         (row_count (probe lines)) = None
       ∧ itemListLine (probe lines) = TrimSpace line3).
Proof.
  intros Hn. destruct (probe_normal_count lines Hn) as [Hc Hl].
  split; [done|]. split.
  - intros H2. unfold lines_check. rewrite Hc, H2.
    by rewrite bool_decide_eq_true_2.
  - intros line3 H3. apply lookup_lt_Some in H3 as Hlen. split.
    + unfold lines_check. rewrite Hc.
      rewrite bool_decide_eq_false_2; [done|]. lia.
    + destruct lines as [|line1 [|line2 [|l3 rest]]]; try (cbn in Hlen; lia).
      cbn in H3. injection H3 as ->. revert Hn.
      unfold probe. cbn [probe_loop]. cbv zeta.
      change (0 + 1 =? 1) with true. cbn [andb].
      destruct (HasPrefix (TrimSpace line1) "<?xml"); cbn [negb]; [|done].
      change (0 + 1 =? 2) with false. cbn iota.
      change (3 <=? 0 + 1) with false. cbn iota. cbn [probe_loop]. cbv zeta.
      change (0 + 1 + 1 =? 1) with false. cbn [andb].
      change (0 + 1 + 1 =? 2) with true. cbn iota.
      destruct (HasPrefix (ToLower (TrimSpace line2)) "<issuelist"); [done|].
      destruct (HasPrefix (ToLower (TrimSpace line2)) "<itemlist");
        cbn [negb]; [|done].
      change (3 <=? 0 + 1 + 1) with false. cbn iota.
      cbn [probe_loop]. cbv zeta.
      change (0 + 1 + 1 + 1 =? 1) with false. cbn [andb].
      change (0 + 1 + 1 + 1 =? 2) with false. cbn iota.
      change (3 <=? 0 + 1 + 1 + 1) with true. cbn iota. done.
Qed.

Lemma short_normal_file_is_empty_witness :
  (2 ≤ length [xml_declaration; "<itemList>"])%nat
  ∧ (length [xml_declaration; "<itemList>"] = 2%nat →
     lines_check Warnbox 0 "h-a-1-FileItem.xml" 120
       (row_count (probe [xml_declaration; "<itemList>"]))
     = Some {| threadnum := 0; xmlfile := "h-a-1-FileItem.xml";
               xmlsize := 120;
               message := empty_message Warnbox "h-a-1-FileItem.xml" |})
  ∧ (∀ line3, [xml_declaration; "<itemList>"] !! 2%nat = Some line3 →
       lines_check Warnbox 0 "h-a-1-FileItem.xml" 120
         (row_count (probe [xml_declaration; "<itemList>"])) = None
       ∧ itemListLine (probe [xml_declaration; "<itemList>"])
         = TrimSpace line3).
Proof.
  apply (short_normal_file_is_empty [xml_declaration; "<itemList>"] 0
           "h-a-1-FileItem.xml" 120).
  reflexivity.
Defined.
(** X16.  The assembler repeats no column of its own accord and invents
    none: every column of the list is a configured one (mandatory,
    optional or ordered) or a discovered one, and when the configured
    columns placed first are distinct, the whole list is. *)
Theorem columns_are_not_repeated (event : bool) (config : Main_Config_JSON)
    (auditType : string) (headers : gmap string Z) (keys : list string)
    (sort_slice : list string → list string) :
  iteration_of headers keys → sorts_by_fold sort_slice →
  ∃ csvHeaders,
    csv_headers event config auditType headers keys sort_slice
    = Some csvHeaders
    ∧ (NoDup (placed_columns event config auditType headers) →
       NoDup csvHeaders)
    ∧ ∀ h, h ∈ csvHeaders →
           h ∈ HeadersMandatory config ∨ h ∈ HeadersOptional config
           ∨ (∃ c, find_config (AuditHeaderConfigs config) auditType = Some c
                   ∧ h ∈ HeaderOrder c)
           ∨ is_Some (headers !! h).
Proof.
  intros Hk Hs. eexists. split; [apply csv_headers_eq; [apply Hk|done]|].
  split.
  - intros Hnd. destruct (OmitUnlisted config); [by rewrite app_nil_r|].
    apply NoDup_app. split; [done|]. split.
    + intros h Hp Hu.
      apply (unlisted_columns_elem _ _ _ headers) in Hu as (_ & Hno & _);
        done.
    + by apply (unlisted_columns_NoDup _ _ _ headers).
  - intros h [Hp|Hu]%elem_of_app.
    + unfold placed_columns in Hp.
      apply elem_of_app in Hp as [[Hm|Ho]%elem_of_app|Hc]; [by left| |].
      * right. left. unfold optional_headers in Ho.
        by apply list_elem_of_filter in Ho as [_ ?].
      * right. right. left.
        destruct (find_config _ _) as [c|]; [eauto|by apply elem_of_nil in Hc].
    + right. right. right. destruct (OmitUnlisted config);
        [by apply elem_of_nil in Hu|].
      by apply (unlisted_columns_elem _ _ _ headers) in Hu as (? & _).
Qed.

Lemma columns_are_not_repeated_witness :
  ∃ csvHeaders,
    csv_headers true default_config "EventItem_x" seeded_headers
      ["AgentID"; "Hostname"] insertion_sort
    = Some csvHeaders
    ∧ (NoDup (placed_columns true default_config "EventItem_x" seeded_headers) →
       NoDup csvHeaders)
    ∧ ∀ h, h ∈ csvHeaders →
           h ∈ HeadersMandatory default_config
           ∨ h ∈ HeadersOptional default_config
           ∨ (∃ c, find_config (AuditHeaderConfigs default_config)
                     "EventItem_x" = Some c
                   ∧ h ∈ HeaderOrder c)
           ∨ is_Some (seeded_headers !! h).
Proof.
  apply (columns_are_not_repeated true default_config "EventItem_x"
           seeded_headers ["AgentID"; "Hostname"] insertion_sort).
  - apply iteration_of_insert; [|reflexivity].
    apply iteration_of_insert; [apply iteration_of_empty|reflexivity].
  - apply insertion_sort_sorts.
Defined.
(** ** Further properties: the audit type and the file name *)

Lemma tag_run_Some (s run : string) :
  tag_run s = Some run →
  has_byte " " run = false ∧ has_byte ">" run = false
  ∧ ∃ e behind, s = run +:+ String e behind ∧ is_tag_end e = true.
Proof.
  revert run. induction s as [|c s IH]; intros run; cbn [tag_run]; [done|].
  destruct (is_tag_end c) eqn:Hc.
  - intros [= <-]. split; [done|]. split; [done|]. by exists c, s.
  - destruct (tag_run s) as [r|]; [|done]. cbn. intros [= <-].
    destruct (IH r eq_refl) as (H1 & H2 & e & behind & -> & He).
    unfold is_tag_end in Hc. apply orb_false_iff in Hc as [Hc1 Hc2].
    cbn. rewrite Hc1, Hc2, H1, H2. split; [done|]. split; [done|].
    by exists e, behind.
Qed.

Lemma tag_run_app (name behind : string) (e : ascii) :
  has_byte " " name = false → has_byte ">" name = false →
  is_tag_end e = true → tag_run (name +:+ String e behind) = Some name.
Proof.
  intros H1 H2 He. induction name as [|c name IH].
  - change (tag_run (String e behind) = Some EmptyString). cbn. by rewrite He.
  - change (tag_run (String c (name +:+ String e behind))
            = Some (String c name)).
    cbn in H1, H2. apply orb_false_iff in H1 as [Hc1 H1].
    apply orb_false_iff in H2 as [Hc2 H2].
    cbn [tag_run]. unfold is_tag_end at 1. rewrite Hc1, Hc2. cbn [orb].
    by rewrite IH.
Qed.

(** X17.  The audit type of a Normal file is the name in the first tag
    of the line: whatever [FindAuditType] returns is not empty, holds no
    space and no ['>'], and stands in the line between a ['<'] and a
    space or ['>']; and for a line that opens with text free of ['<'],
    then ['<'], a non-empty name and a space or ['>'], the name is what
    is returned. *)
Theorem audit_type_is_first_tag :
  (∀ line auditType, FindAuditType line = Some auditType →
     auditType ≠ EmptyString
     ∧ has_byte " " auditType = false ∧ has_byte ">" auditType = false
     ∧ ∃ before e behind,
         line = before +:+ String "<" (auditType +:+ String e behind)
         ∧ is_tag_end e = true)
  ∧ (∀ before name e behind,
       has_byte "<" before = false → name ≠ EmptyString →
       has_byte " " name = false → has_byte ">" name = false →
       is_tag_end e = true →
       FindAuditType (before +:+ String "<" (name +:+ String e behind))
       = Some name).
Proof.
  split.
  - induction line as [|c line IH]; intros auditType; cbn [FindAuditType];
      [done|].
    assert (FindAuditType line = Some auditType →
      auditType ≠ EmptyString
      ∧ has_byte " " auditType = false ∧ has_byte ">" auditType = false
      ∧ ∃ before e behind,
          String c line = before +:+ String "<" (auditType +:+ String e behind)
          ∧ is_tag_end e = true) as Hlater.
    { intros H. destruct (IH _ H) as (H0 & H1 & H2 & b & e & behind & -> & He).
      split; [done|]. split; [done|]. split; [done|].
      by exists (String c b), e, behind. }
    destruct (Ascii.eqb_spec c "<") as [->|Hc]; [|done].
    destruct (tag_run line) as [[|a run]|] eqn:Hrun; [done| |done].
    intros [= <-].
    destruct (tag_run_Some _ _ Hrun) as (H1 & H2 & e & behind & -> & He).
    split; [done|]. split; [done|]. split; [done|].
    by exists EmptyString, e, behind.
  - intros before name e behind Hb Hn H1 H2 He.
    induction before as [|c before IH].
    + change (FindAuditType (String "<" (name +:+ String e behind))
              = Some name).
      cbn [FindAuditType]. rewrite Ascii.eqb_refl, tag_run_app by done.
      by destruct name.
    + change (FindAuditType
                (String c (before +:+ String "<" (name +:+ String e behind)))
              = Some name).
      cbn in Hb. apply orb_false_iff in Hb as [Hc Hb].
      cbn [FindAuditType]. rewrite Hc. by apply IH.
Qed.
Lemma string_app_assoc (a b c : string) : (a +:+ b) +:+ c = a +:+ (b +:+ c).
Proof.
  induction a as [|x a IH]; [done|].
  change (String x ((a +:+ b) +:+ c) = String x (a +:+ (b +:+ c))).
  by rewrite IH.
Qed.

Lemma prefix_of_app (x y : string) : String.prefix x (x +:+ y) = true.
Proof.
  induction x as [|c x IH]; [by destruct y|].
  change (String.prefix (String c x) (String c (x +:+ y)) = true).
  cbn. by destruct (ascii_dec c c).
Qed.

Lemma rev_app_acc (s acc : string) :
  String.rev_app s acc = String.rev_app s "" +:+ acc.
Proof.
  revert acc. induction s as [|c s IH]; intros acc; [done|].
  cbn. rewrite IH, (IH (String c "")). by rewrite string_app_assoc.
Qed.

Lemma rev_app_app (s t acc : string) :
  String.rev_app (s +:+ t) acc = String.rev_app t (String.rev_app s acc).
Proof.
  revert acc. induction s as [|c s IH]; intros acc; [done|].
  change (String.rev_app (String c (s +:+ t)) acc
          = String.rev_app t (String.rev_app (String c s) acc)).
  cbn. by rewrite IH.
Qed.

Lemma HasSuffix_app (s suffix : string) : HasSuffix (s +:+ suffix) suffix = true.
Proof.
  unfold HasSuffix, String.rev. rewrite rev_app_app.
  rewrite (rev_app_acc suffix (String.rev_app s "")).
  apply prefix_of_app.
Qed.

Lemma TrimSuffix_app (s suffix : string) : TrimSuffix (s +:+ suffix) suffix = s.
Proof.
  unfold TrimSuffix. rewrite HasSuffix_app, string_app_length.
  replace (String.length s + String.length suffix - String.length suffix)%nat
    with (String.length s) by lia.
  apply substring_of_app.
Qed.

Lemma Split_cons (s : string) (sep : ascii) :
  ∃ piece pieces, Split s sep = piece :: pieces.
Proof.
  induction s as [|c s (p & ps & IH)]; cbn; [by eexists _, _|].
  destruct (Ascii.eqb c sep); [by eexists _, _|]. rewrite IH. by eexists _, _.
Qed.

Lemma Split_free (s : string) (sep : ascii) :
  has_byte sep s = false → Split s sep = [s].
Proof.
  induction s as [|c s IH]; cbn; [done|]. intros [Hc Hs]%orb_false_iff.
  by rewrite Hc, IH.
Qed.

Lemma Split_app (x y : string) (sep : ascii) :
  Split (x +:+ String sep y) sep = Split x sep ++ Split y sep.
Proof.
  induction x as [|c x IH].
  - change (Split (String sep y) sep = [EmptyString] ++ Split y sep).
    cbn. by rewrite Ascii.eqb_refl.
  - change (Split (String c (x +:+ String sep y)) sep
            = Split (String c x) sep ++ Split y sep).
    cbn [Split]. rewrite IH. destruct (Ascii.eqb c sep); [done|].
    by destruct (Split_cons x sep) as (p & ps & ->).
Qed.

Lemma Join_Split (s : string) (sep : ascii) :
  Join (Split s sep) (String sep "") = s.
Proof.
  unfold Join. induction s as [|c s IH]; [done|]. cbn [Split].
  destruct (Split_cons s sep) as (p & ps & Hs). rewrite Hs in *.
  destruct (Ascii.eqb_spec c sep) as [->|Hc].
  - change (String sep (String.concat (String sep "") (p :: ps))
            = String sep s).
    by rewrite IH.
  - destruct ps as [|q ps].
    + change (String c p = String c s). f_equal. exact IH.
    + change (String c (String.concat (String sep "") (p :: q :: ps))
              = String c s).
      by rewrite IH.
Qed.



Lemma alnum_run_app (agent behind : string) :
  only_bytes is_alnum agent →
  alnum_run (String.length agent) (agent +:+ behind) = Some (agent, behind).
Proof.
  induction agent as [|c agent IH]; [done|].
  change (String.length (String c agent)) with (S (String.length agent)).
  change (String c agent +:+ behind) with (String c (agent +:+ behind)).
  cbn. intros [Hc Hrest]%andb_true_iff. rewrite Hc, IH by done. done.
Qed.

Lemma to_line_end_free (s : string) :
  has_byte "010" s = false → to_line_end s = s.
Proof.
  induction s as [|c s IH]; cbn; [done|]. intros [Hc Hs]%orb_false_iff.
  by rewrite Hc, IH.
Qed.


(** ** Further properties: the fix of the log audits *)

Lemma log_columns_spec (csvHeaders : list string) (i a m : Z) :
  0 ≤ i → (a = -1 ∨ 0 ≤ a < i) → (m = -1 ∨ 0 ≤ m < i) →
  ((log_columns csvHeaders i a m).1 = -1
   ∨ 0 ≤ (log_columns csvHeaders i a m).1 < i + Z.of_nat (length csvHeaders))
  ∧ ((log_columns csvHeaders i a m).2 = -1
     ∨ 0 ≤ (log_columns csvHeaders i a m).2
       < i + Z.of_nat (length csvHeaders))
  ∧ ((log_columns csvHeaders i a m).1 = -1
     ↔ a = -1 ∧ "args.arg" ∉ csvHeaders)
  ∧ ((log_columns csvHeaders i a m).2 = -1 ↔ m = -1 ∧ "msg" ∉ csvHeaders).
Proof.
  revert i a m. induction csvHeaders as [|h hs IH]; intros i a m Hi Ha Hm.
  - cbn. split; [lia|]. split; [lia|].
    split; (split; [intros ->; split; [done|apply not_elem_of_nil]|tauto]).
  - cbn [log_columns length]. rewrite !not_elem_of_cons.
    case_bool_decide as Harg; [|case_bool_decide as Hmsg].
    + destruct (IH (i + 1) i m) as (H1 & H2 & H3 & H4); [lia..|].
      split; [lia|]. split; [lia|]. split.
      * rewrite H3. split; [lia|]. intros [_ [? _]]. congruence.
      * rewrite H4. subst h. split; [intros [? ?]|intros [? [_ ?]]]; done.
    + destruct (IH (i + 1) a i) as (H1 & H2 & H3 & H4); [lia..|].
      split; [lia|]. split; [lia|]. split.
      * rewrite H3. subst h. split; [intros [? ?]|intros [? [_ ?]]]; done.
      * rewrite H4. split; [lia|]. intros [_ [? _]]. congruence.
    + destruct (IH (i + 1) a m) as (H1 & H2 & H3 & H4); [lia..|].
      split; [lia|]. split; [lia|]. split.
      * rewrite H3. split; [intros [? ?]|intros [? [_ ?]]]; split; (done || congruence).
      * rewrite H4. split; [intros [? ?]|intros [? [_ ?]]]; split; (done || congruence).
Qed.

Lemma add_msg_full_spec (options : Options) (a m width : nat)
    (csvRows : list (list string)) :
  (a < width)%nat → (m < width)%nat →
  Forall (λ row, length row = width) csvRows →
  ∃ rows',
    add_msg_full options a m csvRows = Some rows'
    ∧ Forall2 (λ row row',
        ∃ cell msg, row !! a = Some cell ∧ row !! m = Some msg
          ∧ row' = row ++ [fill_args msg (Split cell (log_separator options)) 0])
        csvRows rows'
    ∧ Forall (λ row, length row = S width) rows'.
Proof.
  intros Ha Hm. induction 1 as [|row rest Hrow _ (rows' & IH & H2 & Hw)].
  - exists []. by repeat split; constructor.
  - cbn [add_msg_full].
    destruct (lookup_lt_is_Some_2 row a) as [cell Hcell]; [lia|].
    destruct (lookup_lt_is_Some_2 row m) as [msg Hmsg]; [lia|].
    rewrite Hcell, Hmsg, IH. cbn [mbind option_bind]. eexists.
    split; [done|]. split.
    + constructor; [|done]. by exists cell, msg.
    + constructor; [|done]. rewrite length_app. cbn. lia.
Qed.

(** X20.  On a rendered table the log fix never fails.  It applies only
    to an audit type that is "log" ignoring case whose columns include
    both "args.arg" and "msg": then the header list grows by "msg_full"
    and every row by one cell, the message filled from the arguments of
    that row, the other cells staying as they were; in every other case
    headers and rows come back unchanged.  Either way each row still has
    one cell per header. *)
Theorem log_fix_adds_one_column (options : Options) (auditType : string)
    (csvHeaders : list string) (csvRows : list (list string)) :
  Forall (λ row, length row = length csvHeaders) csvRows →
  ∃ headers' rows',
    log_fix options auditType csvHeaders csvRows = Some (headers', rows')
    ∧ Forall (λ row, length row = length headers') rows'
    ∧ if bool_decide (ToLower auditType = "log" ∧ "args.arg" ∈ csvHeaders
                      ∧ "msg" ∈ csvHeaders)
      then headers' = csvHeaders ++ ["msg_full"]
           ∧ Forall2 (λ row row', ∃ msg_full, row' = row ++ [msg_full])
               csvRows rows'
      else headers' = csvHeaders ∧ rows' = csvRows.
Proof.
  intros Hw. unfold log_fix.
  destruct (log_columns_spec csvHeaders 0 (-1) (-1))
    as (Ha & Hm & Ha1 & Hm1); [lia..|].
  destruct (log_columns csvHeaders 0 (-1) (-1)) as [a m] eqn:Hcols.
  cbn [fst snd] in *.
  case_bool_decide as Hlog.
  - destruct (Z.eqb_spec a (-1)) as [Ea|Ea]; cbn [negb andb].
    + exists csvHeaders, csvRows. split; [done|]. split; [done|].
      rewrite bool_decide_eq_false_2; [done|]. intros (_ & Hin & _).
      apply Ha1 in Ea as [_ ?]. done.
    + destruct (Z.eqb_spec m (-1)) as [Em|Em]; cbn [negb].
      * exists csvHeaders, csvRows. split; [done|]. split; [done|].
        rewrite bool_decide_eq_false_2; [done|]. intros (_ & _ & Hin).
        apply Hm1 in Em as [_ ?]. done.
      * destruct (add_msg_full_spec options (Z.to_nat a) (Z.to_nat m)
                    (length csvHeaders) csvRows) as (rows' & -> & H2 & Hw');
          [lia|lia|done|].
        cbn [mbind option_bind]. eexists _, _. split; [done|].
        split; [by rewrite length_app, Nat.add_1_r|].
        rewrite bool_decide_eq_true_2.
        -- split; [done|]. eapply Forall2_impl; [exact H2|].
           intros row row' (cell & msg & _ & _ & ->). by eexists.
        -- split; [done|]. split.
           ++ destruct (decide ("args.arg" ∈ csvHeaders)); [done|].
              exfalso. apply Ea. apply Ha1. done.
           ++ destruct (decide ("msg" ∈ csvHeaders)); [done|].
              exfalso. apply Em. apply Hm1. done.
  - exists csvHeaders, csvRows. split; [done|]. split; [done|].
    rewrite bool_decide_eq_false_2; [done|]. by intros (? & _).
Qed.

Lemma log_fix_adds_one_column_witness :
  ∃ headers' rows',
    log_fix plain_options "Log" ["msg"; "args.arg"]
      [["user ^1 from ^2"; "bob" +:+ CRLF +:+ "10.0.0.1"]]
    = Some (headers', rows')
    ∧ Forall (λ row, length row = length headers') rows'
    ∧ if bool_decide (ToLower "Log" = "log" ∧ "args.arg" ∈ ["msg"; "args.arg"]
                      ∧ "msg" ∈ ["msg"; "args.arg"])
      then headers' = ["msg"; "args.arg"] ++ ["msg_full"]
           ∧ Forall2 (λ row row', ∃ msg_full, row' = row ++ [msg_full])
               [["user ^1 from ^2"; "bob" +:+ CRLF +:+ "10.0.0.1"]] rows'
      else headers' = ["msg"; "args.arg"]
           ∧ rows' = [["user ^1 from ^2"; "bob" +:+ CRLF +:+ "10.0.0.1"]].
Proof.
  apply (log_fix_adds_one_column plain_options "Log" ["msg"; "args.arg"]
           [["user ^1 from ^2"; "bob" +:+ CRLF +:+ "10.0.0.1"]]).
  repeat constructor.
Defined.
Lemma Join_cons (v w : string) (vs : list string) (sep : string) :
  Join (v :: w :: vs) sep = v +:+ sep +:+ Join (w :: vs) sep.
Proof. done. Qed.

Lemma rev_app_keeps_out (q : ascii) (s acc : string) :
  has_byte q s = false → has_byte q acc = false →
  has_byte q (String.rev_app s acc) = false.
Proof.
  revert acc. induction s as [|c s IH]; intros acc Hs Hacc; [done|].
  cbn in Hs |- *. apply orb_false_iff in Hs as [Hc Hs].
  apply IH; [done|]. cbn. by rewrite Hc, Hacc.
Qed.

Lemma HasSuffix_free (s : string) (q : ascii) :
  has_byte q s = false → HasSuffix s (String q "") = false.
Proof.
  intros Hs. unfold HasSuffix, String.rev. cbn [String.rev_app].
  pose proof (rev_app_keeps_out q s EmptyString Hs eq_refl) as Hrev.
  destruct (String.rev_app s "") as [|c r]; [done|].
  cbn in Hrev |- *. apply orb_false_iff in Hrev as [Hc _].
  apply Ascii.eqb_neq in Hc. by destruct (ascii_dec q c).
Qed.

Lemma Replace1_absent (s old new : string) :
  Contains s old = false → Replace1 s old new = s.
Proof.
  induction s as [|c s IH]; cbn [Contains Replace1].
  - intros H. apply orb_false_iff in H as [-> _]. done.
  - intros H. apply orb_false_iff in H as [-> Hs]. by rewrite IH.
Qed.

Lemma Contains_needs_first_byte (s old : string) (q : ascii) :
  has_byte q s = false → Contains s (String q old) = false.
Proof.
  induction s as [|c s IH]; [done|]. cbn.
  intros [Hc Hs]%orb_false_iff. rewrite IH by done.
  apply Ascii.eqb_neq in Hc. by destruct (ascii_dec q c).
Qed.

Lemma fill_args_copies (msg : string) (args : list string) (j : Z) :
  has_byte "^" msg = false → fill_args msg args j = msg.
Proof.
  intros Hmsg. revert j. induction args as [|arg args IH]; intros j; [done|].
  cbn [fill_args]. rewrite Replace1_absent; [apply IH|].
  by apply Contains_needs_first_byte.
Qed.

(** X21.  The arguments the log fix takes out of a cell are the values
    the accumulator joined into it: splitting at the separator and
    dropping one trailing carriage return gives the values back, when no
    value holds the byte the cell is split at and, with the two-byte
    separator, the last value does not end in a carriage return (with
    "|", no value does).  A message without "^" is copied to "msg_full"
    as it is, whatever the arguments. *)
Theorem joined_values_are_split_again (options : Options)
    (values : list string) :
  values ≠ [] →
  Forall (λ v, has_byte (log_separator options) v = false) values →
  (if ReplaceNewLineFeeds options
   then Forall (λ v, HasSuffix v CR = false) values
   else ∀ v, last values = Some v → HasSuffix v CR = false) →
  (λ arg, TrimSuffix arg CR)
    <$> Split (Join values (join_separator options)) (log_separator options)
  = values
  ∧ ∀ msg args j, has_byte "^" msg = false → fill_args msg args j = msg.
Proof.
  intros Hne Hfree Hcr. split; [|intros; by apply fill_args_copies].
  unfold join_separator, log_separator in *.
  destruct (ReplaceNewLineFeeds options).
  - induction values as [|v vs IH]; [done|].
    apply Forall_cons in Hfree as [Hv Hfree].
    apply Forall_cons in Hcr as [Hc Hcr].
    destruct vs as [|w vs].
    + change (Join [v] "|") with v. rewrite Split_free by done. cbn.
      unfold TrimSuffix. by rewrite Hc.
    + rewrite Join_cons. change (v +:+ "|" +:+ Join (w :: vs) "|")
        with (v +:+ String "|" (Join (w :: vs) "|")).
      rewrite Split_app, Split_free, fmap_app by done. cbn [fmap list_fmap].
      rewrite IH by done. cbn. unfold TrimSuffix. by rewrite Hc.
  - induction values as [|v vs IH]; [done|].
    apply Forall_cons in Hfree as [Hv Hfree].
    destruct vs as [|w vs].
    + change (Join [v] CRLF) with v. rewrite Split_free by done. cbn.
      unfold TrimSuffix. by rewrite (Hcr v).
    + rewrite Join_cons.
      replace (v +:+ CRLF +:+ Join (w :: vs) CRLF)
        with ((v +:+ CR) +:+ String "010" (Join (w :: vs) CRLF))
        by (by rewrite string_app_assoc).
      rewrite Split_app, Split_free, fmap_app.
      * cbn [fmap list_fmap]. rewrite IH; [|done|done|].
        -- cbn. by rewrite TrimSuffix_app.
        -- intros x Hx. apply Hcr. by rewrite last_cons_cons.
      * rewrite has_byte_app, Hv. done.
Qed.

Lemma joined_values_are_split_again_witness :
  (λ arg, TrimSuffix arg CR)
    <$> Split (Join ["bob"; "10.0.0.1"] (join_separator plain_options))
          (log_separator plain_options)
  = ["bob"; "10.0.0.1"]
  ∧ ∀ msg args j, has_byte "^" msg = false → fill_args msg args j = msg.
Proof.
  apply (joined_values_are_split_again plain_options ["bob"; "10.0.0.1"]).
  - discriminate.
  - repeat constructor.
  - cbn. intros v [= <-]. reflexivity.
Defined.
(** ** Further properties: the names of the event columns *)

Lemma ToUpper_byte_ascii (c : ascii) :
  (nat_of_ascii c < 128)%nat →
  ∃ c', ToUpper_byte c = String c' ""
        ∧ (nat_of_ascii c' < 128)%nat
        ∧ ToUpper_byte c' = String c' "".
Proof.
  intros Hc. unfold ToUpper_byte at 1. cbv zeta.
  destruct (Nat.leb_spec 97 (nat_of_ascii c)) as [L1|L1];
    [destruct (Nat.leb_spec (nat_of_ascii c) 122) as [L2|L2]|]; cbn [andb].
  - exists (ascii_of_nat (nat_of_ascii c - 32)). split; [done|].
    assert (nat_of_ascii (ascii_of_nat (nat_of_ascii c - 32))
            = (nat_of_ascii c - 32)%nat) as E
      by (apply nat_ascii_embedding; lia).
    split; [lia|]. unfold ToUpper_byte. cbv zeta. rewrite E.
    destruct (Nat.leb_spec 97 (nat_of_ascii c - 32)); [lia|]. cbn [andb].
    destruct (Nat.ltb_spec (nat_of_ascii c - 32) 128); [done|lia].
  - exists c. destruct (Nat.ltb_spec (nat_of_ascii c) 128); [|lia].
    split; [done|]. split; [done|]. unfold ToUpper_byte. cbv zeta.
    destruct (Nat.leb_spec 97 (nat_of_ascii c)); [|lia].
    destruct (Nat.leb_spec (nat_of_ascii c) 122); [lia|]. cbn [andb].
    destruct (Nat.ltb_spec (nat_of_ascii c) 128); [done|lia].
  - exists c. destruct (Nat.ltb_spec (nat_of_ascii c) 128); [|lia].
    split; [done|]. split; [done|]. unfold ToUpper_byte. cbv zeta.
    destruct (Nat.leb_spec 97 (nat_of_ascii c)); [lia|]. cbn [andb].
    destruct (Nat.ltb_spec (nat_of_ascii c) 128); [done|lia].
Qed.

(** X22.  [UpperCamelCase] touches the first byte only.  For a name that
    starts with an ASCII byte the result has the same length and the same
    bytes behind the first, and applying it again changes nothing; an
    empty name stays empty; a name that starts with a byte of 128 or more
    comes back three bytes for that one, so two bytes longer. *)
Theorem UpperCamelCase_first_byte_only :
  UpperCamelCase "" = ""
  ∧ (∀ c rest, (nat_of_ascii c < 128)%nat →
       ∃ c', UpperCamelCase (String c rest) = String c' rest
             ∧ UpperCamelCase (String c' rest) = String c' rest)
  ∧ (∀ c rest, (128 ≤ nat_of_ascii c)%nat →
       UpperCamelCase (String c rest)
       = String "239" (String "191" (String "189" rest))).
Proof.
  split; [done|]. split.
  - intros c rest Hc. destruct (ToUpper_byte_ascii c Hc) as (c' & H1 & _ & H2).
    exists c'. unfold UpperCamelCase. by rewrite H1, H2.
  - intros c rest Hc. unfold UpperCamelCase, ToUpper_byte.
    destruct (Nat.leb_spec 97 (nat_of_ascii c));
      destruct (Nat.leb_spec (nat_of_ascii c) 122); cbn [andb]; try lia;
      by destruct (Nat.ltb_spec (nat_of_ascii c) 128); [lia|].
Qed.
